(** * FlexCAN controller driver ([drivers/net/can/flexcan.c])

    A shallow embedding of the control and data path of the driver and
    the properties of its natural-language specification.

    Registers and all 32-bit quantities are [Z] with the wrap-around
    written out; driver memory is a record; the device, the socket
    buffer allocator and the regulator are an explicit environment that
    the code consults; all effects are threaded through one state monad
    that also records the externally visible calls in a trace. *)

From Stdlib Require Import ZArith List Bool Lia.
From stdpp Require Import base list.
Import ListNotations.

Local Open Scope Z_scope.

(** ** Machine arithmetic *)

Definition u32 (x : Z) : Z := x mod 2 ^ 32.

(** [unsigned long] on the 32-bit SoCs that carry the controller. *)
Definition BITS_PER_LONG : Z := 32.
Definition ulong (x : Z) : Z := x mod 2 ^ BITS_PER_LONG.

(** [BIT(n)] of [linux/bitops.h]. *)
Definition BIT (n : Z) : Z := Z.shiftl 1 n.

(** A C condition [x & m] used as a truth value. *)
Definition tst (x m : Z) : bool := negb (Z.land x m =? 0).

(** [x & ~m] on register values. *)
Definition clr (x m : Z) : Z := Z.land x (Z.lnot m).

(** ** Register and mailbox bit definitions *)

Definition FLEXCAN_NAPI_WEIGHT : Z := 8 + 2.

Definition FLEXCAN_MCR_MDIS : Z := BIT 31.
Definition FLEXCAN_MCR_FRZ : Z := BIT 30.
Definition FLEXCAN_MCR_FEN : Z := BIT 29.
Definition FLEXCAN_MCR_HALT : Z := BIT 28.
Definition FLEXCAN_MCR_NOT_RDY : Z := BIT 27.
Definition FLEXCAN_MCR_WAK_MSK : Z := BIT 26.
Definition FLEXCAN_MCR_SOFTRST : Z := BIT 25.
Definition FLEXCAN_MCR_FRZ_ACK : Z := BIT 24.
Definition FLEXCAN_MCR_SUPV : Z := BIT 23.
Definition FLEXCAN_MCR_SLF_WAK : Z := BIT 22.
Definition FLEXCAN_MCR_WRN_EN : Z := BIT 21.
Definition FLEXCAN_MCR_LPM_ACK : Z := BIT 20.
Definition FLEXCAN_MCR_SRX_DIS : Z := BIT 17.
Definition FLEXCAN_MCR_MAXMB (x : Z) : Z := Z.land x 0x1f.
Definition FLEXCAN_MCR_IDAM_C : Z := Z.shiftl 2 8.

Definition FLEXCAN_CTRL_PRESDIV (x : Z) : Z := Z.shiftl (Z.land x 0xff) 24.
Definition FLEXCAN_CTRL_RJW (x : Z) : Z := Z.shiftl (Z.land x 0x03) 22.
Definition FLEXCAN_CTRL_PSEG1 (x : Z) : Z := Z.shiftl (Z.land x 0x07) 19.
Definition FLEXCAN_CTRL_PSEG2 (x : Z) : Z := Z.shiftl (Z.land x 0x07) 16.
Definition FLEXCAN_CTRL_BOFF_MSK : Z := BIT 15.
Definition FLEXCAN_CTRL_ERR_MSK : Z := BIT 14.
Definition FLEXCAN_CTRL_CLK_SRC : Z := BIT 13.
Definition FLEXCAN_CTRL_LPB : Z := BIT 12.
Definition FLEXCAN_CTRL_TWRN_MSK : Z := BIT 11.
Definition FLEXCAN_CTRL_RWRN_MSK : Z := BIT 10.
Definition FLEXCAN_CTRL_SMP : Z := BIT 7.
Definition FLEXCAN_CTRL_BOFF_REC : Z := BIT 6.
Definition FLEXCAN_CTRL_TSYN : Z := BIT 5.
Definition FLEXCAN_CTRL_LBUF : Z := BIT 4.
Definition FLEXCAN_CTRL_LOM : Z := BIT 3.
Definition FLEXCAN_CTRL_PROPSEG (x : Z) : Z := Z.land x 0x07.
Definition FLEXCAN_CTRL_ERR_BUS : Z := FLEXCAN_CTRL_ERR_MSK.
Definition FLEXCAN_CTRL_ERR_STATE : Z :=
  Z.lor (Z.lor FLEXCAN_CTRL_TWRN_MSK FLEXCAN_CTRL_RWRN_MSK)
        FLEXCAN_CTRL_BOFF_MSK.
Definition FLEXCAN_CTRL_ERR_ALL : Z :=
  Z.lor FLEXCAN_CTRL_ERR_BUS FLEXCAN_CTRL_ERR_STATE.

Definition FLEXCAN_ESR_TWRN_INT : Z := BIT 17.
Definition FLEXCAN_ESR_RWRN_INT : Z := BIT 16.
Definition FLEXCAN_ESR_BIT1_ERR : Z := BIT 15.
Definition FLEXCAN_ESR_BIT0_ERR : Z := BIT 14.
Definition FLEXCAN_ESR_ACK_ERR : Z := BIT 13.
Definition FLEXCAN_ESR_CRC_ERR : Z := BIT 12.
Definition FLEXCAN_ESR_FRM_ERR : Z := BIT 11.
Definition FLEXCAN_ESR_STF_ERR : Z := BIT 10.
Definition FLEXCAN_ESR_TX_WRN : Z := BIT 9.
Definition FLEXCAN_ESR_RX_WRN : Z := BIT 8.
Definition FLEXCAN_EST_FLT_CONF_SHIFT : Z := 4.
Definition FLEXCAN_ESR_FLT_CONF_MASK : Z :=
  Z.shiftl 0x3 FLEXCAN_EST_FLT_CONF_SHIFT.
Definition FLEXCAN_ESR_FLT_CONF_ACTIVE : Z :=
  Z.shiftl 0x0 FLEXCAN_EST_FLT_CONF_SHIFT.
Definition FLEXCAN_ESR_FLT_CONF_PASSIVE : Z :=
  Z.shiftl 0x1 FLEXCAN_EST_FLT_CONF_SHIFT.
Definition FLEXCAN_ESR_BOFF_INT : Z := BIT 2.
Definition FLEXCAN_ESR_ERR_INT : Z := BIT 1.
Definition FLEXCAN_ESR_WAK_INT : Z := BIT 0.
Definition FLEXCAN_ESR_ERR_BUS : Z :=
  Z.lor (Z.lor (Z.lor (Z.lor (Z.lor FLEXCAN_ESR_BIT1_ERR FLEXCAN_ESR_BIT0_ERR)
    FLEXCAN_ESR_ACK_ERR) FLEXCAN_ESR_CRC_ERR) FLEXCAN_ESR_FRM_ERR)
    FLEXCAN_ESR_STF_ERR.
Definition FLEXCAN_ESR_ERR_STATE : Z :=
  Z.lor (Z.lor FLEXCAN_ESR_TWRN_INT FLEXCAN_ESR_RWRN_INT) FLEXCAN_ESR_BOFF_INT.
Definition FLEXCAN_ESR_ALL_INT : Z :=
  Z.lor (Z.lor (Z.lor (Z.lor FLEXCAN_ESR_TWRN_INT FLEXCAN_ESR_RWRN_INT)
    FLEXCAN_ESR_BOFF_INT) FLEXCAN_ESR_ERR_INT) FLEXCAN_ESR_WAK_INT.

Definition FLEXCAN_RESERVED_BUF_ID : nat := 8.
Definition FLEXCAN_TX_BUF_ID : nat := 13.
Definition FLEXCAN_IFLAG_BUF (x : nat) : Z := BIT (Z.of_nat x).
Definition FLEXCAN_IFLAG_RX_FIFO_OVERFLOW : Z := BIT 7.
Definition FLEXCAN_IFLAG_RX_FIFO_WARN : Z := BIT 6.
Definition FLEXCAN_IFLAG_RX_FIFO_AVAILABLE : Z := BIT 5.
Definition FLEXCAN_IFLAG_DEFAULT : Z :=
  Z.lor (Z.lor FLEXCAN_IFLAG_RX_FIFO_OVERFLOW FLEXCAN_IFLAG_RX_FIFO_AVAILABLE)
        (FLEXCAN_IFLAG_BUF FLEXCAN_TX_BUF_ID).

Definition FLEXCAN_MB_CNT_CODE (x : Z) : Z := Z.shiftl (Z.land x 0xf) 24.
Definition FLEXCAN_MB_CNT_SRR : Z := BIT 22.
Definition FLEXCAN_MB_CNT_IDE : Z := BIT 21.
Definition FLEXCAN_MB_CNT_RTR : Z := BIT 20.

Definition FLEXCAN_TIMEOUT_US : Z := 50.

Definition FLEXCAN_HAS_V10_FEATURES : Z := BIT 1.
Definition FLEXCAN_HAS_BROKEN_ERR_STATE : Z := BIT 2.
Definition FLEXCAN_HAS_ERR005829 : Z := BIT 3.

(** ** Kernel interface constants *)

(** Modelled from the spec: the constants of [linux/can.h],
    [linux/can/error.h], [linux/can/netlink.h] and [errno.h] are not in
    the driver file.  The identifier is 11 or 29 bits wide and a frame
    carries at most 8 bytes; the flag and error-class values are those
    of the kernel's user-space ABI. *)

Definition CAN_EFF_FLAG : Z := 0x80000000.
Definition CAN_RTR_FLAG : Z := 0x40000000.
Definition CAN_ERR_FLAG : Z := 0x20000000.
Definition CAN_SFF_MASK : Z := 0x000007FF.
Definition CAN_EFF_MASK : Z := 0x1FFFFFFF.
Definition CAN_MAX_DLEN : Z := 8.
Definition CAN_ERR_DLC : Z := 8.

Definition CAN_ERR_CRTL : Z := 0x00000004.
Definition CAN_ERR_PROT : Z := 0x00000008.
Definition CAN_ERR_BUSOFF : Z := 0x00000040.
Definition CAN_ERR_CRTL_RX_WARNING : Z := 0x04.
Definition CAN_ERR_CRTL_TX_WARNING : Z := 0x08.
Definition CAN_ERR_CRTL_RX_PASSIVE : Z := 0x10.
Definition CAN_ERR_CRTL_TX_PASSIVE : Z := 0x20.
Definition CAN_ERR_PROT_ACTIVE : Z := 0x40.

Definition CAN_CTRLMODE_LOOPBACK : Z := 0x01.
Definition CAN_CTRLMODE_LISTENONLY : Z := 0x02.
Definition CAN_CTRLMODE_3_SAMPLES : Z := 0x04.
Definition CAN_CTRLMODE_BERR_REPORTING : Z := 0x10.

Definition ETIMEDOUT : Z := 110.

(** [enum can_state], in declaration order. *)
Inductive can_state :=
| CAN_STATE_ERROR_ACTIVE
| CAN_STATE_ERROR_WARNING
| CAN_STATE_ERROR_PASSIVE
| CAN_STATE_BUS_OFF
| CAN_STATE_STOPPED
| CAN_STATE_SLEEPING.

#[global] Instance can_state_eq_dec : EqDecision can_state.
Proof. solve_decision. Defined.

(** The integer value of an enumerator, used by the range tests of
    [do_state]. *)
Definition can_state_val (s : can_state) : Z :=
  match s with
  | CAN_STATE_ERROR_ACTIVE => 0
  | CAN_STATE_ERROR_WARNING => 1
  | CAN_STATE_ERROR_PASSIVE => 2
  | CAN_STATE_BUS_OFF => 3
  | CAN_STATE_STOPPED => 4
  | CAN_STATE_SLEEPING => 5
  end.

Inductive irqreturn_t := IRQ_NONE | IRQ_HANDLED.

(** ** Data model *)

(** [struct can_frame]: identifier with flags, length code, payload. *)
Record can_frame := mk_can_frame {
  can_id : Z;
  can_dlc : Z;
  data : list Z
}.

(** Addresses inside [struct flexcan_regs]: the named registers and the
    four words of each message buffer of [cantxfg]. *)
Inductive reg_addr :=
| MCR | CTRL | TIMER | RXGMASK | RX14MASK | RX15MASK | ECR | ESR
| IMASK2 | IMASK1 | IFLAG2 | IFLAG1 | RXFGMASK
| MB_CTRL (n : nat) | MB_ID (n : nat) | MB_DATA0 (n : nat) | MB_DATA1 (n : nat).

#[global] Instance reg_addr_eq_dec : EqDecision reg_addr.
Proof. solve_decision. Defined.

(** [struct can_bittiming], the fields the driver reads. *)
Record can_bittiming := mk_can_bittiming {
  bitrate : Z;
  prop_seg : Z;
  phase_seg1 : Z;
  phase_seg2 : Z;
  sjw : Z;
  brp : Z
}.

(** [struct net_device_stats] and [struct can_device_stats], the
    counters the driver touches. *)
Record net_device_stats := mk_stats {
  rx_packets : Z;
  rx_bytes : Z;
  rx_dropped : Z;
  rx_errors : Z;
  rx_over_errors : Z;
  tx_packets : Z;
  tx_bytes : Z;
  error_warning : Z;
  error_passive : Z
}.

(** [struct can_rx_offload]: the software receive queue and its limit. *)
Record can_rx_offload := mk_offload {
  skb_queue : list can_frame;
  skb_queue_len_max : Z
}.

(** Messages of [netdev_err], [netdev_dbg], [netdev_info] and [printk]. *)
Inductive log_msg :=
| MsgErrorWarningIrq
| MsgErrorPassiveIrq
| MsgBugRecoveredFromBusOff
| MsgErrorActive
| MsgErrState (reg_esr : Z)
| MsgErrBus (reg_esr : Z)
| MsgWritingCtrl (reg : Z).

(** Calls that leave the driver, in program order. *)
Inductive event :=
| EvRead (r : reg_addr) (v : Z)
| EvWrite (r : reg_addr) (v : Z)
| EvUdelay (us : Z)
| EvUsleepRange (lo hi : Z)
| EvNetifReceiveSkb (cf : can_frame)
| EvCanBusOff
| EvLog (m : log_msg)
| EvNapiSchedule
| EvNapiComplete
| EvNapiReschedule
| EvLedRx
| EvLedTx
| EvNetifStopQueue
| EvNetifWakeQueue
| EvPutEchoSkb (cf : can_frame)
| EvTransceiverSwitch (on : bool)
| EvRegulatorEnable (ret : Z)
| EvRegulatorDisable
| EvNetifNapiAdd (weight : Z).

(** [struct flexcan_priv] together with the [net_device] it belongs to
    and the platform data it points to. *)
Record flexcan_priv := mk_priv {
  state : can_state;
  ctrlmode : Z;
  bittiming : can_bittiming;
  stats : net_device_stats;
  offload : can_rx_offload;
  reg_ctrl_default : Z;
  features : Z;
  transceiver_switch : bool;
  reg_xceiver : bool
}.

(** The world the driver runs in: its own memory, the values last
    written to the register block, the number of times the environment
    has been consulted, and the trace of outward calls. *)
Record world := mk_world {
  priv : flexcan_priv;
  regs : reg_addr -> Z;
  clock : nat;
  trace : list event
}.

(** What the driver does not control.  [hw_read n r f] is the word the
    device returns for the read of register [r] made at instant [n]
    when [f] holds the words last written to the register block;
    [skb_alloc n] tells whether the socket-buffer allocation made at
    instant [n] succeeds;
    [regulator_enable_ret] is the result of [regulator_enable] and
    [echo_skb_len] that of [can_get_echo_skb]. *)
Record environment := mk_env {
  hw_read : nat -> reg_addr -> (reg_addr -> Z) -> Z;
  skb_alloc : nat -> bool;
  regulator_enable_ret : Z;
  echo_skb_len : Z
}.

(** ** Field updates *)

Definition set_state (s : can_state) (p : flexcan_priv) : flexcan_priv :=
  mk_priv s (ctrlmode p) (bittiming p) (stats p) (offload p)
          (reg_ctrl_default p) (features p) (transceiver_switch p)
          (reg_xceiver p).

Definition set_stats (s : net_device_stats) (p : flexcan_priv) : flexcan_priv :=
  mk_priv (state p) (ctrlmode p) (bittiming p) s (offload p)
          (reg_ctrl_default p) (features p) (transceiver_switch p)
          (reg_xceiver p).

Definition set_offload (o : can_rx_offload) (p : flexcan_priv) : flexcan_priv :=
  mk_priv (state p) (ctrlmode p) (bittiming p) (stats p) o
          (reg_ctrl_default p) (features p) (transceiver_switch p)
          (reg_xceiver p).

Definition set_reg_ctrl_default (v : Z) (p : flexcan_priv) : flexcan_priv :=
  mk_priv (state p) (ctrlmode p) (bittiming p) (stats p) (offload p)
          v (features p) (transceiver_switch p) (reg_xceiver p).

Definition inc_rx_packets (s : net_device_stats) : net_device_stats :=
  mk_stats (ulong (rx_packets s + 1)) (rx_bytes s) (rx_dropped s) (rx_errors s)
           (rx_over_errors s) (tx_packets s) (tx_bytes s)
           (error_warning s) (error_passive s).

Definition add_rx_bytes (n : Z) (s : net_device_stats) : net_device_stats :=
  mk_stats (rx_packets s) (ulong (rx_bytes s + n)) (rx_dropped s) (rx_errors s)
           (rx_over_errors s) (tx_packets s) (tx_bytes s)
           (error_warning s) (error_passive s).

Definition inc_rx_dropped (s : net_device_stats) : net_device_stats :=
  mk_stats (rx_packets s) (rx_bytes s) (ulong (rx_dropped s + 1)) (rx_errors s)
           (rx_over_errors s) (tx_packets s) (tx_bytes s)
           (error_warning s) (error_passive s).

Definition inc_rx_errors (s : net_device_stats) : net_device_stats :=
  mk_stats (rx_packets s) (rx_bytes s) (rx_dropped s) (ulong (rx_errors s + 1))
           (rx_over_errors s) (tx_packets s) (tx_bytes s)
           (error_warning s) (error_passive s).

Definition inc_rx_over_errors (s : net_device_stats) : net_device_stats :=
  mk_stats (rx_packets s) (rx_bytes s) (rx_dropped s) (rx_errors s)
           (ulong (rx_over_errors s + 1)) (tx_packets s) (tx_bytes s)
           (error_warning s) (error_passive s).

Definition inc_tx_packets (s : net_device_stats) : net_device_stats :=
  mk_stats (rx_packets s) (rx_bytes s) (rx_dropped s) (rx_errors s)
           (rx_over_errors s) (ulong (tx_packets s + 1)) (tx_bytes s)
           (error_warning s) (error_passive s).

Definition add_tx_bytes (n : Z) (s : net_device_stats) : net_device_stats :=
  mk_stats (rx_packets s) (rx_bytes s) (rx_dropped s) (rx_errors s)
           (rx_over_errors s) (tx_packets s) (ulong (tx_bytes s + n))
           (error_warning s) (error_passive s).

Definition inc_error_warning (s : net_device_stats) : net_device_stats :=
  mk_stats (rx_packets s) (rx_bytes s) (rx_dropped s) (rx_errors s)
           (rx_over_errors s) (tx_packets s) (tx_bytes s)
           (ulong (error_warning s + 1)) (error_passive s).

Definition inc_error_passive (s : net_device_stats) : net_device_stats :=
  mk_stats (rx_packets s) (rx_bytes s) (rx_dropped s) (rx_errors s)
           (rx_over_errors s) (tx_packets s) (tx_bytes s)
           (error_warning s) (ulong (error_passive s + 1)).

Definition set_can_id (v : Z) (cf : can_frame) : can_frame :=
  mk_can_frame v (can_dlc cf) (data cf).
Definition set_can_dlc (v : Z) (cf : can_frame) : can_frame :=
  mk_can_frame (can_id cf) v (data cf).
(** [cf->data[i] = v]. *)
Definition set_data (i : nat) (v : Z) (cf : can_frame) : can_frame :=
  mk_can_frame (can_id cf) (can_dlc cf) (<[i := v]> (data cf)).

(** ** The driver monad *)

Definition M (A : Type) : Type := world -> A * world.

Definition ret {A} (a : A) : M A := fun w => (a, w).

Definition bind {A B} (m : M A) (k : A -> M B) : M B :=
  fun w => match m w with (a, w') => k a w' end.

Declare Scope drv_scope.
Delimit Scope drv_scope with drv.
Notation "x <- m ;; k" := (bind m (fun x => k))
  (at level 100, m at next level, right associativity) : drv_scope.
Notation "m ;; k" := (bind m (fun _ => k))
  (at level 100, right associativity) : drv_scope.
Local Open Scope drv_scope.

Definition get_priv : M flexcan_priv := fun w => (priv w, w).

Definition modify_priv (f : flexcan_priv -> flexcan_priv) : M unit :=
  fun w => (tt, mk_world (f (priv w)) (regs w) (clock w) (trace w)).

Definition modify_stats (f : net_device_stats -> net_device_stats) : M unit :=
  modify_priv (fun p => set_stats (f (stats p)) p).

Definition emit (e : event) : M unit :=
  fun w => (tt, mk_world (priv w) (regs w) (clock w) (trace w ++ [e])).

(** Consult the environment: returns the current instant and advances. *)
Definition tick : M nat :=
  fun w => (clock w, mk_world (priv w) (regs w) (S (clock w)) (trace w)).

Definition upd (r : reg_addr) (v : Z) (f : reg_addr -> Z) : reg_addr -> Z :=
  fun r' => if decide (r = r') then v else f r'.

(** Run a driver function from a world. *)
Definition result {A} (m : M A) (w : world) : A := fst (m w).
Definition after {A} (m : M A) (w : world) : world := snd (m w).

Section Driver.

Variable env : environment.

(** *** Register interface *)

Definition flexcan_read (r : reg_addr) : M Z :=
  n <- tick ;;
  fun w =>
    let v := u32 (hw_read env n r (regs w)) in
    (v, mk_world (priv w) (regs w) (clock w) (trace w ++ [EvRead r v])).

Definition flexcan_write (v : Z) (r : reg_addr) : M unit :=
  fun w => (tt, mk_world (priv w) (upd r v (regs w)) (clock w)
                         (trace w ++ [EvWrite r v])).

(** The idiom [while (timeout-- && cond(read(mcr))) pause;] shared by
    the five chip-control routines: the register is not read once the
    budget is used up. *)
Fixpoint spin_mcr (timeout : nat) (cond : Z -> bool) (pause : event) : M unit :=
  match timeout with
  | O => ret tt
  | S t =>
      v <- flexcan_read MCR ;;
      if cond v then emit pause ;; spin_mcr t cond pause else ret tt
  end.

(** *** Transceiver *)

Definition flexcan_transceiver_enable : M Z :=
  p <- get_priv ;;
  if transceiver_switch p then emit (EvTransceiverSwitch true) ;; ret 0
  else if negb (reg_xceiver p) then ret 0
  else emit (EvRegulatorEnable (regulator_enable_ret env)) ;;
       ret (regulator_enable_ret env).

Definition flexcan_transceiver_disable : M Z :=
  p <- get_priv ;;
  if transceiver_switch p then emit (EvTransceiverSwitch false) ;; ret 0
  else if negb (reg_xceiver p) then ret 0
  else emit EvRegulatorDisable ;; ret 0.

(** *** Chip control *)

Definition flexcan_chip_enable : M Z :=
  let timeout := Z.to_nat (FLEXCAN_TIMEOUT_US / 10) in
  reg <- flexcan_read MCR ;;
  flexcan_write (clr reg FLEXCAN_MCR_MDIS) MCR ;;
  spin_mcr timeout (fun v => tst v FLEXCAN_MCR_LPM_ACK) (EvUdelay 20) ;;
  v <- flexcan_read MCR ;;
  if tst v FLEXCAN_MCR_LPM_ACK then ret (- ETIMEDOUT) else ret 0.

Definition flexcan_chip_disable : M Z :=
  let timeout := Z.to_nat (FLEXCAN_TIMEOUT_US / 10) in
  reg <- flexcan_read MCR ;;
  flexcan_write (Z.lor reg FLEXCAN_MCR_MDIS) MCR ;;
  spin_mcr timeout (fun v => negb (tst v FLEXCAN_MCR_LPM_ACK)) (EvUdelay 20) ;;
  v <- flexcan_read MCR ;;
  if negb (tst v FLEXCAN_MCR_LPM_ACK) then ret (- ETIMEDOUT) else ret 0.

(** The budget is an unsigned division by the configured bit rate; the
    callers run after [open_candev] has refused a zero bit rate. *)
Definition flexcan_chip_freeze : M Z :=
  p <- get_priv ;;
  let timeout := Z.to_nat (u32 (1000 * 1000 * 10) / bitrate (bittiming p)) in
  reg <- flexcan_read MCR ;;
  flexcan_write (Z.lor reg FLEXCAN_MCR_HALT) MCR ;;
  spin_mcr timeout (fun v => negb (tst v FLEXCAN_MCR_FRZ_ACK))
           (EvUsleepRange 100 200) ;;
  v <- flexcan_read MCR ;;
  if negb (tst v FLEXCAN_MCR_FRZ_ACK) then ret (- ETIMEDOUT) else ret 0.

Definition flexcan_chip_unfreeze : M Z :=
  let timeout := Z.to_nat (FLEXCAN_TIMEOUT_US / 10) in
  reg <- flexcan_read MCR ;;
  flexcan_write (clr reg FLEXCAN_MCR_HALT) MCR ;;
  spin_mcr timeout (fun v => tst v FLEXCAN_MCR_FRZ_ACK) (EvUdelay 20) ;;
  v <- flexcan_read MCR ;;
  if tst v FLEXCAN_MCR_FRZ_ACK then ret (- ETIMEDOUT) else ret 0.

Definition flexcan_chip_softreset : M Z :=
  let timeout := Z.to_nat (FLEXCAN_TIMEOUT_US / 10) in
  flexcan_write FLEXCAN_MCR_SOFTRST MCR ;;
  spin_mcr timeout (fun v => tst v FLEXCAN_MCR_SOFTRST) (EvUdelay 20) ;;
  v <- flexcan_read MCR ;;
  if tst v FLEXCAN_MCR_SOFTRST then ret (- ETIMEDOUT) else ret 0.

(** [struct can_berr_counter] as the pair (txerr, rxerr). *)
Definition flexcan_get_berr_counter : M (Z * Z) :=
  reg <- flexcan_read ECR ;;
  ret (Z.land (Z.shiftr reg 0) 0xff, Z.land (Z.shiftr reg 8) 0xff).


(** *** Kernel services used by the data path *)

(** Modelled from the spec: [alloc_can_skb] ([drivers/net/can/dev.c]) is
    not in the driver file.  It hands out a zeroed frame, or nothing
    when the allocator fails. *)
Definition alloc_can_skb : M (option can_frame) :=
  n <- tick ;;
  ret (if skb_alloc env n then Some (mk_can_frame 0 0 (replicate 8 0))
       else None).

(** Modelled from the spec: [alloc_can_err_skb] ([drivers/net/can/dev.c])
    is not in the driver file.  It hands out the frame of a diagnostic
    ("error") message: the error flag as identifier, eight zero bytes. *)
Definition alloc_can_err_skb : M (option can_frame) :=
  n <- tick ;;
  ret (if skb_alloc env n
       then Some (mk_can_frame CAN_ERR_FLAG CAN_ERR_DLC (replicate 8 0))
       else None).

(** Modelled from the spec: [get_can_dlc] ([linux/can/dev.h]) is not in
    the driver file; the data length code never exceeds 8. *)
Definition get_can_dlc (i : Z) : Z := Z.min i CAN_MAX_DLEN.

(** Modelled from the spec: [can_dropped_invalid_skb] ([linux/can/dev.h])
    is not in the driver file; a frame whose length code exceeds 8 is
    refused. *)
Definition can_dropped_invalid_skb (cf : can_frame) : bool :=
  CAN_MAX_DLEN <? can_dlc cf.

(** Modelled from the spec: [fls] ([linux/bitops.h]) is not in the driver
    file.  Find-last-set counts bit positions from one:
    [fls(0) = 0], [fls(1) = 1], [fls(0x80000000) = 32]. *)
Definition fls (x : Z) : Z := if x =? 0 then 0 else Z.log2 x + 1.

(** [be32_to_cpup] applied to the address of [d[off]]: the four bytes
    from [off], first byte most significant. *)
Definition be32_to_cpup (d : list Z) (off : nat) : Z :=
  Z.lor (Z.lor (Z.lor (Z.shiftl (d !!! off) 24)
                      (Z.shiftl (d !!! (off + 1)%nat) 16))
               (Z.shiftl (d !!! (off + 2)%nat) 8))
        (d !!! (off + 3)%nat).

(** Store of [cpu_to_be32(v)] at [cf->data + off]. *)
Definition store_be32 (off : nat) (v : Z) (cf : can_frame) : can_frame :=
  set_data (off + 3) (Z.land v 0xff)
    (set_data (off + 2) (Z.land (Z.shiftr v 8) 0xff)
       (set_data (off + 1) (Z.land (Z.shiftr v 16) 0xff)
          (set_data off (Z.land (Z.shiftr v 24) 0xff) cf))).

Definition skb_queue_len (o : can_rx_offload) : Z :=
  Z.of_nat (length (skb_queue o)).

Definition skb_queue_tail (cf : can_frame) : M unit :=
  modify_priv (fun p =>
    set_offload (mk_offload (skb_queue (offload p) ++ [cf])
                            (skb_queue_len_max (offload p))) p).

Definition skb_dequeue : M (option can_frame) :=
  p <- get_priv ;;
  match skb_queue (offload p) with
  | [] => ret None
  | cf :: q =>
      modify_priv (set_offload (mk_offload q (skb_queue_len_max (offload p)))) ;;
      ret (Some cf)
  end.

(** *** Error-state monitor *)

Definition do_state (cf : can_frame) (new_state : can_state) : M can_frame :=
  bec <- flexcan_get_berr_counter ;;
  let txerr := fst bec in
  let rxerr := snd bec in
  let warning (cf : can_frame) : M can_frame :=
    if (can_state_val CAN_STATE_ERROR_WARNING <=? can_state_val new_state)
       && (can_state_val new_state <=? can_state_val CAN_STATE_BUS_OFF)
    then
      emit (EvLog MsgErrorWarningIrq) ;;
      modify_stats inc_error_warning ;;
      ret (set_data 1 (if txerr >? rxerr then CAN_ERR_CRTL_TX_WARNING
                       else CAN_ERR_CRTL_RX_WARNING)
             (set_can_id (Z.lor (can_id cf) CAN_ERR_CRTL) cf))
    else ret cf in
  let passive (cf : can_frame) : M can_frame :=
    if (can_state_val CAN_STATE_ERROR_PASSIVE <=? can_state_val new_state)
       && (can_state_val new_state <=? can_state_val CAN_STATE_BUS_OFF)
    then
      emit (EvLog MsgErrorPassiveIrq) ;;
      modify_stats inc_error_passive ;;
      ret (set_data 1 (if txerr >? rxerr then CAN_ERR_CRTL_TX_PASSIVE
                       else CAN_ERR_CRTL_RX_PASSIVE)
             (set_can_id (Z.lor (can_id cf) CAN_ERR_CRTL) cf))
    else ret cf in
  p <- get_priv ;;
  cf <- match state p with
        | CAN_STATE_ERROR_ACTIVE => cf <- warning cf ;; passive cf
        | CAN_STATE_ERROR_WARNING => passive cf
        | CAN_STATE_BUS_OFF =>
            emit (EvLog MsgBugRecoveredFromBusOff) ;; ret cf
        | _ => ret cf
        end ;;
  match new_state with
  | CAN_STATE_ERROR_ACTIVE =>
      emit (EvLog MsgErrorActive) ;;
      ret (set_data 2 CAN_ERR_PROT_ACTIVE
             (set_can_id (Z.lor (can_id cf) CAN_ERR_PROT) cf))
  | CAN_STATE_BUS_OFF =>
      emit EvCanBusOff ;;
      ret (set_can_id (Z.lor (can_id cf) CAN_ERR_BUSOFF) cf)
  | _ => ret cf
  end.

(** The state that [flexcan_poll_state] derives from the status word. *)
Definition flexcan_new_state (reg_esr : Z) : can_state :=
  let flt := Z.land reg_esr FLEXCAN_ESR_FLT_CONF_MASK in
  if flt =? FLEXCAN_ESR_FLT_CONF_ACTIVE then
    if negb (tst reg_esr (Z.lor FLEXCAN_ESR_TX_WRN FLEXCAN_ESR_RX_WRN))
    then CAN_STATE_ERROR_ACTIVE
    else CAN_STATE_ERROR_WARNING
  else if flt =? FLEXCAN_ESR_FLT_CONF_PASSIVE then CAN_STATE_ERROR_PASSIVE
  else CAN_STATE_BUS_OFF.

Definition flexcan_poll_state (reg_esr : Z) : M Z :=
  let new_state := flexcan_new_state reg_esr in
  p <- get_priv ;;
  if decide (new_state = state p) then ret 0
  else
    skb <- alloc_can_err_skb ;;
    match skb with
    | None => ret 0
    | Some cf =>
        cf <- do_state cf new_state ;;
        modify_priv (set_state new_state) ;;
        emit (EvNetifReceiveSkb cf) ;;
        modify_stats inc_rx_packets ;;
        modify_stats (add_rx_bytes (can_dlc cf)) ;;
        ret 1
    end.

(** *** Receive datapath *)

(** [skb] is the buffer pointer the caller passes by reference; the
    frame pointer [cf] of the source is non-null exactly when this call
    allocated the buffer. *)
Definition flexcan_mailbox_read (drop : bool) (skb : option can_frame)
  : M (Z * option can_frame) :=
  reg_iflag1 <- flexcan_read IFLAG1 ;;
  if negb (tst reg_iflag1 FLEXCAN_IFLAG_RX_FIFO_AVAILABLE) then ret (0, skb)
  else
    fresh <- (if negb drop then alloc_can_skb else ret None) ;;
    skb <- match fresh with
           | Some cf =>
               reg_ctrl <- flexcan_read (MB_CTRL 0) ;;
               reg_id <- flexcan_read (MB_ID 0) ;;
               let cf :=
                 if tst reg_ctrl FLEXCAN_MB_CNT_IDE
                 then set_can_id (Z.lor (Z.land (Z.shiftr reg_id 0) CAN_EFF_MASK)
                                        CAN_EFF_FLAG) cf
                 else set_can_id (Z.land (Z.shiftr reg_id 18) CAN_SFF_MASK) cf in
               let cf :=
                 if tst reg_ctrl FLEXCAN_MB_CNT_RTR
                 then set_can_id (Z.lor (can_id cf) CAN_RTR_FLAG) cf
                 else cf in
               let cf :=
                 set_can_dlc (get_can_dlc (Z.land (Z.shiftr reg_ctrl 16) 0xf)) cf in
               d0 <- flexcan_read (MB_DATA0 0) ;;
               let cf := store_be32 0 d0 cf in
               d1 <- flexcan_read (MB_DATA1 0) ;;
               let cf := store_be32 4 d1 cf in
               ret (Some cf)
           | None => ret (if drop then skb else None)
           end ;;
    (* mark as read *)
    flexcan_write FLEXCAN_IFLAG_RX_FIFO_AVAILABLE IFLAG1 ;;
    _ <- flexcan_read TIMER ;;
    ret (1, skb).

Definition can_rx_offload_offload_one : M (option can_frame) :=
  p <- get_priv ;;
  (* If queue is full or skb not available, read to discard mailbox *)
  let drop := skb_queue_len (offload p) >? skb_queue_len_max (offload p) in
  r <- flexcan_mailbox_read drop None ;;
  (if negb (fst r =? 0) && negb (bool_decide (is_Some (snd r)))
   then modify_stats inc_rx_dropped else ret tt) ;;
  ret (snd r).

(** The [while] loop of [can_rx_offload_irq_offload_fifo]; [None] when
    [fuel] iterations were not enough to leave it. *)
Fixpoint offload_fifo_loop (fuel : nat) (received : Z) : M (option Z) :=
  match fuel with
  | O => ret None
  | S fuel =>
      skb <- can_rx_offload_offload_one ;;
      match skb with
      | Some cf =>
          skb_queue_tail cf ;;
          offload_fifo_loop fuel (received + 1)
      | None => ret (Some received)
      end
  end.

Definition can_rx_offload_schedule : M unit := emit EvNapiSchedule.

Definition can_rx_offload_irq_offload_fifo (fuel : nat) : M (option Z) :=
  r <- offload_fifo_loop fuel 0 ;;
  match r with
  | None => ret None
  | Some received =>
      (if negb (received =? 0) then can_rx_offload_schedule else ret tt) ;;
      ret (Some received)
  end.

(** The [while] loop of [can_rx_offload_napi_poll]; [budget] is what is
    left of [quota - work_done]. *)
Fixpoint napi_poll_loop (budget : nat) (work_done : Z) : M Z :=
  match budget with
  | O => ret work_done
  | S budget =>
      skb <- skb_dequeue ;;
      match skb with
      | None => ret work_done
      | Some cf =>
          modify_stats inc_rx_packets ;;
          modify_stats (add_rx_bytes (can_dlc cf)) ;;
          emit (EvNetifReceiveSkb cf) ;;
          napi_poll_loop budget (work_done + 1)
      end
  end.

Definition can_rx_offload_napi_poll (quota : Z) : M Z :=
  work_done <- napi_poll_loop (Z.to_nat quota) 0 ;;
  (if work_done <? quota then
     emit EvNapiComplete ;;
     p <- get_priv ;;
     (* Check if there was another interrupt *)
     if negb (skb_queue_len (offload p) =? 0) then emit EvNapiReschedule
     else ret tt
   else ret tt) ;;
  emit EvLedRx ;;
  ret work_done.

Definition can_rx_offload_init_queue (weight : Z) : M Z :=
  (* Limit queue len to 4x the weight (rounted to next power of two) *)
  let len_max := u32 (Z.shiftl 2 (fls weight)) in
  let len_max := u32 (len_max * 4) in
  modify_priv (set_offload (mk_offload [] len_max)) ;;
  emit (EvNetifNapiAdd weight) ;;
  ret 0.

Definition can_rx_offload_add_fifo (weight : Z) : M Z :=
  can_rx_offload_init_queue weight.

(** *** Transmit path *)

Definition NETDEV_TX_OK : Z := 0.

Definition flexcan_start_xmit (cf : can_frame) : M Z :=
  p <- get_priv ;;
  let ctrl := Z.lor (FLEXCAN_MB_CNT_CODE 0xc) (Z.shiftl (can_dlc cf) 16) in
  if can_dropped_invalid_skb cf then ret NETDEV_TX_OK
  else
    emit EvNetifStopQueue ;;
    let can_id' :=
      if tst (can_id cf) CAN_EFF_FLAG then Z.land (can_id cf) CAN_EFF_MASK
      else u32 (Z.shiftl (Z.land (can_id cf) CAN_SFF_MASK) 18) in
    let ctrl :=
      if tst (can_id cf) CAN_EFF_FLAG
      then Z.lor ctrl (Z.lor FLEXCAN_MB_CNT_IDE FLEXCAN_MB_CNT_SRR)
      else ctrl in
    let ctrl :=
      if tst (can_id cf) CAN_RTR_FLAG then Z.lor ctrl FLEXCAN_MB_CNT_RTR
      else ctrl in
    (if can_dlc cf >? 0
     then flexcan_write (be32_to_cpup (data cf) 0) (MB_DATA0 FLEXCAN_TX_BUF_ID)
     else ret tt) ;;
    (if can_dlc cf >? 3
     then flexcan_write (be32_to_cpup (data cf) 4) (MB_DATA1 FLEXCAN_TX_BUF_ID)
     else ret tt) ;;
    emit (EvPutEchoSkb cf) ;;
    flexcan_write can_id' (MB_ID FLEXCAN_TX_BUF_ID) ;;
    flexcan_write ctrl (MB_CTRL FLEXCAN_TX_BUF_ID) ;;
    (if tst (features p) FLEXCAN_HAS_ERR005829 then
       flexcan_write 0x0 (MB_CTRL FLEXCAN_RESERVED_BUF_ID) ;;
       flexcan_write 0x0 (MB_CTRL FLEXCAN_RESERVED_BUF_ID)
     else ret tt) ;;
    ret NETDEV_TX_OK.

(** *** Interrupt dispatcher *)

(** The body of [flexcan_napi_irq] up to its [return]; the value is
    that of the local variable [handled] at that point, [None] when the
    FIFO drain ran out of [fuel]. *)
Definition flexcan_napi_irq_body (fuel : nat) : M (option irqreturn_t) :=
  let handled := IRQ_NONE in
  reg_iflag1 <- flexcan_read IFLAG1 ;;
  reg_esr <- flexcan_read ESR ;;
  r <- (if tst reg_iflag1 FLEXCAN_IFLAG_RX_FIFO_AVAILABLE then
          rvnum <- can_rx_offload_irq_offload_fifo fuel ;;
          ret (match rvnum with Some _ => Some IRQ_HANDLED | None => None end)
        else ret (Some handled)) ;;
  match r with
  | None => ret None
  | Some handled =>
      handled <- (if tst reg_iflag1 FLEXCAN_IFLAG_RX_FIFO_OVERFLOW then
                    (* FIFO overflow *)
                    flexcan_write FLEXCAN_IFLAG_RX_FIFO_OVERFLOW IFLAG1 ;;
                    modify_stats inc_rx_over_errors ;;
                    modify_stats inc_rx_errors ;;
                    ret IRQ_HANDLED
                  else ret handled) ;;
      handled <- (if tst reg_iflag1 (Z.shiftl 1 (Z.of_nat FLEXCAN_TX_BUF_ID)) then
                    (* transmission complete interrupt *)
                    modify_stats (add_tx_bytes (echo_skb_len env)) ;;
                    modify_stats inc_tx_packets ;;
                    emit EvLedTx ;;
                    flexcan_write (Z.shiftl 1 (Z.of_nat FLEXCAN_TX_BUF_ID)) IFLAG1 ;;
                    emit EvNetifWakeQueue ;;
                    ret IRQ_HANDLED
                  else ret handled) ;;
      handled <- (if tst reg_esr FLEXCAN_ESR_ALL_INT then
                    flexcan_write (Z.land reg_esr FLEXCAN_ESR_ALL_INT) ESR ;;
                    ret IRQ_HANDLED
                  else ret handled) ;;
      (if tst reg_esr FLEXCAN_ESR_ERR_STATE
       then emit (EvLog (MsgErrState reg_esr)) else ret tt) ;;
      (if tst reg_esr FLEXCAN_ESR_ERR_BUS
       then emit (EvLog (MsgErrBus reg_esr)) else ret tt) ;;
      ret (Some handled)
  end.

Definition flexcan_napi_irq (fuel : nat) : M (option irqreturn_t) :=
  handled <- flexcan_napi_irq_body fuel ;;
  match handled with
  | None => ret None
  | Some _ => ret (Some IRQ_HANDLED)
  end.

(** *** Bit-timing configurator *)

(** The register reads that only feed [netdev_dbg] are left out: the
    debug statements compile to nothing in a production build. *)
Definition flexcan_set_bittiming : M unit :=
  p <- get_priv ;;
  let bt := bittiming p in
  reg <- flexcan_read CTRL ;;
  let reg :=
    clr reg
      (Z.lor (Z.lor (Z.lor (Z.lor (Z.lor (Z.lor (Z.lor
         (FLEXCAN_CTRL_PRESDIV 0xff)
         (FLEXCAN_CTRL_RJW 0x3))
         (FLEXCAN_CTRL_PSEG1 0x7))
         (FLEXCAN_CTRL_PSEG2 0x7))
         (FLEXCAN_CTRL_PROPSEG 0x7))
         FLEXCAN_CTRL_LPB)
         FLEXCAN_CTRL_SMP)
         FLEXCAN_CTRL_LOM) in
  let reg :=
    Z.lor reg
      (Z.lor (Z.lor (Z.lor (Z.lor
         (FLEXCAN_CTRL_PRESDIV (u32 (brp bt - 1)))
         (FLEXCAN_CTRL_PSEG1 (u32 (phase_seg1 bt - 1))))
         (FLEXCAN_CTRL_PSEG2 (u32 (phase_seg2 bt - 1))))
         (FLEXCAN_CTRL_RJW (u32 (sjw bt - 1))))
         (FLEXCAN_CTRL_PROPSEG (u32 (prop_seg bt - 1)))) in
  let reg :=
    if tst (ctrlmode p) CAN_CTRLMODE_LOOPBACK
    then Z.lor reg FLEXCAN_CTRL_LPB else reg in
  let reg :=
    if tst (ctrlmode p) CAN_CTRLMODE_LISTENONLY
    then Z.lor reg FLEXCAN_CTRL_LOM else reg in
  let reg :=
    if tst (ctrlmode p) CAN_CTRLMODE_3_SAMPLES
    then Z.lor reg FLEXCAN_CTRL_SMP else reg in
  emit (EvLog (MsgWritingCtrl reg)) ;;
  flexcan_write reg CTRL.

(** *** Start and stop *)

(** One round of the loop that parks every message buffer. *)
Definition reset_mailbox (i : nat) : M unit :=
  flexcan_write 0 (MB_CTRL i) ;;
  flexcan_write 0 (MB_ID i) ;;
  flexcan_write 0 (MB_DATA0 i) ;;
  flexcan_write 0 (MB_DATA1 i) ;;
  (* put MB into rx queue *)
  flexcan_write (FLEXCAN_MB_CNT_CODE 0x4) (MB_CTRL i).

Fixpoint for_each (l : list nat) (body : nat -> M unit) : M unit :=
  match l with
  | [] => ret tt
  | i :: l => body i ;; for_each l body
  end.

(** [ARRAY_SIZE(regs->cantxfg)]. *)
Definition CANTXFG_SIZE : nat := 64.

Definition out_chip_disable (err : Z) : M Z :=
  _ <- flexcan_chip_disable ;;
  ret err.

Definition out_transceiver_disable (err : Z) : M Z :=
  _ <- flexcan_transceiver_disable ;;
  out_chip_disable err.

Definition flexcan_chip_start : M Z :=
  (* enable module *)
  err <- flexcan_chip_enable ;;
  if negb (err =? 0) then ret err
  else
    (* soft reset *)
    err <- flexcan_chip_softreset ;;
    if negb (err =? 0) then out_chip_disable err
    else
      flexcan_set_bittiming ;;
      reg_mcr <- flexcan_read MCR ;;
      let reg_mcr := clr reg_mcr (FLEXCAN_MCR_MAXMB 0xff) in
      let reg_mcr :=
        Z.lor reg_mcr
          (Z.lor (Z.lor (Z.lor (Z.lor (Z.lor (Z.lor (Z.lor (Z.lor (Z.lor
             FLEXCAN_MCR_FRZ FLEXCAN_MCR_FEN) FLEXCAN_MCR_HALT)
             FLEXCAN_MCR_SUPV) FLEXCAN_MCR_WRN_EN)
             FLEXCAN_MCR_IDAM_C) FLEXCAN_MCR_SRX_DIS)
             FLEXCAN_MCR_WAK_MSK) FLEXCAN_MCR_SLF_WAK)
             (FLEXCAN_MCR_MAXMB (Z.of_nat FLEXCAN_TX_BUF_ID))) in
      flexcan_write reg_mcr MCR ;;
      reg_ctrl <- flexcan_read CTRL ;;
      let reg_ctrl := clr reg_ctrl FLEXCAN_CTRL_TSYN in
      let reg_ctrl :=
        Z.lor reg_ctrl
          (Z.lor (Z.lor FLEXCAN_CTRL_BOFF_REC FLEXCAN_CTRL_LBUF)
                 FLEXCAN_CTRL_ERR_STATE) in
      p <- get_priv ;;
      let reg_ctrl :=
        if tst (features p) FLEXCAN_HAS_BROKEN_ERR_STATE
           || tst (ctrlmode p) CAN_CTRLMODE_BERR_REPORTING
        then Z.lor reg_ctrl FLEXCAN_CTRL_ERR_MSK else reg_ctrl in
      (* save for later use *)
      modify_priv (set_reg_ctrl_default reg_ctrl) ;;
      flexcan_write reg_ctrl CTRL ;;
      for_each (seq 0 CANTXFG_SIZE) reset_mailbox ;;
      (* acceptance mask/acceptance code (accept everything) *)
      flexcan_write 0x0 RXGMASK ;;
      flexcan_write 0x0 RX14MASK ;;
      flexcan_write 0x0 RX15MASK ;;
      (if tst (features p) FLEXCAN_HAS_V10_FEATURES
       then flexcan_write 0x0 RXFGMASK else ret tt) ;;
      err <- flexcan_transceiver_enable ;;
      if negb (err =? 0) then out_chip_disable err
      else
        (* synchronize with the can bus *)
        err <- flexcan_chip_unfreeze ;;
        if negb (err =? 0) then out_transceiver_disable err
        else
          modify_priv (set_state CAN_STATE_ERROR_ACTIVE) ;;
          (* enable FIFO interrupts *)
          flexcan_write FLEXCAN_IFLAG_DEFAULT IMASK1 ;;
          ret 0.

Definition flexcan_chip_stop : M unit :=
  (* freeze + disable module *)
  _ <- flexcan_chip_freeze ;;
  _ <- flexcan_chip_disable ;;
  (* Disable all interrupts *)
  flexcan_write 0 IMASK1 ;;
  p <- get_priv ;;
  flexcan_write (clr (reg_ctrl_default p) FLEXCAN_CTRL_ERR_ALL) CTRL ;;
  _ <- flexcan_transceiver_disable ;;
  modify_priv (set_state CAN_STATE_STOPPED).

End Driver.

(** ** Observations on a run *)

(** The calls made between two worlds of the same run. *)
Definition new_events (w w' : world) : list event :=
  drop (length (trace w)) (trace w').

Definition count_events (f : event -> bool) (tr : list event) : nat :=
  length (List.filter f tr).

(** Link-down signals: calls of [can_bus_off]. *)
Definition link_down_signals (tr : list event) : nat :=
  count_events (fun e => match e with EvCanBusOff => true | _ => false end) tr.

(** Frames handed to the upstream sink, in order. *)
Definition delivered_frames (tr : list event) : list can_frame :=
  omap (fun e => match e with EvNetifReceiveSkb cf => Some cf | _ => None end) tr.

(** Messages written to the kernel log, in order. *)
Definition logged (tr : list event) : list log_msg :=
  omap (fun e => match e with EvLog m => Some m | _ => None end) tr.

(** Sleeps of the freeze poll. *)
Definition freeze_sleeps (tr : list event) : nat :=
  count_events (fun e => match e with EvUsleepRange _ _ => true | _ => false end) tr.

(** Whether the transceiver is powered after the calls of [tr], when it
    was [on] before: a regulator that refuses to switch on leaves it as
    it was. *)
Definition xceiver_step (on : bool) (e : event) : bool :=
  match e with
  | EvTransceiverSwitch b => b
  | EvRegulatorEnable r => if r =? 0 then true else on
  | EvRegulatorDisable => false
  | _ => on
  end.

Definition xceiver_after (tr : list event) (on : bool) : bool :=
  fold_left xceiver_step tr on.

Definition is_xceiver_event (e : event) : bool :=
  match e with
  | EvTransceiverSwitch _ | EvRegulatorEnable _ | EvRegulatorDisable => true
  | _ => false
  end.

(** ** The specification's tables and field readings *)

(** The 2-bit fault-confinement field and the two warning flags of the
    status register. *)
Definition esr_flt_conf (reg_esr : Z) : Z :=
  Z.land (Z.shiftr reg_esr FLEXCAN_EST_FLT_CONF_SHIFT) 0x3.
Definition esr_tx_wrn (reg_esr : Z) : bool := Z.testbit reg_esr 9.
Definition esr_rx_wrn (reg_esr : Z) : bool := Z.testbit reg_esr 8.

(** A status word with the given fault field and warning flags. *)
Definition esr_of_fields (flt : Z) (tx_wrn rx_wrn : bool) : Z :=
  Z.lor (Z.shiftl flt 4) (Z.lor (Z.shiftl (Z.b2z tx_wrn) 9)
                                (Z.shiftl (Z.b2z rx_wrn) 8)).

(** The derivation table as the specification words it: fault field
    "active" (0) with no warning flag is ERROR_ACTIVE, with a warning
    flag ERROR_WARNING; "passive" (1) is ERROR_PASSIVE; anything else
    is BUS_OFF. *)
Definition spec_state_table (flt : Z) (tx_wrn rx_wrn : bool) : can_state :=
  if flt =? 0 then
    if tx_wrn || rx_wrn then CAN_STATE_ERROR_WARNING
    else CAN_STATE_ERROR_ACTIVE
  else if flt =? 1 then CAN_STATE_ERROR_PASSIVE
  else CAN_STATE_BUS_OFF.


(** The bit-timing fields of the control register, by position. *)
Definition ctrl_presdiv (reg : Z) : Z := Z.land (Z.shiftr reg 24) 0xff.
Definition ctrl_rjw (reg : Z) : Z := Z.land (Z.shiftr reg 22) 0x3.
Definition ctrl_pseg1 (reg : Z) : Z := Z.land (Z.shiftr reg 19) 0x7.
Definition ctrl_pseg2 (reg : Z) : Z := Z.land (Z.shiftr reg 16) 0x7.
Definition ctrl_propseg (reg : Z) : Z := Z.land reg 0x7.

(** The queue limit as the specification words it: four times the
    polling weight rounded up to a power of two. *)
Definition roundup_pow_of_two (n : Z) : Z := 2 ^ Z.log2_up n.
Definition spec_queue_len_max (weight : Z) : Z := 4 * roundup_pow_of_two weight.


(** The word [flexcan_set_bittiming] writes, as a function of the word
    it read, the five values it encodes and the three mode flags. *)
Definition bittiming_word (reg0 x1 x2 x3 x4 x5 : Z) (lpb lom smp : bool) : Z :=
  let reg :=
    clr reg0
      (Z.lor (Z.lor (Z.lor (Z.lor (Z.lor (Z.lor (Z.lor
         (FLEXCAN_CTRL_PRESDIV 0xff)
         (FLEXCAN_CTRL_RJW 0x3))
         (FLEXCAN_CTRL_PSEG1 0x7))
         (FLEXCAN_CTRL_PSEG2 0x7))
         (FLEXCAN_CTRL_PROPSEG 0x7))
         FLEXCAN_CTRL_LPB)
         FLEXCAN_CTRL_SMP)
         FLEXCAN_CTRL_LOM) in
  let reg :=
    Z.lor reg
      (Z.lor (Z.lor (Z.lor (Z.lor
         (FLEXCAN_CTRL_PRESDIV x1)
         (FLEXCAN_CTRL_PSEG1 x2))
         (FLEXCAN_CTRL_PSEG2 x3))
         (FLEXCAN_CTRL_RJW x4))
         (FLEXCAN_CTRL_PROPSEG x5)) in
  let reg := if lpb then Z.lor reg FLEXCAN_CTRL_LPB else reg in
  let reg := if lom then Z.lor reg FLEXCAN_CTRL_LOM else reg in
  let reg := if smp then Z.lor reg FLEXCAN_CTRL_SMP else reg in
  reg.

(** The bits of a mailbox control word that describe the frame:
    extended-format flag, remote-request flag and the length field. *)
Definition mb_frame_bits : Z :=
  Z.lor (Z.lor FLEXCAN_MB_CNT_IDE FLEXCAN_MB_CNT_RTR) (Z.shiftl 0xf 16).

(** The control word written for an extended data frame of eight bytes. *)
Definition xmit_ctrl_eff8 : Z :=
  Z.lor (Z.lor (FLEXCAN_MB_CNT_CODE 0xc) (Z.shiftl 8 16))
        (Z.lor FLEXCAN_MB_CNT_IDE FLEXCAN_MB_CNT_SRR).

(** A device in loopback: the frame in the transmit mailbox shows up in
    the receive FIFO window (the device may change the code and the
    time stamp of the control word, not the frame bits). *)
Definition loopback (env : environment) : Prop :=
  forall n f,
    tst (u32 (hw_read env n IFLAG1 f)) FLEXCAN_IFLAG_RX_FIFO_AVAILABLE = true /\
    Z.land (hw_read env n (MB_CTRL 0) f) mb_frame_bits =
      Z.land (f (MB_CTRL FLEXCAN_TX_BUF_ID)) mb_frame_bits /\
    hw_read env n (MB_ID 0) f = f (MB_ID FLEXCAN_TX_BUF_ID) /\
    hw_read env n (MB_DATA0 0) f = f (MB_DATA0 FLEXCAN_TX_BUF_ID) /\
    hw_read env n (MB_DATA1 0) f = f (MB_DATA1 FLEXCAN_TX_BUF_ID).





(** ** Devices and worlds used in the examples *)

(** A device whose every register reads [v]; allocations succeed when
    [mem] holds; the regulator answers [reg_ret]. *)
Definition const_env (v : Z) (mem : bool) (reg_ret : Z) : environment :=
  mk_env (fun _ _ _ => v) (fun _ => mem) reg_ret 0.

Definition bt_125k : can_bittiming := mk_can_bittiming 125000 2 3 2 1 4.

Definition priv0 (st : can_state) : flexcan_priv :=
  mk_priv st 0 bt_125k (mk_stats 0 0 0 0 0 0 0 0 0) (mk_offload [] 128)
          0 0 false true.

Definition world0 (st : can_state) : world :=
  mk_world (priv0 st) (fun _ => 0) 0 [].

(** A device that answers at once: registers read back what was
    written, the soft-reset bit clears itself, the freeze acknowledge
    follows the halt bit and the low-power acknowledge the
    module-disable bit. *)
Definition responsive_env : environment :=
  mk_env (fun _ r f =>
            match r with
            | MCR =>
                let v := clr (clr (clr (f MCR) FLEXCAN_MCR_SOFTRST)
                                  FLEXCAN_MCR_FRZ_ACK) FLEXCAN_MCR_LPM_ACK in
                let v := if tst (f MCR) FLEXCAN_MCR_HALT
                         then Z.lor v FLEXCAN_MCR_FRZ_ACK else v in
                if tst (f MCR) FLEXCAN_MCR_MDIS
                then Z.lor v FLEXCAN_MCR_LPM_ACK else v
            | _ => f r
            end)
         (fun _ => true) 0 0.

(** A device in loopback whose FIFO always has a frame. *)
Definition loopback_env : environment :=
  mk_env (fun _ r f =>
            match r with
            | IFLAG1 => FLEXCAN_IFLAG_RX_FIFO_AVAILABLE
            | MB_CTRL O => f (MB_CTRL FLEXCAN_TX_BUF_ID)
            | MB_ID O => f (MB_ID FLEXCAN_TX_BUF_ID)
            | MB_DATA0 O => f (MB_DATA0 FLEXCAN_TX_BUF_ID)
            | MB_DATA1 O => f (MB_DATA1 FLEXCAN_TX_BUF_ID)
            | _ => 0
            end)
         (fun _ => true) 0 0.

(** An extended-format data frame with eight bytes. *)
Definition frame_eff8 : can_frame :=
  mk_can_frame (Z.lor CAN_EFF_FLAG 0x12345678) 8 [1; 2; 3; 4; 5; 6; 7; 255].


(** A world with the given bit timing. *)
Definition world_bt (bt : can_bittiming) : world :=
  mk_world (mk_priv CAN_STATE_STOPPED 0 bt (mk_stats 0 0 0 0 0 0 0 0 0)
                    (mk_offload [] 128) 0 0 false true)
           (fun _ => 0) 0 [].

(** A queue of [n] copies of one frame under the driver's limit. *)
Definition world_queue (n : nat) : world :=
  mk_world (mk_priv CAN_STATE_ERROR_ACTIVE 0 bt_125k (mk_stats 0 0 0 0 0 0 0 0 0)
                    (mk_offload (replicate n frame_eff8) 128) 0 0 false true)
           (fun _ => 0) 0 [].

(** ** Observations used by the run lemmas *)

(** Microseconds spent in [udelay]. *)
Definition busy_wait_us (tr : list event) : Z :=
  foldr (fun e acc => match e with EvUdelay us => us + acc | _ => acc end) 0 tr.

(** Accesses to the module-control register and pauses, nothing else. *)
Definition is_mcr_poll (e : event) : bool :=
  match e with
  | EvRead MCR _ | EvWrite MCR _ | EvUdelay _ | EvUsleepRange _ _ => true
  | _ => false
  end.

(** Reads and writes of a device register. *)
Definition is_reg_read (e : event) : bool :=
  match e with EvRead _ _ => true | _ => false end.

Definition is_reg_write (e : event) : bool :=
  match e with EvWrite _ _ => true | _ => false end.

(** What the four short waits of the chip-control routines have in
    common: the verdict is that of one last read of the module-control
    register, made after at most 100 microseconds of busy waiting, at
    most seven reads in all and one write. *)
Definition bounded_wait (timed_out : Z -> bool) (m : M Z) (w : world) : Prop :=
  let w' := after m w in
  exists l v,
    trace w' = trace w ++ l ++ [EvRead MCR v] /\
    result m w = (if timed_out v then - ETIMEDOUT else 0) /\
    forallb is_mcr_poll l = true /\
    0 <= busy_wait_us l <= 100 /\
    priv w' = priv w /\
    (clock w' <= clock w + 7)%nat /\
    (forall r, r <> MCR -> regs w' r = regs w r) /\
    (count_events is_reg_read (l ++ [EvRead MCR v]) <= 7)%nat /\
    count_events is_reg_write l = 1%nat.

(** Calls that do not switch the transceiver. *)
Definition quiet (l : list event) : bool :=
  forallb (fun e => negb (is_xceiver_event e)) l.

(** The register block after the loop of [flexcan_chip_start] has parked
    the message buffers [a], ..., [a + n - 1]. *)
Definition parked (a n : nat) (f : reg_addr -> Z) : reg_addr -> Z :=
  fun r =>
    let inside i := ((a <=? i) && (i <? a + n))%nat in
    match r with
    | MB_CTRL i => if inside i then FLEXCAN_MB_CNT_CODE 0x4 else f r
    | MB_ID i | MB_DATA0 i | MB_DATA1 i => if inside i then 0 else f r
    | _ => f r
    end.

(** The identifier as the controller can carry it: the bits outside the
    mask of its format are dropped, the format and remote-request flags
    are kept. *)
Definition canonical_id (id : Z) : Z :=
  Z.lor (if tst id CAN_EFF_FLAG
         then Z.lor (Z.land id CAN_EFF_MASK) CAN_EFF_FLAG
         else Z.land id CAN_SFF_MASK)
        (Z.land id CAN_RTR_FLAG).

(** A frame as the receive path may hand it on: a data frame (no error
    flag) with its identifier in canonical form, a length code of at
    most 8 and eight payload bytes. *)
Definition well_formed_rx (cf : can_frame) : Prop :=
  can_id cf = canonical_id (can_id cf) /\
  tst (can_id cf) CAN_ERR_FLAG = false /\
  0 <= can_dlc cf <= 8 /\
  length (data cf) = 8%nat /\
  Forall (fun b => 0 <= b < 256) (data cf).

(** A standard-format frame with a short payload. *)
Definition frame_sff2 : can_frame :=
  mk_can_frame 0x123 2 [0xAA; 0xBB; 0; 0; 0; 0; 0; 0].

(** Register accesses, as opposed to calls into the kernel. *)
Definition is_reg_access (e : event) : bool :=
  match e with EvRead _ _ | EvWrite _ _ => true | _ => false end.

(** Calls of [napi_schedule] on the receive queue's context. *)
Definition napi_schedules (tr : list event) : nat :=
  count_events (fun e => match e with EvNapiSchedule => true | _ => false end) tr.

(** Sum of the length codes of a list of frames. *)
Definition total_dlc (l : list can_frame) : Z :=
  foldr (fun cf acc => can_dlc cf + acc) 0 l.

(** Calls of [netif_wake_queue]. *)
Definition wake_queue_calls (tr : list event) : nat :=
  count_events (fun e => match e with EvNetifWakeQueue => true | _ => false end) tr.

(** The flag of the transmit mailbox in the interrupt-flag register. *)
Definition tx_buf_flag : Z := Z.shiftl 1 (Z.of_nat FLEXCAN_TX_BUF_ID).

(** The part of [flexcan_napi_irq] after the drain, as the list of calls
    it makes for the flag word and status word read at entry. *)
Definition irq_tail_events (reg_iflag1 reg_esr : Z) : list event :=
  (if tst reg_iflag1 FLEXCAN_IFLAG_RX_FIFO_OVERFLOW
   then [EvWrite IFLAG1 FLEXCAN_IFLAG_RX_FIFO_OVERFLOW] else []) ++
  (if tst reg_iflag1 tx_buf_flag
   then [EvLedTx; EvWrite IFLAG1 tx_buf_flag; EvNetifWakeQueue] else []) ++
  (if tst reg_esr FLEXCAN_ESR_ALL_INT
   then [EvWrite ESR (Z.land reg_esr FLEXCAN_ESR_ALL_INT)] else []) ++
  (if tst reg_esr FLEXCAN_ESR_ERR_STATE then [EvLog (MsgErrState reg_esr)] else []) ++
  (if tst reg_esr FLEXCAN_ESR_ERR_BUS then [EvLog (MsgErrBus reg_esr)] else []).

(** ** The rest of the driver file *)

(** Modelled from the spec: the errno values ([errno-base.h], [errno.h]),
    [enum can_mode] ([linux/can/netlink.h]) and the bus-error classes of
    [linux/can/error.h] are not in the driver file; the values are those
    of the kernel's user-space ABI. *)

Definition ENODEV : Z := 19.
Definition EOPNOTSUPP : Z := 95.

Inductive can_mode := CAN_MODE_STOP | CAN_MODE_START | CAN_MODE_SLEEP.

Definition CAN_ERR_ACK : Z := 0x00000020.
Definition CAN_ERR_BUSERROR : Z := 0x00000080.
Definition CAN_ERR_PROT_BIT : Z := 0x01.
Definition CAN_ERR_PROT_FORM : Z := 0x02.
Definition CAN_ERR_PROT_STUFF : Z := 0x04.
Definition CAN_ERR_PROT_BIT0 : Z := 0x08.
Definition CAN_ERR_PROT_BIT1 : Z := 0x10.
Definition CAN_ERR_PROT_LOC_CRC_SEQ : Z := 0x08.
Definition CAN_ERR_PROT_LOC_ACK : Z := 0x19.

(** [cf->data[i] |= v]. *)
Definition or_data (i : nat) (v : Z) (cf : can_frame) : can_frame :=
  set_data i (Z.lor (data cf !!! i) v) cf.

(** *** The receive path of the build without [IRQ_CAN_RX] *)

(** [flexcan_read_fifo], [flexcan_read_frame], [flexcan_poll] and
    [flexcan_irq] are the receive path the file compiles when
    [IRQ_CAN_RX] is not defined; [flexcan_poll] is the caller of
    [flexcan_poll_state] and [flexcan_poll_bus_err]. *)

Definition flexcan_has_and_handle_berr (p : flexcan_priv) (reg_esr : Z) : bool :=
  tst (ctrlmode p) CAN_CTRLMODE_BERR_REPORTING && tst reg_esr FLEXCAN_ESR_ERR_BUS.

Section LegacyReceive.

Variable env : environment.

Definition flexcan_read_fifo (cf : can_frame) : M can_frame :=
  reg_ctrl <- flexcan_read env (MB_CTRL 0) ;;
  reg_id <- flexcan_read env (MB_ID 0) ;;
  let cf :=
    if tst reg_ctrl FLEXCAN_MB_CNT_IDE
    then set_can_id (Z.lor (Z.land (Z.shiftr reg_id 0) CAN_EFF_MASK) CAN_EFF_FLAG) cf
    else set_can_id (Z.land (Z.shiftr reg_id 18) CAN_SFF_MASK) cf in
  let cf :=
    if tst reg_ctrl FLEXCAN_MB_CNT_RTR
    then set_can_id (Z.lor (can_id cf) CAN_RTR_FLAG) cf
    else cf in
  let cf := set_can_dlc (get_can_dlc (Z.land (Z.shiftr reg_ctrl 16) 0xf)) cf in
  d0 <- flexcan_read env (MB_DATA0 0) ;;
  let cf := store_be32 0 d0 cf in
  d1 <- flexcan_read env (MB_DATA1 0) ;;
  let cf := store_be32 4 d1 cf in
  (* mark as read *)
  flexcan_write FLEXCAN_IFLAG_RX_FIFO_AVAILABLE IFLAG1 ;;
  _ <- flexcan_read env TIMER ;;
  ret cf.

Definition flexcan_read_frame : M Z :=
  skb <- alloc_can_skb env ;;
  match skb with
  | None => modify_stats inc_rx_dropped ;; ret 0
  | Some cf =>
      cf <- flexcan_read_fifo cf ;;
      emit (EvNetifReceiveSkb cf) ;;
      modify_stats inc_rx_packets ;;
      modify_stats (add_rx_bytes (can_dlc cf)) ;;
      emit EvLedRx ;;
      ret 1
  end.

(** The [while] loop of [flexcan_poll] over the receive FIFO; [None]
    when [fuel] rounds were not enough to leave it. *)
Fixpoint poll_fifo_loop (fuel : nat) (quota reg_iflag1 work_done : Z)
  : M (option Z) :=
  if tst reg_iflag1 FLEXCAN_IFLAG_RX_FIFO_AVAILABLE && (work_done <? quota) then
    match fuel with
    | O => ret None
    | S fuel =>
        n <- flexcan_read_frame ;;
        reg_iflag1 <- flexcan_read env IFLAG1 ;;
        poll_fifo_loop fuel quota reg_iflag1 (work_done + n)
    end
  else ret (Some work_done).

End LegacyReceive.

(** *** The device beyond the data path *)

Inductive clk := clk_ipg | clk_per.

(** [&priv->napi] and [&priv->offload.napi]. *)
Inductive napi_ctx := napi_priv | napi_offload.

(** The interrupt handler passed to [request_irq]. *)
Inductive irq_handler := handler_flexcan_irq | handler_flexcan_napi_irq.

Inductive berr_msg :=
| MsgBit1Err | MsgBit0Err | MsgAckErr | MsgCrcErr | MsgFrmErr | MsgStfErr.

(** Calls into the kernel made by the life-cycle code. *)
Inductive kcall :=
| KClkPrepareEnable (c : clk) (ret : Z)
| KClkDisableUnprepare (c : clk)
| KOpenCandev (ret : Z)
| KCloseCandev
| KRequestIrq (h : irq_handler) (ret : Z)
| KFreeIrq
| KRegisterCandev (ret : Z)
| KLedOpen
| KLedStop
| KNapiEnable (n : napi_ctx)
| KNapiDisable (n : napi_ctx)
| KNapiSchedule (n : napi_ctx)
| KNapiComplete (n : napi_ctx)
| KNetifStartQueue
| KNetifDeviceDetach
| KNetifDeviceAttach
| KEnableIrqWake
| KDisableIrqWake
| KRegmapUpdateBits (reg mask val : Z)
| KPrintk (m : berr_msg)
| KNetdevErrUnsupportedCore.

(** One log for everything that leaves the driver: the calls of the
    sections above and the calls of the life-cycle code, in program
    order. *)
Inductive kevent :=
| Drv (e : event)
| Krn (c : kcall).

(** [struct flexcan_stop_mode] without the regmap handle. *)
Record flexcan_stop_mode := mk_stm {
  req_gpr : Z;
  req_bit : Z;
  ack_gpr : Z;
  ack_bit : Z
}.

(** The driver's world together with the fields of [struct flexcan_priv]
    and of the [net_device] that only the code below touches, the
    register block behind [priv->stm.gpr], and the log. *)
Record device := mk_device {
  drv : world;
  priv_reg_esr : Z;
  bus_error : Z;
  tx_errors : Z;
  stm : flexcan_stop_mode;
  gpr : Z -> Z;
  klog : list kevent
}.

(** What the kernel answers to the life-cycle code. *)
Record kernel := mk_kernel {
  clk_prepare_enable_ret : clk -> Z;
  open_candev_ret : Z;
  request_irq_ret : Z;
  register_candev_ret : Z;
  netif_running : bool;
  device_may_wakeup : bool
}.

Definition K (A : Type) : Type := device -> A * device.

Definition kret {A} (a : A) : K A := fun d => (a, d).

Definition kbind {A B} (m : K A) (k : A -> K B) : K B :=
  fun d => match m d with (a, d') => k a d' end.

Declare Scope kdrv_scope.
Delimit Scope kdrv_scope with kdrv.
Notation "x <- m ;; k" := (kbind m (fun x => k))
  (at level 100, m at next level, right associativity) : kdrv_scope.
Notation "m ;; k" := (kbind m (fun _ => k))
  (at level 100, right associativity) : kdrv_scope.

Definition kresult {A} (m : K A) (d : device) : A := fst (m d).
Definition kafter {A} (m : K A) (d : device) : device := snd (m d).

(** Run a function of the sections above on the driver's world and copy
    the calls it made into the log. *)
Definition lift {A} (m : M A) : K A :=
  fun d =>
    match m (drv d) with
    | (a, w) =>
        (a, mk_device w (priv_reg_esr d) (bus_error d) (tx_errors d) (stm d) (gpr d)
                      (klog d ++ map Drv (new_events (drv d) w)))
    end.

Definition kcall_ (c : kcall) : K unit :=
  fun d => (tt, mk_device (drv d) (priv_reg_esr d) (bus_error d) (tx_errors d)
                          (stm d) (gpr d) (klog d ++ [Krn c])).

Definition kget : K device := fun d => (d, d).

Definition set_priv_reg_esr (v : Z) : K unit :=
  fun d => (tt, mk_device (drv d) v (bus_error d) (tx_errors d) (stm d) (gpr d)
                          (klog d)).

Definition inc_bus_error : K unit :=
  fun d => (tt, mk_device (drv d) (priv_reg_esr d) (u32 (bus_error d + 1))
                          (tx_errors d) (stm d) (gpr d) (klog d)).

Definition inc_tx_errors : K unit :=
  fun d => (tt, mk_device (drv d) (priv_reg_esr d) (bus_error d)
                          (ulong (tx_errors d + 1)) (stm d) (gpr d) (klog d)).

(** Modelled from the spec: [regmap_update_bits] ([drivers/base/regmap])
    is not in the driver file; it replaces the bits of [mask] in the
    register by those of [val]. *)
Definition regmap_update_bits (reg mask val : Z) : K unit :=
  fun d =>
    let v := Z.lor (Z.land (gpr d reg) (Z.lnot mask)) (Z.land val mask) in
    (tt, mk_device (drv d) (priv_reg_esr d) (bus_error d) (tx_errors d) (stm d)
                   (fun r => if r =? reg then v else gpr d r)
                   (klog d ++ [Krn (KRegmapUpdateBits reg mask val)])).

Local Open Scope kdrv_scope.

Section Lifecycle.

Variable env : environment.
Variable krn : kernel.

(** *** Stop mode *)

Definition flexcan_enter_stop_mode : K unit :=
  d <- kget ;;
  (* enable stop request *)
  if tst (features (priv (drv d))) FLEXCAN_HAS_V10_FEATURES
  then regmap_update_bits (req_gpr (stm d)) (u32 (Z.shiftl 1 (req_bit (stm d))))
                          (u32 (Z.shiftl 1 (req_bit (stm d))))
  else kret tt.

Definition flexcan_exit_stop_mode : K unit :=
  d <- kget ;;
  (* remove stop request *)
  if tst (features (priv (drv d))) FLEXCAN_HAS_V10_FEATURES
  then regmap_update_bits (req_gpr (stm d)) (u32 (Z.shiftl 1 (req_bit (stm d)))) 0
  else kret tt.

(** *** Bus-error reporting *)

(** The locals [rx_errors] and [tx_errors] travel with the frame. *)
Definition do_bus_err (cf : can_frame) (reg_esr : Z) : K can_frame :=
  let rx_errors := 0 in
  let tx_errors := 0 in
  let cf := set_can_id (Z.lor (can_id cf) (Z.lor CAN_ERR_PROT CAN_ERR_BUSERROR)) cf in
  s <- (if tst reg_esr FLEXCAN_ESR_BIT1_ERR then
          kcall_ (KPrintk MsgBit1Err) ;;
          kret (or_data 2 CAN_ERR_PROT_BIT1 cf, rx_errors, 1)
        else kret (cf, rx_errors, tx_errors)) ;;
  let '(cf, rx_errors, tx_errors) := s in
  s <- (if tst reg_esr FLEXCAN_ESR_BIT0_ERR then
          kcall_ (KPrintk MsgBit0Err) ;;
          kret (or_data 2 CAN_ERR_PROT_BIT0 cf, rx_errors, 1)
        else kret (cf, rx_errors, tx_errors)) ;;
  let '(cf, rx_errors, tx_errors) := s in
  s <- (if tst reg_esr FLEXCAN_ESR_ACK_ERR then
          kcall_ (KPrintk MsgAckErr) ;;
          kret (or_data 3 CAN_ERR_PROT_LOC_ACK
                  (set_can_id (Z.lor (can_id cf) CAN_ERR_ACK) cf),
                rx_errors, 1)
        else kret (cf, rx_errors, tx_errors)) ;;
  let '(cf, rx_errors, tx_errors) := s in
  s <- (if tst reg_esr FLEXCAN_ESR_CRC_ERR then
          kcall_ (KPrintk MsgCrcErr) ;;
          kret (or_data 3 CAN_ERR_PROT_LOC_CRC_SEQ (or_data 2 CAN_ERR_PROT_BIT cf),
                1, tx_errors)
        else kret (cf, rx_errors, tx_errors)) ;;
  let '(cf, rx_errors, tx_errors) := s in
  s <- (if tst reg_esr FLEXCAN_ESR_FRM_ERR then
          kcall_ (KPrintk MsgFrmErr) ;;
          kret (or_data 2 CAN_ERR_PROT_FORM cf, 1, tx_errors)
        else kret (cf, rx_errors, tx_errors)) ;;
  let '(cf, rx_errors, tx_errors) := s in
  s <- (if tst reg_esr FLEXCAN_ESR_STF_ERR then
          kcall_ (KPrintk MsgStfErr) ;;
          kret (or_data 2 CAN_ERR_PROT_STUFF cf, 1, tx_errors)
        else kret (cf, rx_errors, tx_errors)) ;;
  let '(cf, rx_errors, tx_errors) := s in
  inc_bus_error ;;
  (if negb (rx_errors =? 0) then lift (modify_stats inc_rx_errors) else kret tt) ;;
  (if negb (tx_errors =? 0) then inc_tx_errors else kret tt) ;;
  kret cf.

Definition flexcan_poll_bus_err (reg_esr : Z) : K Z :=
  skb <- lift (alloc_can_err_skb env) ;;
  match skb with
  | None => kret 0
  | Some cf =>
      cf <- do_bus_err cf reg_esr ;;
      lift (emit (EvNetifReceiveSkb cf)) ;;
      lift (modify_stats inc_rx_packets) ;;
      lift (modify_stats (add_rx_bytes (can_dlc cf))) ;;
      kret 1
  end.

(** *** Poll and interrupt handler of the build without [IRQ_CAN_RX] *)

Definition flexcan_poll (fuel : nat) (quota : Z) : K (option Z) :=
  let work_done := 0 in
  (* The error bits are cleared on read, use saved value from irq handler. *)
  r <- lift (flexcan_read env ESR) ;;
  d <- kget ;;
  let reg_esr := Z.lor r (priv_reg_esr d) in
  (* handle state changes *)
  n <- lift (flexcan_poll_state env reg_esr) ;;
  let work_done := work_done + n in
  (* handle RX-FIFO *)
  reg_iflag1 <- lift (flexcan_read env IFLAG1) ;;
  r <- lift (poll_fifo_loop env fuel quota reg_iflag1 work_done) ;;
  match r with
  | None => kret None
  | Some work_done =>
      p <- lift get_priv ;;
      (* report bus errors *)
      work_done <- (if flexcan_has_and_handle_berr p reg_esr && (work_done <? quota)
                    then n <- flexcan_poll_bus_err reg_esr ;; kret (work_done + n)
                    else kret work_done) ;;
      (if work_done <? quota then
         kcall_ (KNapiComplete napi_priv) ;;
         (* enable IRQs *)
         lift (flexcan_write FLEXCAN_IFLAG_DEFAULT IMASK1) ;;
         p <- lift get_priv ;;
         lift (flexcan_write (reg_ctrl_default p) CTRL)
       else kret tt) ;;
      kret (Some work_done)
  end.

Definition flexcan_irq : K irqreturn_t :=
  reg_iflag1 <- lift (flexcan_read env IFLAG1) ;;
  reg_esr <- lift (flexcan_read env ESR) ;;
  (* ACK all bus error and state change IRQ sources *)
  (if tst reg_esr FLEXCAN_ESR_ALL_INT
   then lift (flexcan_write (Z.land reg_esr FLEXCAN_ESR_ALL_INT) ESR)
   else kret tt) ;;
  (if tst reg_esr FLEXCAN_ESR_WAK_INT then flexcan_exit_stop_mode else kret tt) ;;
  p <- lift get_priv ;;
  (if tst reg_iflag1 FLEXCAN_IFLAG_RX_FIFO_AVAILABLE
      || tst reg_esr FLEXCAN_ESR_ERR_STATE
      || flexcan_has_and_handle_berr p reg_esr
   then
     (* The error bits are cleared on read, save them for later use. *)
     set_priv_reg_esr (Z.land reg_esr FLEXCAN_ESR_ERR_BUS) ;;
     lift (flexcan_write (clr FLEXCAN_IFLAG_DEFAULT FLEXCAN_IFLAG_RX_FIFO_AVAILABLE)
                         IMASK1) ;;
     lift (flexcan_write (clr (reg_ctrl_default p) FLEXCAN_CTRL_ERR_ALL) CTRL) ;;
     kcall_ (KNapiSchedule napi_priv)
   else kret tt) ;;
  (* FIFO overflow *)
  (if tst reg_iflag1 FLEXCAN_IFLAG_RX_FIFO_OVERFLOW then
     lift (flexcan_write FLEXCAN_IFLAG_RX_FIFO_OVERFLOW IFLAG1) ;;
     lift (modify_stats inc_rx_over_errors) ;;
     lift (modify_stats inc_rx_errors)
   else kret tt) ;;
  (* transmission complete interrupt *)
  (if tst reg_iflag1 (Z.shiftl 1 (Z.of_nat FLEXCAN_TX_BUF_ID)) then
     lift (modify_stats (add_tx_bytes (echo_skb_len env))) ;;
     lift (modify_stats inc_tx_packets) ;;
     lift (emit EvLedTx) ;;
     lift (flexcan_write (Z.shiftl 1 (Z.of_nat FLEXCAN_TX_BUF_ID)) IFLAG1) ;;
     lift (emit EvNetifWakeQueue)
   else kret tt) ;;
  kret IRQ_HANDLED.

(** *** Open, close, mode, registration *)

Definition can_rx_offload_enable : K unit := kcall_ (KNapiEnable napi_offload).

Definition clk_prepare_enable (c : clk) : K Z :=
  kcall_ (KClkPrepareEnable c (clk_prepare_enable_ret krn c)) ;;
  kret (clk_prepare_enable_ret krn c).

Definition clk_disable_unprepare (c : clk) : K unit :=
  kcall_ (KClkDisableUnprepare c).

Definition out_disable_ipg (err : Z) : K Z :=
  clk_disable_unprepare clk_ipg ;; kret err.

Definition out_disable_per (err : Z) : K Z :=
  clk_disable_unprepare clk_per ;; out_disable_ipg err.

Definition out_close (err : Z) : K Z :=
  kcall_ KCloseCandev ;; out_disable_per err.

Definition out_free_irq (err : Z) : K Z :=
  kcall_ KFreeIrq ;; out_close err.

Definition flexcan_open : K Z :=
  err <- clk_prepare_enable clk_ipg ;;
  if negb (err =? 0) then kret err
  else
    err <- clk_prepare_enable clk_per ;;
    if negb (err =? 0) then out_disable_ipg err
    else
      err <- (kcall_ (KOpenCandev (open_candev_ret krn)) ;;
              kret (open_candev_ret krn)) ;;
      if negb (err =? 0) then out_disable_per err
      else
        err <- (kcall_ (KRequestIrq handler_flexcan_napi_irq (request_irq_ret krn)) ;;
                kret (request_irq_ret krn)) ;;
        if negb (err =? 0) then out_close err
        else
          err <- lift (can_rx_offload_add_fifo FLEXCAN_NAPI_WEIGHT) ;;
          if negb (err =? 0) then out_free_irq err
          else
            (* start chip and queuing *)
            err <- lift (flexcan_chip_start env) ;;
            if negb (err =? 0) then out_free_irq err
            else
              kcall_ KLedOpen ;;
              can_rx_offload_enable ;;
              kcall_ KNetifStartQueue ;;
              kret 0.

Definition flexcan_close : K Z :=
  lift (emit EvNetifStopQueue) ;;
  kcall_ (KNapiDisable napi_priv) ;;
  lift (flexcan_chip_stop env) ;;
  kcall_ KFreeIrq ;;
  clk_disable_unprepare clk_per ;;
  clk_disable_unprepare clk_ipg ;;
  kcall_ KCloseCandev ;;
  kcall_ KLedStop ;;
  kret 0.

Definition flexcan_set_mode (mode : can_mode) : K Z :=
  match mode with
  | CAN_MODE_START =>
      err <- lift (flexcan_chip_start env) ;;
      if negb (err =? 0) then kret err
      else lift (emit EvNetifWakeQueue) ;; kret 0
  | _ => kret (- EOPNOTSUPP)
  end.

Definition reg_out_chip_disable (err : Z) : K Z :=
  _ <- lift (flexcan_chip_disable env) ;;
  out_disable_per err.

(** The source keeps [err] in a [u32] and returns it as [int]; the value
    that comes back is the one that went in. *)
Definition register_flexcandev : K Z :=
  err <- clk_prepare_enable clk_ipg ;;
  if negb (err =? 0) then kret err
  else
    err <- clk_prepare_enable clk_per ;;
    if negb (err =? 0) then out_disable_ipg err
    else
      (* select "bus clock", chip must be disabled *)
      err <- lift (flexcan_chip_disable env) ;;
      if negb (err =? 0) then out_disable_per err
      else
        reg <- lift (flexcan_read env CTRL) ;;
        lift (flexcan_write (Z.lor reg FLEXCAN_CTRL_CLK_SRC) CTRL) ;;
        err <- lift (flexcan_chip_enable env) ;;
        if negb (err =? 0) then reg_out_chip_disable err
        else
          (* set freeze, halt and activate FIFO, restrict register access *)
          reg <- lift (flexcan_read env MCR) ;;
          lift (flexcan_write
                  (Z.lor reg (Z.lor (Z.lor (Z.lor FLEXCAN_MCR_FRZ FLEXCAN_MCR_HALT)
                                           FLEXCAN_MCR_FEN) FLEXCAN_MCR_SUPV))
                  MCR) ;;
          reg <- lift (flexcan_read env MCR) ;;
          if negb (tst reg FLEXCAN_MCR_FEN) then
            kcall_ KNetdevErrUnsupportedCore ;;
            reg_out_chip_disable (- ENODEV)
          else
            err <- (kcall_ (KRegisterCandev (register_candev_ret krn)) ;;
                    kret (register_candev_ret krn)) ;;
            (* disable core and turn off clocks *)
            reg_out_chip_disable err.

(** *** Suspend and resume *)

Definition set_can_state (s : can_state) : K unit :=
  lift (modify_priv (set_state s)).

Definition flexcan_suspend : K Z :=
  let err := 0 in
  err <- (if netif_running krn then
            lift (emit EvNetifStopQueue) ;;
            kcall_ KNetifDeviceDetach ;;
            (* if wakeup is enabled, enter stop mode else enter disabled mode. *)
            if device_may_wakeup krn then
              kcall_ KEnableIrqWake ;;
              flexcan_enter_stop_mode ;;
              kret err
            else lift (flexcan_chip_disable env)
          else kret err) ;;
  set_can_state CAN_STATE_SLEEPING ;;
  kret err.

Definition flexcan_resume : K Z :=
  let err := 0 in
  set_can_state CAN_STATE_ERROR_ACTIVE ;;
  if netif_running krn then
    kcall_ KNetifDeviceAttach ;;
    kcall_ KNetifStartQueue ;;
    if device_may_wakeup krn then
      kcall_ KDisableIrqWake ;;
      flexcan_exit_stop_mode ;;
      kret err
    else lift (flexcan_chip_enable env)
  else kret err.

End Lifecycle.

Local Close Scope kdrv_scope.

(** *** Observations and examples for the life-cycle code *)

(** The calls of the kernel interface in a log, and the calls of the
    sections above. *)
Definition kcalls (l : list kevent) : list kcall :=
  omap (fun e => match e with Krn c => Some c | _ => None end) l.

Definition drv_events (l : list kevent) : list event :=
  omap (fun e => match e with Drv c => Some c | _ => None end) l.

(** The log since [d]. *)
Definition knew (d d' : device) : list kevent :=
  drop (length (klog d)) (klog d').

(** What the life-cycle code takes from the kernel and gives back. *)
Inductive resource := RClk (c : clk) | RCandev | RIrq | RNapi (n : napi_ctx).

(** The resource a call takes (a call that reports an error takes
    nothing) and the resource a call gives back. *)
Definition acquires (c : kcall) : option resource :=
  match c with
  | KClkPrepareEnable c r => if r =? 0 then Some (RClk c) else None
  | KOpenCandev r => if r =? 0 then Some RCandev else None
  | KRequestIrq _ r => if r =? 0 then Some RIrq else None
  | KNapiEnable n => Some (RNapi n)
  | _ => None
  end.

Definition releases (c : kcall) : option resource :=
  match c with
  | KClkDisableUnprepare c => Some (RClk c)
  | KCloseCandev => Some RCandev
  | KFreeIrq => Some RIrq
  | KNapiDisable n => Some (RNapi n)
  | _ => None
  end.

(** The resources taken and given back during a run, in order. *)
Definition taken (d d' : device) : list resource :=
  omap acquires (kcalls (knew d d')).

Definition given_back (d d' : device) : list resource :=
  omap releases (kcalls (knew d d')).

(** A device record around a world, with nothing saved, no stop request
    pending and an empty log; the stop request is bit 3 of register 16. *)
Definition device0 (w : world) : device :=
  mk_device w 0 0 0 (mk_stm 16 3 16 4) (fun _ => 0) [].

(** A kernel that grants everything; the interface is running when
    [running] holds and may wake the system when [wakeup] holds. *)
Definition kernel_ok (running wakeup : bool) : kernel :=
  mk_kernel (fun _ => 0) 0 0 0 running wakeup.

(** A core without receive FIFO: as [responsive_env], but the FIFO-enable
    bit of the module-control register never reads as set. *)
Definition no_fifo_env : environment :=
  mk_env (fun n r f =>
            match r with
            | MCR => clr (hw_read responsive_env n MCR f) FLEXCAN_MCR_FEN
            | _ => hw_read responsive_env n r f
            end)
         (fun _ => true) 0 0.

(** The two register updates of [register_flexcandev]: the clock source,
    and the FIFO enable with its read-back. *)
Definition register_select_clock (env : environment) : M unit :=
  reg <- flexcan_read env CTRL ;;
  flexcan_write (Z.lor reg FLEXCAN_CTRL_CLK_SRC) CTRL.

Definition register_probe_fifo (env : environment) : M Z :=
  reg <- flexcan_read env MCR ;;
  flexcan_write
    (Z.lor reg (Z.lor (Z.lor (Z.lor FLEXCAN_MCR_FRZ FLEXCAN_MCR_HALT)
                             FLEXCAN_MCR_FEN) FLEXCAN_MCR_SUPV))
    MCR ;;
  flexcan_read env MCR.

(** A stopped device of a core with the V10 features. *)
Definition world_v10 : world :=
  mk_world (mk_priv CAN_STATE_STOPPED 0 bt_125k (mk_stats 0 0 0 0 0 0 0 0 0)
                    (mk_offload [] 128) 0 FLEXCAN_HAS_V10_FEATURES false true)
           (fun _ => 0) 0 [].

(** Calls of [printk] in a log. *)
Definition printk_calls (l : list kevent) : list berr_msg :=
  omap (fun c => match c with KPrintk m => Some m | _ => None end) (kcalls l).

(** The messages [do_bus_err] prints for a status word, in order. *)
Definition berr_msgs (reg_esr : Z) : list berr_msg :=
  let flag_msg (b : bool) (m : berr_msg) := if b then [m] else [] in
  flag_msg (tst reg_esr FLEXCAN_ESR_BIT1_ERR) MsgBit1Err ++
  flag_msg (tst reg_esr FLEXCAN_ESR_BIT0_ERR) MsgBit0Err ++
  flag_msg (tst reg_esr FLEXCAN_ESR_ACK_ERR) MsgAckErr ++
  flag_msg (tst reg_esr FLEXCAN_ESR_CRC_ERR) MsgCrcErr ++
  flag_msg (tst reg_esr FLEXCAN_ESR_FRM_ERR) MsgFrmErr ++
  flag_msg (tst reg_esr FLEXCAN_ESR_STF_ERR) MsgStfErr.

(** What the poll leaves alone while it works: every register but the
    interrupt flags, and the configuration in the driver's memory. *)
Definition poll_frame (w w' : world) : Prop :=
  (forall r, r <> IFLAG1 -> regs w' r = regs w r) /\
  reg_ctrl_default (priv w') = reg_ctrl_default (priv w) /\
  ctrlmode (priv w') = ctrlmode (priv w).

Definition keeps_poll_frame {A} (m : M A) : Prop :=
  forall w0 w, poll_frame w0 w -> poll_frame w0 (after m w).

(** A function that reports the work it did as 0 or 1. *)
Definition returns01 (m : M Z) : Prop :=
  forall w, result m w = 0 \/ result m w = 1.

(** The calls the poll makes on the driver side: register accesses,
    frames handed up, the bus-off signal, log lines and the receive LED. *)
Definition is_poll_call (e : event) : bool :=
  match e with
  | EvRead _ _ | EvWrite _ _ | EvNetifReceiveSkb _ | EvCanBusOff | EvLog _
  | EvLedRx => true
  | _ => false
  end.

(** The same without the frames handed up. *)
Definition is_poll_side_call (e : event) : bool :=
  match e with
  | EvRead _ _ | EvWrite _ _ | EvCanBusOff | EvLog _ | EvLedRx => true
  | _ => false
  end.

(** A computation whose calls all satisfy [P]. *)
Definition emits (P : event -> bool) {A} (m : M A) : Prop :=
  forall w, exists l, trace (after m w) = trace w ++ l /\ forallb P l = true.

(** A step of the poll: its calls are poll calls and it reports as work
    done the number of frames it handed up. *)
Definition poll_work (m : M Z) : Prop :=
  forall w, exists l,
    trace (after m w) = trace w ++ l /\
    forallb is_poll_call l = true /\
    Z.of_nat (length (delivered_frames l)) = result m w.

(** [n] frames counted as dropped. *)
Definition drop_frames (n : nat) (p : flexcan_priv) : flexcan_priv :=
  Nat.iter n (fun p => set_stats (inc_rx_dropped (stats p)) p) p.

(** * Properties *)

(** ** Bit-level facts *)

Lemma tst_lor x a b : tst x (Z.lor a b) = tst x a || tst x b.
Proof.
  unfold tst. rewrite Z.land_lor_distr_r.
  destruct (Z.eqb_spec (Z.land x a) 0) as [Ha|Ha], (Z.eqb_spec (Z.land x b) 0) as [Hb|Hb];
    cbn; rewrite ?Ha, ?Hb; cbn.
  - reflexivity.
  - apply negb_true_iff, Z.eqb_neq. exact Hb.
  - apply negb_true_iff, Z.eqb_neq. rewrite Z.lor_0_r. exact Ha.
  - apply negb_true_iff, Z.eqb_neq. intros H. apply Z.lor_eq_0_iff in H. tauto.
Qed.

Lemma tst_BIT x n : 0 <= n -> tst x (BIT n) = Z.testbit x n.
Proof.
  intros Hn. unfold tst, BIT. rewrite Z.shiftl_1_l.
  destruct (Z.testbit x n) eqn:E.
  - apply negb_true_iff, Z.eqb_neq. intros H.
    assert (Z.testbit (Z.land x (2 ^ n)) n = false) by (rewrite H; apply Z.testbit_0_l).
    rewrite Z.land_spec, E, Z.pow2_bits_true in H0 by lia. discriminate.
  - apply negb_false_iff, Z.eqb_eq. apply Z.bits_inj'. intros i Hi.
    rewrite Z.land_spec, Z.testbit_0_l, Z.pow2_bits_eqb by lia.
    destruct (Z.eqb_spec n i); subst; rewrite ?E; cbn; auto using andb_false_r.
Qed.

Lemma testbit_lor_BIT x n : 0 <= n -> Z.testbit (Z.lor x (BIT n)) n = true.
Proof.
  intros Hn. unfold BIT. rewrite Z.lor_spec, Z.shiftl_1_l, Z.pow2_bits_true by lia.
  apply orb_true_r.
Qed.

Lemma u32_land x : u32 x = Z.land x (Z.ones 32).
Proof. unfold u32. rewrite Z.land_ones by lia. reflexivity. Qed.

Lemma byte_land b : 0 <= b < 256 -> b = Z.land b (Z.ones 8).
Proof. intros H. rewrite Z.land_ones by lia. symmetry. apply Z.mod_small. exact H. Qed.

(** Two words agree on their low [n] bits when they agree bit by bit. *)
Lemma land_ones_ext y x n :
  0 <= n ->
  (forall i, 0 <= i < n -> Z.testbit y i = Z.testbit x i) ->
  Z.land y (Z.ones n) = Z.land x (Z.ones n).
Proof.
  intros Hn H. apply Z.bits_inj'. intros i Hi. rewrite !Z.land_spec.
  destruct (Z.ltb_spec i n).
  - rewrite H by lia. reflexivity.
  - rewrite Z.ones_spec_high by lia. rewrite !andb_false_r. reflexivity.
Qed.

Lemma testbit_if_lor (b : bool) r m i :
  Z.testbit (if b then Z.lor r m else r) i = Z.testbit r i || b && Z.testbit m i.
Proof.
  destruct b; cbn; [apply Z.lor_spec|]. rewrite orb_false_r. reflexivity.
Qed.

Lemma testbit_clr_BIT x n : 0 <= n -> Z.testbit (clr x (BIT n)) n = false.
Proof.
  intros Hn. unfold clr, BIT.
  rewrite Z.land_spec, Z.lnot_spec, Z.shiftl_1_l, Z.pow2_bits_true by lia.
  apply andb_false_r.
Qed.

(** Evaluate the bits of constants and the bits at negative positions. *)
Ltac eval_const_bits :=
  repeat match goal with
  | |- context [Z.testbit ?c ?i] =>
      let v := eval vm_compute in (Z.testbit c i) in
      lazymatch v with
      | true => change (Z.testbit c i) with true
      | false => change (Z.testbit c i) with false
      end
  end.

Ltac norm_bit_positions :=
  repeat match goal with
  | |- context [Z.testbit ?x ?k] =>
      let k' := eval vm_compute in k in
      tryif constr_eq k k' then fail
      else change (Z.testbit x k) with (Z.testbit x k')
  end.

Ltac split_bits :=
  repeat first
    [ rewrite testbit_if_lor | rewrite Z.land_spec | rewrite Z.lor_spec
    | rewrite Z.shiftr_spec by lia | rewrite Z.shiftl_spec by lia
    | rewrite Z.lnot_spec by lia ].

Ltac bool_cases :=
  rewrite ?andb_false_r, ?andb_true_r, ?orb_false_r, ?orb_false_l;
  repeat match goal with
  | |- context [Z.testbit ?x ?k] => destruct (Z.testbit x k)
  end; reflexivity.

(** Decide [forall i, 0 <= i < n -> bit i of lhs = bit i of rhs] for a
    literal [n] by going through the positions. *)
Ltac each_bit n :=
  let i := fresh "i" in let Hi := fresh "Hi" in
  intros i Hi;
  let rec go k :=
    lazymatch k with
    | O => exfalso; lia
    | S ?k' =>
        destruct (Z.eq_dec i (Z.of_nat k')) as [->|];
        [ cbn [Z.of_nat Pos.of_succ_nat Pos.succ]; split_bits;
          norm_bit_positions; eval_const_bits; bool_cases
        | go k' ]
    end in
  go n.

(** ** Running the monad *)

(** Sequencing, seen through [result] and [after]. *)
Lemma after_bind {A B} (m : M A) (k : A -> M B) w :
  after (bind m k) w = after (k (result m w)) (after m w).
Proof. unfold after, result, bind. destruct (m w). reflexivity. Qed.

Lemma result_bind {A B} (m : M A) (k : A -> M B) w :
  result (bind m k) w = result (k (result m w)) (after m w).
Proof. unfold after, result, bind. destruct (m w). reflexivity. Qed.

Lemma after_ret {A} (a : A) w : after (ret a) w = w.
Proof. reflexivity. Qed.

Lemma result_ret {A} (a : A) w : result (ret a) w = a.
Proof. reflexivity. Qed.

Lemma result_read env r w :
  result (flexcan_read env r) w = u32 (hw_read env (clock w) r (regs w)).
Proof. reflexivity. Qed.

Lemma after_read env r w :
  after (flexcan_read env r) w =
  mk_world (priv w) (regs w) (S (clock w))
           (trace w ++ [EvRead r (u32 (hw_read env (clock w) r (regs w)))]).
Proof. reflexivity. Qed.

Lemma after_write v r w :
  after (flexcan_write v r) w =
  mk_world (priv w) (upd r v (regs w)) (clock w) (trace w ++ [EvWrite r v]).
Proof. reflexivity. Qed.

Lemma after_emit e w :
  after (emit e) w = mk_world (priv w) (regs w) (clock w) (trace w ++ [e]).
Proof. reflexivity. Qed.

Lemma after_modify_priv f w :
  after (modify_priv f) w = mk_world (f (priv w)) (regs w) (clock w) (trace w).
Proof. reflexivity. Qed.

Lemma after_tick w :
  after tick w = mk_world (priv w) (regs w) (S (clock w)) (trace w).
Proof. reflexivity. Qed.

Lemma result_alloc_can_skb env w :
  result (alloc_can_skb env) w =
  if skb_alloc env (clock w)
  then Some (mk_can_frame 0 0 (replicate 8 0)) else None.
Proof. reflexivity. Qed.

Lemma after_alloc_can_skb env w :
  after (alloc_can_skb env) w =
  mk_world (priv w) (regs w) (S (clock w)) (trace w).
Proof. reflexivity. Qed.

Create Rewrite HintDb drv.

#[local] Hint Rewrite @after_bind @result_bind @after_ret @result_ret
  result_read after_read after_write after_emit after_modify_priv
  after_tick : drv.

(** Push [result] and [after] through a sequence. *)
Ltac drv :=
  repeat progress
    (autorewrite with drv;
     repeat match goal with
       | |- context [result get_priv ?w] =>
           change (result get_priv w) with (priv w)
       | |- context [after get_priv ?w] => change (after get_priv w) with w
       | |- context [result tick ?w] => change (result tick w) with (clock w)
       end;
     cbn [priv regs clock trace]).

Ltac run :=
  unfold after, result;
  cbn -[Z.land Z.lor Z.shiftl Z.shiftr Z.testbit Z.lnot Z.pow Z.modulo Z.div u32 tst clr];
  repeat rewrite <- app_assoc; cbn [app];
  rewrite ?drop_app_length.

Lemma upd_same r v f : upd r v f r = v.
Proof. unfold upd. destruct (decide (r = r)); congruence. Qed.

Lemma upd_other r r' v f : r <> r' -> upd r v f r' = f r'.
Proof. unfold upd. destruct (decide (r = r')); congruence. Qed.

Lemma count_events_app f l1 l2 :
  count_events f (l1 ++ l2) = (count_events f l1 + count_events f l2)%nat.
Proof. unfold count_events. rewrite List.filter_app, length_app. reflexivity. Qed.

Lemma new_events_trace_app w w' l :
  trace w' = trace w ++ l -> new_events w w' = l.
Proof. intros H. unfold new_events. rewrite H. apply drop_app_length. Qed.

(** ** Error-state monitor *)

Lemma land_flt_conf reg : Z.land reg 48 = Z.shiftl (Z.land (Z.shiftr reg 4) 3) 4.
Proof.
  change 48 with (Z.shiftl 3 4). apply Z.bits_inj'. intros i Hi.
  rewrite Z.land_spec, !Z.shiftl_spec, Z.land_spec by lia.
  destruct (Z.ltb_spec i 4).
  - rewrite !(Z.testbit_neg_r _ (i - 4)) by lia. apply andb_false_r.
  - rewrite Z.shiftr_spec by lia. replace (i - 4 + 4) with i by lia. reflexivity.
Qed.

Lemma esr_flt_conf_range reg : 0 <= esr_flt_conf reg < 4.
Proof.
  unfold esr_flt_conf. change 3 with (Z.ones 2). rewrite Z.land_ones by lia.
  apply Z.mod_pos_bound. reflexivity.
Qed.

Lemma flexcan_new_state_table reg :
  flexcan_new_state reg =
  spec_state_table (esr_flt_conf reg) (esr_tx_wrn reg) (esr_rx_wrn reg).
Proof.
  unfold flexcan_new_state, spec_state_table, esr_tx_wrn, esr_rx_wrn.
  rewrite tst_lor. unfold FLEXCAN_ESR_TX_WRN, FLEXCAN_ESR_RX_WRN.
  rewrite !tst_BIT by lia.
  change FLEXCAN_ESR_FLT_CONF_MASK with 48.
  change FLEXCAN_ESR_FLT_CONF_ACTIVE with 0.
  change FLEXCAN_ESR_FLT_CONF_PASSIVE with 16.
  rewrite land_flt_conf.
  change (Z.land (Z.shiftr reg 4) 3) with (esr_flt_conf reg).
  pose proof (esr_flt_conf_range reg) as Hr.
  rewrite Z.shiftl_mul_pow2 by lia. change (2 ^ 4) with 16.
  generalize (Z.testbit reg 9 || Z.testbit reg 8); intros b.
  destruct (Z.eqb_spec (esr_flt_conf reg) 0) as [->|H0].
  - destruct b; reflexivity.
  - destruct (Z.eqb_spec (esr_flt_conf reg * 16) 0); [lia|].
    destruct (Z.eqb_spec (esr_flt_conf reg) 1) as [->|H1]; [reflexivity|].
    destruct (Z.eqb_spec (esr_flt_conf reg * 16) 16); [lia|]. reflexivity.
Qed.

Lemma poll_state_recorded env reg_esr w :
  state (priv (after (flexcan_poll_state env reg_esr) w)) =
  if decide (flexcan_new_state reg_esr = state (priv w)) then state (priv w)
  else if skb_alloc env (clock w) then flexcan_new_state reg_esr
  else state (priv w).
Proof.
  destruct w as [p rg ck tr]. unfold flexcan_poll_state, after, bind, get_priv.
  cbn [priv clock]. destruct (decide _) as [e|ne]; [reflexivity|].
  unfold alloc_can_err_skb, bind, tick, ret. cbn [clock].
  destruct (skb_alloc env ck); [|reflexivity].
  destruct p as [st cm bt sts off rcd ft ts rx].
  destruct st, (flexcan_new_state reg_esr); reflexivity.
Qed.

(** C1.  The state [flexcan_poll_state] derives is a function of the
    2-bit fault-confinement field and the two warning flags of the
    status word alone, and it is the documented table: field "active"
    without a warning flag gives ERROR_ACTIVE, with one ERROR_WARNING,
    field "passive" gives ERROR_PASSIVE, any other field value BUS_OFF.
    The table is met on each of the sixteen combinations, and it is the
    state the function records whenever it can allocate the diagnostic
    frame. *)
Theorem flexcan_poll_state_derivation :
  (forall reg_esr,
     flexcan_new_state reg_esr =
     spec_state_table (esr_flt_conf reg_esr) (esr_tx_wrn reg_esr)
                      (esr_rx_wrn reg_esr)) /\
  (forall flt tx_wrn rx_wrn, 0 <= flt < 4 ->
     flexcan_new_state (esr_of_fields flt tx_wrn rx_wrn) =
     spec_state_table flt tx_wrn rx_wrn) /\
  (forall env reg_esr w, skb_alloc env (clock w) = true ->
     state (priv (after (flexcan_poll_state env reg_esr) w)) =
     spec_state_table (esr_flt_conf reg_esr) (esr_tx_wrn reg_esr)
                      (esr_rx_wrn reg_esr)).
Proof.
  split; [exact flexcan_new_state_table|]. split.
  - intros flt tx rx Hf.
    assert (flt = 0 \/ flt = 1 \/ flt = 2 \/ flt = 3) as Hc by lia.
    destruct Hc as [->|[->|[->| ->]]], tx, rx; reflexivity.
  - intros env reg_esr w Ha. rewrite poll_state_recorded, Ha.
    rewrite <- flexcan_new_state_table.
    destruct (decide _) as [e|]; congruence.
Qed.

Lemma flexcan_poll_state_derivation_witness :
  skb_alloc (const_env 0 true 0) (clock (world0 CAN_STATE_ERROR_ACTIVE)) = true /\
  state (priv (after (flexcan_poll_state (const_env 0 true 0) 0x10)
                     (world0 CAN_STATE_ERROR_ACTIVE))) =
  spec_state_table 1 false false.
Proof.
  split; [reflexivity|].
  exact (proj2 (proj2 flexcan_poll_state_derivation)
           (const_env 0 true 0) 0x10 (world0 CAN_STATE_ERROR_ACTIVE) eq_refl).
Defined.

(** C2, as amended.  When the derived state is BUS_OFF and the recorded
    state is not, [flexcan_poll_state] produces exactly one link-down
    signal and exactly one diagnostic frame, with the bus-off bit set,
    provided the frame can be allocated; when the allocation fails it
    produces neither and leaves the recorded state as it was.  When the
    recorded state is BUS_OFF already it returns at once: no link-down
    signal, no frame, and nothing is logged. *)
Theorem flexcan_poll_state_bus_off env reg_esr w :
  flexcan_new_state reg_esr = CAN_STATE_BUS_OFF ->
  let w' := after (flexcan_poll_state env reg_esr) w in
  let tr := new_events w w' in
  (state (priv w) <> CAN_STATE_BUS_OFF -> skb_alloc env (clock w) = true ->
     link_down_signals tr = 1%nat /\
     (exists cf, delivered_frames tr = [cf] /\
                 tst (can_id cf) CAN_ERR_BUSOFF = true) /\
     state (priv w') = CAN_STATE_BUS_OFF /\
     result (flexcan_poll_state env reg_esr) w = 1) /\
  (state (priv w) <> CAN_STATE_BUS_OFF -> skb_alloc env (clock w) = false ->
     link_down_signals tr = 0%nat /\ delivered_frames tr = [] /\
     state (priv w') = state (priv w) /\
     result (flexcan_poll_state env reg_esr) w = 0) /\
  (state (priv w) = CAN_STATE_BUS_OFF ->
     link_down_signals tr = 0%nat /\ delivered_frames tr = [] /\
     logged tr = [] /\ w' = w /\
     result (flexcan_poll_state env reg_esr) w = 0).
Proof.
  intros Hn w' tr. subst tr w'.
  destruct w as [p rg ck tr]. unfold flexcan_poll_state. rewrite Hn.
  unfold after, result, bind, get_priv. cbn [priv clock fst snd].
  split; [|split].
  - intros Hs Ha.
    destruct (decide (CAN_STATE_BUS_OFF = state p)) as [e|_]; [congruence|].
    unfold alloc_can_err_skb, bind, tick, ret. cbn [clock]. rewrite Ha.
    assert (forall x, tst (Z.lor x CAN_ERR_BUSOFF) CAN_ERR_BUSOFF = true) as Hb.
    { intros x. unfold tst. apply negb_true_iff, Z.eqb_neq. intros H.
      assert (Z.testbit (Z.land (Z.lor x CAN_ERR_BUSOFF) CAN_ERR_BUSOFF) 6 = false)
        as H6 by (rewrite H; apply Z.testbit_0_l).
      rewrite Z.land_spec, Z.lor_spec in H6. change (Z.testbit CAN_ERR_BUSOFF 6) with true in H6.
      rewrite orb_true_r in H6. discriminate. }
    destruct p as [st cm bt sts off rcd ft ts rx]; cbn in Hs.
    destruct st; try congruence; run; (split; [reflexivity|]);
      (split; [eexists; split; [reflexivity|apply Hb] | split; reflexivity]).
  - intros Hs Ha.
    destruct (decide (CAN_STATE_BUS_OFF = state p)) as [e|_]; [congruence|].
    unfold alloc_can_err_skb, bind, tick, ret. cbn [clock]. rewrite Ha.
    run. unfold new_events. cbn. rewrite drop_all. repeat split.
  - intros Hs.
    destruct (decide (CAN_STATE_BUS_OFF = state p)) as [_|ne]; [|congruence].
    run. unfold new_events. cbn. rewrite drop_all. repeat split.
Qed.

Lemma flexcan_poll_state_bus_off_witness :
  flexcan_new_state 0x20 = CAN_STATE_BUS_OFF /\
  link_down_signals
    (new_events (world0 CAN_STATE_ERROR_PASSIVE)
       (after (flexcan_poll_state (const_env 0 true 0) 0x20)
              (world0 CAN_STATE_ERROR_PASSIVE))) = 1%nat.
Proof.
  split; [reflexivity|].
  refine (proj1 (proj1 (flexcan_poll_state_bus_off (const_env 0 true 0) 0x20
                          (world0 CAN_STATE_ERROR_PASSIVE) eq_refl) _ eq_refl)).
  discriminate.
Defined.

(** C2 as first stated fails twice.  With no memory for the diagnostic
    frame a transition from ERROR_ACTIVE into BUS_OFF produces no
    link-down signal and no frame; and a BUS_OFF observation in state
    BUS_OFF logs nothing (the "recovered automatically" message belongs
    to leaving BUS_OFF, not to staying there). *)
Lemma flexcan_poll_state_bus_off_counterexample :
  (flexcan_new_state 0x20 = CAN_STATE_BUS_OFF /\
   state (priv (world0 CAN_STATE_ERROR_ACTIVE)) = CAN_STATE_ERROR_ACTIVE /\
   link_down_signals
     (new_events (world0 CAN_STATE_ERROR_ACTIVE)
        (after (flexcan_poll_state (const_env 0 false 0) 0x20)
               (world0 CAN_STATE_ERROR_ACTIVE))) = 0%nat /\
   delivered_frames
     (new_events (world0 CAN_STATE_ERROR_ACTIVE)
        (after (flexcan_poll_state (const_env 0 false 0) 0x20)
               (world0 CAN_STATE_ERROR_ACTIVE))) = []) /\
  (state (priv (world0 CAN_STATE_BUS_OFF)) = CAN_STATE_BUS_OFF /\
   logged
     (new_events (world0 CAN_STATE_BUS_OFF)
        (after (flexcan_poll_state (const_env 0 true 0) 0x20)
               (world0 CAN_STATE_BUS_OFF))) = []).
Proof. repeat split. Qed.




(** ** Chip control *)

(** A poll whose condition holds at every read uses up its budget. *)
Lemma spin_mcr_exhausts env cond lo hi t w :
  (forall n f, cond (u32 (hw_read env n MCR f)) = true) ->
  let w' := after (spin_mcr env t cond (EvUsleepRange lo hi)) w in
  priv w' = priv w /\ regs w' = regs w /\
  exists l, trace w' = trace w ++ l /\ freeze_sleeps l = t.
Proof.
  intros Hc. revert w. induction t as [|t IH]; intros w.
  - cbn. repeat split. exists []. rewrite app_nil_r. split; reflexivity.
  - cbn [spin_mcr]. drv. rewrite Hc. drv.
    match goal with |- context [after (spin_mcr env t cond ?e) ?w0] =>
      destruct (IH w0) as (Hp & Hr & l & Hl & Hn) end.
    cbn [priv regs trace] in *. rewrite Hp, Hr, Hl. repeat split.
    eexists. rewrite <- !app_assoc. split; [reflexivity|].
    unfold freeze_sleeps in *. rewrite !(count_events_app _ [_]).
    cbn. rewrite Hn. reflexivity.
Qed.

Lemma spin_mcr_regs env t cond pause w :
  regs (after (spin_mcr env t cond pause) w) = regs w.
Proof.
  revert w. induction t as [|t IH]; intros w; cbn [spin_mcr]; [reflexivity|].
  drv. destruct (cond _); drv; [rewrite IH|]; reflexivity.
Qed.

(** C8.  If the freeze acknowledge never shows, [flexcan_chip_freeze]
    returns [-ETIMEDOUT] after a number of polls equal to ten bit
    periods in microseconds (ten million divided by the bit rate, so
    inversely proportional to it), and the halt bit it set is still set
    in the module-control register. *)
Theorem flexcan_chip_freeze_timeout env w :
  0 < bitrate (bittiming (priv w)) ->
  (forall n f, tst (u32 (hw_read env n MCR f)) FLEXCAN_MCR_FRZ_ACK = false) ->
  let w' := after (flexcan_chip_freeze env) w in
  let polls := Z.of_nat (freeze_sleeps (new_events w w')) in
  result (flexcan_chip_freeze env) w = - ETIMEDOUT /\
  polls = 10 * 1000000 / bitrate (bittiming (priv w)) /\
  polls * bitrate (bittiming (priv w)) <= 10 * 1000000
    < (polls + 1) * bitrate (bittiming (priv w)) /\
  Z.testbit (regs w' MCR) 28 = true.
Proof.
  intros Hb Hack w' polls.
  assert (result (flexcan_chip_freeze env) w = - ETIMEDOUT /\
          polls = 10 * 1000000 / bitrate (bittiming (priv w)) /\
          Z.testbit (regs w' MCR) 28 = true) as (Hr & Hp & Hh).
  { subst polls w'. unfold flexcan_chip_freeze. drv.
    match goal with |- context [after (spin_mcr env ?t ?c ?e) ?w0] =>
      destruct (spin_mcr_exhausts env c 100 200 t w0) as (Hp & Hr & l & Hl & Hn);
      [intros n f; rewrite Hack; reflexivity|];
      set (w1 := after (spin_mcr env t c e) w0) in * end.
    cbn [priv regs trace] in *. rewrite Hack. cbn [negb]. drv.
    split; [reflexivity|]. split.
    - rewrite (new_events_trace_app _ _ ([_; _] ++ l ++ [_]))
        by (cbn [trace]; rewrite Hl, <- !app_assoc; reflexivity).
      unfold freeze_sleeps in *. rewrite !count_events_app, Hn. cbn.
      rewrite Nat.add_0_r, Z2Nat.id; [reflexivity|].
      apply Z.div_pos; [discriminate|lia].
    - rewrite Hr, upd_same. apply (testbit_lor_BIT _ 28). lia. }
  repeat split; try assumption.
  - rewrite Hp. rewrite Z.mul_comm. apply Z.mul_div_le. lia.
  - rewrite Hp.
    pose proof (Z.mod_pos_bound (10 * 1000000) (bitrate (bittiming (priv w))) Hb).
    pose proof (Z.div_mod (10 * 1000000) (bitrate (bittiming (priv w)))). lia.
Qed.

Lemma flexcan_chip_freeze_timeout_witness :
  result (flexcan_chip_freeze (const_env 0 true 0)) (world0 CAN_STATE_ERROR_ACTIVE)
    = - ETIMEDOUT /\
  freeze_sleeps
    (new_events (world0 CAN_STATE_ERROR_ACTIVE)
       (after (flexcan_chip_freeze (const_env 0 true 0))
              (world0 CAN_STATE_ERROR_ACTIVE))) = 80%nat /\
  Z.testbit (regs (after (flexcan_chip_freeze (const_env 0 true 0))
                         (world0 CAN_STATE_ERROR_ACTIVE)) MCR) 28 = true.
Proof.
  assert (0 < bitrate (bittiming (priv (world0 CAN_STATE_ERROR_ACTIVE)))) as Hb
    by reflexivity.
  assert (forall n f, tst (u32 (hw_read (const_env 0 true 0) n MCR f))
                          FLEXCAN_MCR_FRZ_ACK = false) as Hh
    by (intros; reflexivity).
  destruct (flexcan_chip_freeze_timeout (const_env 0 true 0)
              (world0 CAN_STATE_ERROR_ACTIVE) Hb Hh) as (Hr & Hp & _ & Hm).
  split; [exact Hr|]. split; [|exact Hm].
  apply Nat2Z.inj. rewrite Hp. reflexivity.
Defined.

(** ** Start sequence *)


Lemma xceiver_after_app l1 l2 b :
  xceiver_after (l1 ++ l2) b = xceiver_after l2 (xceiver_after l1 b).
Proof. apply fold_left_app. Qed.



















Lemma chip_disable_sets_mdis env w :
  Z.testbit (regs (after (flexcan_chip_disable env) w) MCR) 31 = true.
Proof.
  unfold flexcan_chip_disable. drv.
  match goal with |- context [if ?c then _ else _] => destruct c end; drv;
    rewrite spin_mcr_regs; cbn [regs]; rewrite upd_same;
    apply (testbit_lor_BIT _ 31); lia.
Qed.













(** X7.  The one failure [flexcan_chip_start] does not unwind: when
    [flexcan_chip_enable] itself times out, the error goes back at once
    and the module-disable bit stays cleared. *)
Theorem flexcan_chip_start_enable_timeout env w :
  result (flexcan_chip_enable env) w <> 0 ->
  result (flexcan_chip_start env) w = result (flexcan_chip_enable env) w /\
  after (flexcan_chip_start env) w = after (flexcan_chip_enable env) w /\
  Z.testbit (regs (after (flexcan_chip_start env) w) MCR) 31 = false.
Proof.
  intros He. unfold flexcan_chip_start. rewrite after_bind, result_bind.
  destruct (Z.eqb_spec (result (flexcan_chip_enable env) w) 0) as [|_];
    [contradiction|]. cbn [negb]. rewrite after_ret, result_ret.
  split; [reflexivity|]. split; [reflexivity|].
  unfold flexcan_chip_enable. drv.
  match goal with |- context [if ?c then _ else _] => destruct c end; drv;
    rewrite spin_mcr_regs; cbn [regs]; rewrite upd_same;
    apply (testbit_clr_BIT _ 31); lia.
Qed.

Lemma flexcan_chip_start_enable_timeout_witness :
  let env := const_env FLEXCAN_MCR_LPM_ACK true 0 in
  let w := world0 CAN_STATE_STOPPED in
  result (flexcan_chip_start env) w = - ETIMEDOUT /\
  Z.testbit (regs (after (flexcan_chip_start env) w) MCR) 31 = false.
Proof.
  cbv zeta.
  destruct (flexcan_chip_start_enable_timeout (const_env FLEXCAN_MCR_LPM_ACK true 0)
              (world0 CAN_STATE_STOPPED)) as (Hr & _ & Hm).
  - vm_compute. discriminate.
  - split; [rewrite Hr; reflexivity|exact Hm].
Defined.

(** ** Bit-timing configurator *)

Ltac ctrl_unfold :=
  unfold bittiming_word, ctrl_presdiv, ctrl_rjw, ctrl_pseg1, ctrl_pseg2, ctrl_propseg,
    clr, FLEXCAN_CTRL_PRESDIV, FLEXCAN_CTRL_RJW, FLEXCAN_CTRL_PSEG1,
    FLEXCAN_CTRL_PSEG2, FLEXCAN_CTRL_PROPSEG, FLEXCAN_CTRL_LPB,
    FLEXCAN_CTRL_SMP, FLEXCAN_CTRL_LOM, BIT.

Lemma bittiming_word_fields reg0 x1 x2 x3 x4 x5 lpb lom smp :
  let reg := bittiming_word reg0 x1 x2 x3 x4 x5 lpb lom smp in
  ctrl_presdiv reg = Z.land x1 0xff /\
  ctrl_pseg1 reg = Z.land x2 0x7 /\
  ctrl_pseg2 reg = Z.land x3 0x7 /\
  ctrl_rjw reg = Z.land x4 0x3 /\
  ctrl_propseg reg = Z.land x5 0x7.
Proof.
  cbv zeta. ctrl_unfold. repeat split.
  - apply (land_ones_ext _ _ 8); [lia|]. each_bit 8%nat.
  - apply (land_ones_ext _ _ 3); [lia|]. each_bit 3%nat.
  - apply (land_ones_ext _ _ 3); [lia|]. each_bit 3%nat.
  - apply (land_ones_ext _ _ 2); [lia|]. each_bit 2%nat.
  - apply (land_ones_ext _ _ 3); [lia|]. each_bit 3%nat.
Qed.

Lemma set_bittiming_word env w :
  let p := priv w in
  let bt := bittiming p in
  regs (after (flexcan_set_bittiming env) w) CTRL =
  bittiming_word (u32 (hw_read env (clock w) CTRL (regs w)))
    (u32 (brp bt - 1)) (u32 (phase_seg1 bt - 1)) (u32 (phase_seg2 bt - 1))
    (u32 (sjw bt - 1)) (u32 (prop_seg bt - 1))
    (tst (ctrlmode p) CAN_CTRLMODE_LOOPBACK)
    (tst (ctrlmode p) CAN_CTRLMODE_LISTENONLY)
    (tst (ctrlmode p) CAN_CTRLMODE_3_SAMPLES).
Proof.
  cbv zeta. unfold flexcan_set_bittiming. drv. rewrite upd_same. reflexivity.
Qed.

Lemma field_minus_one x n :
  0 <= n <= 32 -> 1 <= x <= 2 ^ n -> Z.land (u32 (x - 1)) (Z.ones n) = x - 1.
Proof.
  intros Hn Hx. unfold u32.
  assert (2 ^ n <= 2 ^ 32) by (apply Z.pow_le_mono_r; lia).
  rewrite Z.mod_small by lia. rewrite Z.land_ones by lia.
  apply Z.mod_small. lia.
Qed.

(** C7, as amended.  For a prescaler of 1 to 256, a propagation segment
    of 1 to 8, a phase segment 1 of 1 to 8, a phase segment 2 of 1 to 8
    and a sync jump width of 1 to 4, the bit fields of the control word
    [flexcan_set_bittiming] writes hold each value minus one. *)
Theorem flexcan_set_bittiming_roundtrip env w :
  let bt := bittiming (priv w) in
  1 <= brp bt <= 256 -> 1 <= prop_seg bt <= 8 -> 1 <= phase_seg1 bt <= 8 ->
  1 <= phase_seg2 bt <= 8 -> 1 <= sjw bt <= 4 ->
  let reg := regs (after (flexcan_set_bittiming env) w) CTRL in
  ctrl_presdiv reg = brp bt - 1 /\
  ctrl_propseg reg = prop_seg bt - 1 /\
  ctrl_pseg1 reg = phase_seg1 bt - 1 /\
  ctrl_pseg2 reg = phase_seg2 bt - 1 /\
  ctrl_rjw reg = sjw bt - 1.
Proof.
  intros bt Hbrp Hprop Hp1 Hp2 Hsjw reg. subst reg.
  rewrite set_bittiming_word. cbv zeta. fold bt.
  match goal with |- context [bittiming_word ?r ?a ?b ?c ?d ?e ?l1 ?l2 ?l3] =>
    destruct (bittiming_word_fields r a b c d e l1 l2 l3) as (F1 & F2 & F3 & F4 & F5)
  end.
  cbv zeta in *. rewrite F1, F2, F3, F4, F5.
  repeat split.
  - apply (field_minus_one (brp bt) 8); [lia|exact Hbrp].
  - apply (field_minus_one (prop_seg bt) 3); [lia|exact Hprop].
  - apply (field_minus_one (phase_seg1 bt) 3); [lia|exact Hp1].
  - apply (field_minus_one (phase_seg2 bt) 3); [lia|exact Hp2].
  - apply (field_minus_one (sjw bt) 2); [lia|exact Hsjw].
Qed.

Lemma flexcan_set_bittiming_roundtrip_witness :
  let w := world_bt bt_125k in
  let reg := regs (after (flexcan_set_bittiming (const_env 0 true 0)) w) CTRL in
  ctrl_presdiv reg = 3 /\ ctrl_propseg reg = 1 /\ ctrl_pseg1 reg = 2 /\
  ctrl_pseg2 reg = 1 /\ ctrl_rjw reg = 0.
Proof.
  apply (flexcan_set_bittiming_roundtrip (const_env 0 true 0) (world_bt bt_125k));
    cbn; lia.
Defined.

(** C7 as first stated fails for a phase segment 1 above 8: with a
    phase segment 1 of 9, inside the advertised range, the 3-bit field
    reads 0 and not 8. *)
Lemma flexcan_set_bittiming_pseg1_counterexample :
  let bt := mk_can_bittiming 125000 1 9 2 1 1 in
  let reg := regs (after (flexcan_set_bittiming (const_env 0 true 0))
                         (world_bt bt)) CTRL in
  (1 <= brp bt <= 256 /\ 1 <= prop_seg bt <= 8 /\ 1 <= phase_seg1 bt <= 16 /\
   2 <= phase_seg2 bt <= 8 /\ 1 <= sjw bt <= 4) /\
  ctrl_pseg1 reg = 0 /\ phase_seg1 bt - 1 = 8.
Proof. cbv zeta. cbn [brp prop_seg phase_seg1 phase_seg2 sjw]. repeat split; try lia. Qed.

(** X6.  Whatever the timing values, each field of the written control
    word holds the value minus one cut to the width of the field. *)
Theorem flexcan_set_bittiming_fields env w :
  let bt := bittiming (priv w) in
  let reg := regs (after (flexcan_set_bittiming env) w) CTRL in
  ctrl_presdiv reg = Z.land (u32 (brp bt - 1)) 0xff /\
  ctrl_pseg1 reg = Z.land (u32 (phase_seg1 bt - 1)) 0x7 /\
  ctrl_pseg2 reg = Z.land (u32 (phase_seg2 bt - 1)) 0x7 /\
  ctrl_rjw reg = Z.land (u32 (sjw bt - 1)) 0x3 /\
  ctrl_propseg reg = Z.land (u32 (prop_seg bt - 1)) 0x7.
Proof.
  cbv zeta. rewrite set_bittiming_word. cbv zeta. apply bittiming_word_fields.
Qed.

(** ** Transmit encoding and receive decoding *)

(** The four bytes come back from the word they were packed into. *)
Lemma be32_bytes_masked b0 b1 b2 b3 :
  let v := u32 (Z.lor (Z.lor (Z.lor (Z.shiftl (Z.land b0 0xff) 24)
                                    (Z.shiftl (Z.land b1 0xff) 16))
                             (Z.shiftl (Z.land b2 0xff) 8)) (Z.land b3 0xff)) in
  Z.land (Z.shiftr v 24) 0xff = Z.land b0 0xff /\
  Z.land (Z.shiftr v 16) 0xff = Z.land b1 0xff /\
  Z.land (Z.shiftr v 8) 0xff = Z.land b2 0xff /\
  Z.land v 0xff = Z.land b3 0xff.
Proof.
  cbv zeta. rewrite u32_land. repeat split;
    (apply (land_ones_ext _ _ 8); [lia|]; each_bit 8%nat).
Qed.

Lemma be32_bytes b0 b1 b2 b3 :
  0 <= b0 < 256 -> 0 <= b1 < 256 -> 0 <= b2 < 256 -> 0 <= b3 < 256 ->
  let v := u32 (Z.lor (Z.lor (Z.lor (Z.shiftl b0 24) (Z.shiftl b1 16))
                             (Z.shiftl b2 8)) b3) in
  Z.land (Z.shiftr v 24) 0xff = b0 /\ Z.land (Z.shiftr v 16) 0xff = b1 /\
  Z.land (Z.shiftr v 8) 0xff = b2 /\ Z.land v 0xff = b3.
Proof.
  intros H0 H1 H2 H3.
  pose proof (be32_bytes_masked b0 b1 b2 b3) as H.
  change 0xff with (Z.ones 8) in *.
  rewrite <- (byte_land b0 H0), <- (byte_land b1 H1), <- (byte_land b2 H2),
    <- (byte_land b3 H3) in H.
  exact H.
Qed.

(** A frame payload is put back by the two stores of the receive path. *)
Lemma payload_roundtrip d cf :
  length d = 8%nat -> Forall (fun b => 0 <= b < 256) d ->
  length (data cf) = 8%nat ->
  data (store_be32 4 (u32 (be32_to_cpup d 4))
          (store_be32 0 (u32 (be32_to_cpup d 0)) cf)) = d.
Proof.
  intros Hl Hb Hc.
  destruct d as [|b0 [|b1 [|b2 [|b3 [|b4 [|b5 [|b6 [|b7 [|]]]]]]]]]; try discriminate Hl.
  repeat match goal with H : Forall _ (_ :: _) |- _ =>
    apply Forall_cons in H; destruct H as [? H] end.
  destruct cf as [id dlc c]. cbn [data] in Hc.
  destruct c as [|c0 [|c1 [|c2 [|c3 [|c4 [|c5 [|c6 [|c7 [|]]]]]]]]]; try discriminate Hc.
  unfold be32_to_cpup. cbn [lookup_total list_lookup_total Nat.add].
  destruct (be32_bytes b0 b1 b2 b3) as (E0 & E1 & E2 & E3); try assumption.
  destruct (be32_bytes b4 b5 b6 b7) as (E4 & E5 & E6 & E7); try assumption.
  cbv zeta in *. unfold store_be32, set_data. cbn [data can_id can_dlc Nat.add].
  cbn [insert list_insert].
  rewrite E0, E1, E2, E3, E4, E5, E6, E7. reflexivity.
Qed.

Lemma eff_id_roundtrip id :
  let id' := Z.lor (Z.land (Z.shiftr (u32 (Z.land id CAN_EFF_MASK)) 0) CAN_EFF_MASK)
                   CAN_EFF_FLAG in
  Z.land id' CAN_EFF_MASK = Z.land id CAN_EFF_MASK /\
  tst id' CAN_EFF_FLAG = true /\ tst id' CAN_RTR_FLAG = false.
Proof.
  cbv zeta. rewrite u32_land. unfold CAN_EFF_MASK, CAN_EFF_FLAG, CAN_RTR_FLAG.
  change 0x80000000 with (BIT 31). change 0x40000000 with (BIT 30).
  rewrite !tst_BIT by lia. unfold BIT. repeat split.
  - apply (land_ones_ext _ _ 29); [lia|]. each_bit 29%nat.
  - split_bits. norm_bit_positions. eval_const_bits. bool_cases.
  - split_bits. norm_bit_positions. eval_const_bits. bool_cases.
Qed.

Lemma mb_frame_bits_agree c' c i :
  Z.land c' mb_frame_bits = Z.land c mb_frame_bits -> 16 <= i <= 21 ->
  Z.testbit (u32 c') i = Z.testbit c i.
Proof.
  intros H Hi. apply (f_equal (fun x => Z.testbit x i)) in H.
  rewrite !Z.land_spec in H. rewrite u32_land, Z.land_spec.
  assert (i = 16 \/ i = 17 \/ i = 18 \/ i = 19 \/ i = 20 \/ i = 21) as Hc by lia.
  destruct Hc as [->|[->|[->|[->|[->| ->]]]]];
    (change (Z.testbit mb_frame_bits _) with true in H;
     change (Z.testbit (Z.ones 32) _) with true;
     rewrite !andb_true_r in *; exact H).
Qed.

Lemma loopback_ctrl_decode c' :
  Z.land c' mb_frame_bits = Z.land xmit_ctrl_eff8 mb_frame_bits ->
  tst (u32 c') FLEXCAN_MB_CNT_IDE = true /\
  tst (u32 c') FLEXCAN_MB_CNT_RTR = false /\
  get_can_dlc (Z.land (Z.shiftr (u32 c') 16) 0xf) = 8.
Proof.
  intros H. unfold FLEXCAN_MB_CNT_IDE, FLEXCAN_MB_CNT_RTR.
  rewrite !tst_BIT by lia.
  rewrite !(mb_frame_bits_agree c' _ _ H) by lia.
  split; [reflexivity|]. split; [reflexivity|].
  replace (Z.land (Z.shiftr (u32 c') 16) 0xf) with 8; [reflexivity|].
  change 8 with (Z.land (Z.shiftr xmit_ctrl_eff8 16) (Z.ones 4)) at 1.
  apply (land_ones_ext _ _ 4); [lia|]. intros i Hi.
  rewrite !Z.shiftr_spec by lia. symmetry. apply mb_frame_bits_agree; [exact H|lia].
Qed.

Lemma xmit_mailbox cf w :
  tst (can_id cf) CAN_EFF_FLAG = true -> tst (can_id cf) CAN_RTR_FLAG = false ->
  can_dlc cf = 8 ->
  let f := regs (after (flexcan_start_xmit cf) w) in
  f (MB_CTRL FLEXCAN_TX_BUF_ID) = xmit_ctrl_eff8 /\
  f (MB_ID FLEXCAN_TX_BUF_ID) = Z.land (can_id cf) CAN_EFF_MASK /\
  f (MB_DATA0 FLEXCAN_TX_BUF_ID) = be32_to_cpup (data cf) 0 /\
  f (MB_DATA1 FLEXCAN_TX_BUF_ID) = be32_to_cpup (data cf) 4.
Proof.
  intros Heff Hrtr Hdlc. cbv zeta.
  unfold flexcan_start_xmit, can_dropped_invalid_skb. rewrite Heff, Hrtr, Hdlc.
  cbn [Z.ltb Z.gtb Z.compare Pos.compare Pos.compare_cont CAN_MAX_DLEN].
  drv. destruct (tst (features (priv w)) FLEXCAN_HAS_ERR005829); drv;
    repeat split; reflexivity.
Qed.

(** C6.  An extended-format frame with eight payload bytes and the
    remote-request flag clear, written by [flexcan_start_xmit] and, on a
    device in loopback, read back by [flexcan_mailbox_read], comes back
    with the same 29-bit identifier, the same extended and remote flags,
    the same length code and the same payload. *)
Theorem xmit_loopback_roundtrip env cf w :
  loopback env -> (forall n, skb_alloc env n = true) ->
  tst (can_id cf) CAN_EFF_FLAG = true -> tst (can_id cf) CAN_RTR_FLAG = false ->
  can_dlc cf = 8 -> length (data cf) = 8%nat ->
  Forall (fun b => 0 <= b < 256) (data cf) ->
  let w1 := after (flexcan_start_xmit cf) w in
  exists cf',
    result (flexcan_mailbox_read env false None) w1 = (1, Some cf') /\
    Z.land (can_id cf') CAN_EFF_MASK = Z.land (can_id cf) CAN_EFF_MASK /\
    tst (can_id cf') CAN_EFF_FLAG = true /\
    tst (can_id cf') CAN_RTR_FLAG = false /\
    can_dlc cf' = can_dlc cf /\
    data cf' = data cf.
Proof.
  intros Hloop Halloc Heff Hrtr Hdlc Hlen Hbytes w1.
  destruct (xmit_mailbox cf w Heff Hrtr Hdlc) as (Rc & Ri & R0 & R1).
  cbv zeta in *. fold w1 in Rc, Ri, R0, R1. clearbody w1.
  unfold flexcan_mailbox_read, alloc_can_skb. drv.
  rewrite (proj1 (Hloop _ _)). cbn [negb]. drv. rewrite Halloc. drv.
  destruct (Hloop (S (S (clock w1))) (regs w1)) as (_ & Lc & _).
  destruct (Hloop (S (S (S (clock w1)))) (regs w1)) as (_ & _ & Li & _).
  destruct (Hloop (S (S (S (S (clock w1))))) (regs w1)) as (_ & _ & _ & L0 & _).
  destruct (Hloop (S (S (S (S (S (clock w1)))))) (regs w1)) as (_ & _ & _ & _ & L1).
  rewrite Rc in Lc. destruct (loopback_ctrl_decode _ Lc) as (Dide & Drtr & Ddlc).
  rewrite Dide, Drtr, Ddlc, Li, L0, L1, Ri, R0, R1.
  eexists. split; [reflexivity|].
  destruct (eff_id_roundtrip (can_id cf)) as (I1 & I2 & I3). cbv zeta in *.
  unfold store_be32, set_data, set_can_dlc, set_can_id. cbn [can_id can_dlc data].
  repeat split; try assumption; [congruence|].
  apply (payload_roundtrip (data cf) (mk_can_frame 0 0 (replicate 8 0))); auto.
Qed.

Lemma loopback_env_loopback : loopback loopback_env.
Proof. intros n f. repeat split. Qed.

Lemma xmit_loopback_roundtrip_witness :
  exists cf',
    result (flexcan_mailbox_read loopback_env false None)
           (after (flexcan_start_xmit frame_eff8) (world0 CAN_STATE_ERROR_ACTIVE))
      = (1, Some cf') /\
    Z.land (can_id cf') CAN_EFF_MASK = Z.land (can_id frame_eff8) CAN_EFF_MASK /\
    tst (can_id cf') CAN_EFF_FLAG = true /\
    tst (can_id cf') CAN_RTR_FLAG = false /\
    can_dlc cf' = can_dlc frame_eff8 /\
    data cf' = data frame_eff8.
Proof.
  apply (xmit_loopback_roundtrip loopback_env frame_eff8
           (world0 CAN_STATE_ERROR_ACTIVE)).
  - exact loopback_env_loopback.
  - intros n. reflexivity.
  - reflexivity.
  - reflexivity.
  - reflexivity.
  - reflexivity.
  - repeat constructor; cbn; lia.
Defined.

(** ** Receive queue *)

(** C4.  What the code does at the driver's polling weight of 10:
    [fls(10)] is 4, so the limit is [(2 << 4) * 4 = 128], where four
    times the weight rounded up to a power of two is 64. *)
Theorem init_queue_len_max_weight_10 w :
  skb_queue_len_max
    (offload (priv (after (can_rx_offload_init_queue FLEXCAN_NAPI_WEIGHT) w))) = 128 /\
  fls FLEXCAN_NAPI_WEIGHT = 4 /\
  spec_queue_len_max FLEXCAN_NAPI_WEIGHT = 64.
Proof. repeat split. Qed.

(** X5.  For every weight from 1 up, the limit the code computes is
    sixteen times the largest power of two not above the weight: at
    least twice the documented four times the next power of two. *)
Lemma init_queue_len_max_formula weight w :
  1 <= weight < 2 ^ 27 ->
  skb_queue_len_max
    (offload (priv (after (can_rx_offload_init_queue weight) w)))
    = 16 * 2 ^ Z.log2 weight /\
  2 * spec_queue_len_max weight <= 16 * 2 ^ Z.log2 weight.
Proof.
  intros Hw. unfold can_rx_offload_init_queue. drv. cbn [offload skb_queue_len_max].
  unfold fls. destruct (Z.eqb_spec weight 0); [lia|].
  assert (0 <= Z.log2 weight) by apply Z.log2_nonneg.
  assert (Z.log2 weight < 27) by (apply Z.log2_lt_pow2; lia).
  rewrite Z.shiftl_mul_pow2 by lia.
  rewrite Z.pow_add_r by lia. change (2 ^ 1) with 2.
  assert (0 < 2 ^ Z.log2 weight) by (apply Z.pow_pos_nonneg; lia).
  assert (2 ^ Z.log2 weight <= 2 ^ 26) by (apply Z.pow_le_mono_r; lia).
  assert (Z.log2_up weight <= Z.log2 weight + 1) by apply Z.le_log2_up_succ_log2.
  assert (2 ^ Z.log2_up weight <= 2 ^ (Z.log2 weight + 1))
    by (apply Z.pow_le_mono_r; lia).
  rewrite Z.pow_add_r in * by lia.
  unfold spec_queue_len_max, roundup_pow_of_two.
  change (2 ^ 26) with 67108864 in *. change (2 ^ 1) with 2 in *.
  unfold u32. change (2 ^ 32) with 4294967296.
  generalize dependent (2 ^ Z.log2 weight). generalize (2 ^ Z.log2_up weight).
  intros U X HX0 HX1 HU.
  assert (0 <= 2 * (X * 2) < 4294967296) as A1 by lia.
  assert (0 <= 2 * (X * 2) * 4 < 4294967296) as A2 by lia.
  rewrite (Z.mod_small (2 * (X * 2))) by exact A1.
  rewrite Z.mod_small by exact A2. cbn [offload skb_queue_len_max set_offload].
  split; lia.
Qed.

Lemma init_queue_len_max_formula_witness :
  skb_queue_len_max
    (offload (priv (after (can_rx_offload_init_queue 8)
                          (world0 CAN_STATE_STOPPED)))) = 16 * 2 ^ Z.log2 8 /\
  2 * spec_queue_len_max 8 <= 16 * 2 ^ Z.log2 8.
Proof.
  apply (init_queue_len_max_formula 8 (world0 CAN_STATE_STOPPED)). lia.
Defined.

(** C3.  What the code does at the limit: after
    [can_rx_offload_init_queue] with the driver's weight, a drain from a
    FIFO that stays ready queues 129 frames under a limit of 128 before
    it discards one; the test for a full queue is a strict [>]. *)
Theorem offload_queue_exceeds_len_max :
  let env := const_env FLEXCAN_IFLAG_RX_FIFO_AVAILABLE true 0 in
  let w0 := after (can_rx_offload_init_queue FLEXCAN_NAPI_WEIGHT)
                  (world0 CAN_STATE_ERROR_ACTIVE) in
  let w1 := after (can_rx_offload_irq_offload_fifo env 200) w0 in
  skb_queue_len_max (offload (priv w1)) = 128 /\
  result (can_rx_offload_irq_offload_fifo env 200) w0 = Some 129 /\
  skb_queue_len (offload (priv w1)) = 129 /\
  rx_dropped (stats (priv w1)) = 1.
Proof. vm_compute. repeat split. Qed.

(** The mailbox read leaves the driver's memory alone, and hands out no
    buffer when told to drop. *)
Lemma mailbox_read_priv env drop w :
  priv (after (flexcan_mailbox_read env drop None) w) = priv w /\
  (drop = true -> snd (result (flexcan_mailbox_read env drop None) w) = None).
Proof.
  unfold flexcan_mailbox_read, alloc_can_skb. drv.
  destruct (tst _ FLEXCAN_IFLAG_RX_FIFO_AVAILABLE); cbn [negb]; drv;
    [|split; [reflexivity|intros; reflexivity]].
  destruct drop; cbn [negb]; drv; [split; [reflexivity|intros; reflexivity]|].
  destruct (skb_alloc env _); drv; split; try reflexivity; intros; discriminate.
Qed.

Lemma offload_one_queue env w :
  let r := result (can_rx_offload_offload_one env) w in
  let w' := after (can_rx_offload_offload_one env) w in
  offload (priv w') = offload (priv w) /\
  (is_Some r ->
   skb_queue_len (offload (priv w)) <= skb_queue_len_max (offload (priv w))).
Proof.
  cbv zeta. unfold can_rx_offload_offload_one, modify_stats. drv.
  set (drop := skb_queue_len (offload (priv w)) >? skb_queue_len_max (offload (priv w))).
  destruct (mailbox_read_priv env drop w) as (Hp & Hd).
  split.
  - destruct (_ && _); drv; rewrite Hp; reflexivity.
  - intros Hs. destruct (Z.gtb_spec (skb_queue_len (offload (priv w)))
                                    (skb_queue_len_max (offload (priv w)))) as [Hgt|Hle];
      [|exact Hle].
    rewrite (Hd eq_refl) in Hs. destruct Hs as [? Hs]. discriminate Hs.
Qed.

(** The software queue never grows past its limit plus one, whatever the
    device and the allocator do and however long the drain runs. *)
Lemma offload_fifo_loop_bound env fuel received w :
  let w' := after (offload_fifo_loop env fuel received) w in
  skb_queue_len (offload (priv w)) <= skb_queue_len_max (offload (priv w)) + 1 ->
  skb_queue_len_max (offload (priv w')) = skb_queue_len_max (offload (priv w)) /\
  skb_queue_len (offload (priv w')) <= skb_queue_len_max (offload (priv w)) + 1.
Proof.
  cbv zeta. revert received w. induction fuel as [|fuel IH]; intros received w Hb.
  - cbn. split; [reflexivity|exact Hb].
  - cbn [offload_fifo_loop]. rewrite after_bind.
    destruct (offload_one_queue env w) as (Ho & Hs). cbv zeta in *.
    revert Ho Hs.
    generalize (result (can_rx_offload_offload_one env) w)
               (after (can_rx_offload_offload_one env) w).
    intros [cf|] w1 Ho Hs.
    + rewrite after_bind. unfold skb_queue_tail at 1 2. rewrite after_modify_priv.
      match goal with |- context [after (offload_fifo_loop env fuel ?r) ?w0] =>
        specialize (IH r w0); set (w2 := w0) in * end.
      assert (offload (priv w2) =
              mk_offload (skb_queue (offload (priv w)) ++ [cf])
                         (skb_queue_len_max (offload (priv w)))) as Hw2
        by (unfold w2; cbn; rewrite Ho; reflexivity).
      clearbody w2. rewrite Hw2 in IH. cbn [skb_queue skb_queue_len_max] in IH.
      specialize (Hs (ex_intro _ cf eq_refl)).
      unfold skb_queue_len in *. cbn [skb_queue] in IH.
      rewrite length_app in IH. cbn [length] in IH.
      apply IH. lia.
    + rewrite after_ret, Ho. split; [reflexivity|exact Hb].
Qed.

(** X1.  The software queue never grows past its limit plus one,
    whatever the device and the allocator do and however long the drain
    runs; the limit itself is not changed. *)
Lemma irq_offload_fifo_bound env fuel w :
  let w' := after (can_rx_offload_irq_offload_fifo env fuel) w in
  skb_queue_len (offload (priv w)) <= skb_queue_len_max (offload (priv w)) + 1 ->
  skb_queue_len_max (offload (priv w')) = skb_queue_len_max (offload (priv w)) /\
  skb_queue_len (offload (priv w')) <= skb_queue_len_max (offload (priv w)) + 1.
Proof.
  cbv zeta. intros Hb. unfold can_rx_offload_irq_offload_fifo. rewrite after_bind.
  pose proof (offload_fifo_loop_bound env fuel 0 w Hb) as H. cbv zeta in H.
  destruct (result (offload_fifo_loop env fuel 0) w) as [received|];
    [|rewrite after_ret; exact H].
  unfold can_rx_offload_schedule.
  destruct (negb (received =? 0)); drv; exact H.
Qed.

Lemma irq_offload_fifo_bound_witness :
  skb_queue_len
    (offload (priv (after (can_rx_offload_irq_offload_fifo
                             (const_env FLEXCAN_IFLAG_RX_FIFO_AVAILABLE true 0) 5)
                          (world_queue 127)))) <= 128 + 1.
Proof.
  refine (proj2 (irq_offload_fifo_bound
                   (const_env FLEXCAN_IFLAG_RX_FIFO_AVAILABLE true 0) 5
                   (world_queue 127) _)).
  vm_compute. discriminate.
Defined.

(** Above the limit a frame that is ready in the FIFO is read away:
    nothing is queued, the drop counter goes up by one, and the FIFO is
    acknowledged (flag rewritten, timer read). *)
Lemma offload_one_drops env w :
  skb_queue_len (offload (priv w)) > skb_queue_len_max (offload (priv w)) ->
  tst (u32 (hw_read env (clock w) IFLAG1 (regs w)))
      FLEXCAN_IFLAG_RX_FIFO_AVAILABLE = true ->
  let w' := after (can_rx_offload_offload_one env) w in
  result (can_rx_offload_offload_one env) w = None /\
  offload (priv w') = offload (priv w) /\
  rx_dropped (stats (priv w')) = ulong (rx_dropped (stats (priv w)) + 1) /\
  new_events w w' =
    [EvRead IFLAG1 (u32 (hw_read env (clock w) IFLAG1 (regs w)));
     EvWrite IFLAG1 FLEXCAN_IFLAG_RX_FIFO_AVAILABLE;
     EvRead TIMER
       (u32 (hw_read env (S (clock w)) TIMER
               (upd IFLAG1 FLEXCAN_IFLAG_RX_FIFO_AVAILABLE (regs w))))].
Proof.
  intros Hgt Hav. cbv zeta.
  unfold can_rx_offload_offload_one, flexcan_mailbox_read, modify_stats. drv.
  rewrite Hav. cbn [negb].
  replace (skb_queue_len (offload (priv w)) >? skb_queue_len_max (offload (priv w)))
    with true by (symmetry; apply Z.gtb_lt; lia).
  cbn [negb]. drv. cbn [fst snd]. drv.
  change (negb (1 =? 0) && negb (bool_decide (is_Some (@None can_frame)))) with true.
  cbv iota. drv. repeat split.
  apply new_events_trace_app. cbn [trace]. rewrite <- !app_assoc. reflexivity.
Qed.

(** X2.  The overflow policy: above the limit a frame that is ready in
    the FIFO is read away; nothing is queued, the drop counter goes up
    by one, and the hardware is still acknowledged (flag rewritten,
    timer read). *)
Theorem offload_overflow_policy env w :
  skb_queue_len (offload (priv w)) > skb_queue_len_max (offload (priv w)) ->
  tst (u32 (hw_read env (clock w) IFLAG1 (regs w)))
      FLEXCAN_IFLAG_RX_FIFO_AVAILABLE = true ->
  let w' := after (can_rx_offload_offload_one env) w in
  result (can_rx_offload_offload_one env) w = None /\
  offload (priv w') = offload (priv w) /\
  rx_dropped (stats (priv w')) = ulong (rx_dropped (stats (priv w)) + 1) /\
  new_events w w' =
    [EvRead IFLAG1 (u32 (hw_read env (clock w) IFLAG1 (regs w)));
     EvWrite IFLAG1 FLEXCAN_IFLAG_RX_FIFO_AVAILABLE;
     EvRead TIMER
       (u32 (hw_read env (S (clock w)) TIMER
               (upd IFLAG1 FLEXCAN_IFLAG_RX_FIFO_AVAILABLE (regs w))))].
Proof. exact (offload_one_drops env w). Qed.

Lemma offload_overflow_policy_witness :
  result (can_rx_offload_offload_one
            (const_env FLEXCAN_IFLAG_RX_FIFO_AVAILABLE true 0))
         (world_queue 129) = None /\
  rx_dropped (stats (priv (after (can_rx_offload_offload_one
                                    (const_env FLEXCAN_IFLAG_RX_FIFO_AVAILABLE true 0))
                                 (world_queue 129)))) = 1.
Proof.
  destruct (offload_overflow_policy
              (const_env FLEXCAN_IFLAG_RX_FIFO_AVAILABLE true 0)
              (world_queue 129)) as (H1 & _ & H3 & _).
  - vm_compute. reflexivity.
  - reflexivity.
  - split; [exact H1|exact H3].
Defined.

(** With a frame ready and a buffer to be had, the mailbox read hands
    back a frame. *)
Lemma mailbox_read_accepts env w :
  tst (u32 (hw_read env (clock w) IFLAG1 (regs w)))
      FLEXCAN_IFLAG_RX_FIFO_AVAILABLE = true ->
  skb_alloc env (S (clock w)) = true ->
  fst (result (flexcan_mailbox_read env false None) w) = 1 /\
  is_Some (snd (result (flexcan_mailbox_read env false None) w)).
Proof.
  intros Hav Hal. unfold flexcan_mailbox_read.
  rewrite result_bind, result_read, Hav. cbn [negb].
  rewrite result_bind, result_alloc_can_skb, after_alloc_can_skb, after_read.
  cbn [clock]. rewrite Hal.
  rewrite !result_bind, !result_ret. cbn [fst snd].
  split; [reflexivity|]. eexists. reflexivity.
Qed.

(** At or below the limit a frame that is ready is decoded and handed
    back for queueing, when a buffer can be had. *)
Lemma offload_one_accepts env w :
  skb_queue_len (offload (priv w)) <= skb_queue_len_max (offload (priv w)) ->
  tst (u32 (hw_read env (clock w) IFLAG1 (regs w)))
      FLEXCAN_IFLAG_RX_FIFO_AVAILABLE = true ->
  skb_alloc env (S (clock w)) = true ->
  let w' := after (can_rx_offload_offload_one env) w in
  is_Some (result (can_rx_offload_offload_one env) w) /\ priv w' = priv w.
Proof.
  intros Hle Hav Hal. cbv zeta.
  unfold can_rx_offload_offload_one, modify_stats.
  rewrite !result_bind, !after_bind, result_ret, after_ret.
  change (result get_priv w) with (priv w). change (after get_priv w) with w.
  replace (skb_queue_len (offload (priv w)) >? skb_queue_len_max (offload (priv w)))
    with false by (symmetry; rewrite Z.gtb_ltb; apply Z.ltb_ge; lia).
  destruct (mailbox_read_accepts env w Hav Hal) as (H1 & H2).
  destruct (mailbox_read_priv env false w) as (Hp & _).
  split; [exact H2|].
  rewrite H1. destruct H2 as [cf ->]. cbn. exact Hp.
Qed.

(** The poll path with a quota of one takes exactly one frame off a
    queue that is not empty. *)
Lemma napi_poll_one cf q lim w :
  offload (priv w) = mk_offload (cf :: q) lim ->
  result (can_rx_offload_napi_poll 1) w = 1 /\
  offload (priv (after (can_rx_offload_napi_poll 1) w)) = mk_offload q lim /\
  rx_dropped (stats (priv (after (can_rx_offload_napi_poll 1) w))) =
    rx_dropped (stats (priv w)) /\
  delivered_frames (new_events w (after (can_rx_offload_napi_poll 1) w)) = [cf].
Proof.
  intros Ho. unfold can_rx_offload_napi_poll.
  change (Z.to_nat 1) with 1%nat. cbn [napi_poll_loop].
  unfold skb_dequeue, modify_stats. drv. rewrite Ho. cbn [skb_queue skb_queue_len_max].
  drv. change (0 + 1 <? 1) with false. cbv iota. change (0 + 1) with 1.
  drv. repeat split.
  erewrite new_events_trace_app
    by (cbn [trace]; rewrite <- !app_assoc; reflexivity).
  reflexivity.
Qed.

(** X3.  Once the queue has grown to its limit plus one, taking one
    frame out through the poll path lets the drain accept exactly one
    more: the next ready frame is queued and the one after it is
    discarded. *)
Lemma freed_slot_takes_one env fuel w :
  0 <= skb_queue_len_max (offload (priv w)) ->
  skb_queue_len (offload (priv w)) = skb_queue_len_max (offload (priv w)) + 1 ->
  (forall n f, tst (u32 (hw_read env n IFLAG1 f))
                   FLEXCAN_IFLAG_RX_FIFO_AVAILABLE = true) ->
  (forall n, skb_alloc env n = true) ->
  (2 <= fuel)%nat ->
  let w1 := after (can_rx_offload_napi_poll 1) w in
  let w2 := after (can_rx_offload_irq_offload_fifo env fuel) w1 in
  result (can_rx_offload_napi_poll 1) w = 1 /\
  skb_queue_len (offload (priv w1)) = skb_queue_len_max (offload (priv w)) /\
  result (can_rx_offload_irq_offload_fifo env fuel) w1 = Some 1 /\
  skb_queue_len (offload (priv w2)) = skb_queue_len_max (offload (priv w)) + 1 /\
  rx_dropped (stats (priv w2)) = ulong (rx_dropped (stats (priv w)) + 1).
Proof.
  intros Hmax Hlen Hav Hal Hfuel. cbv zeta.
  destruct (offload (priv w)) as [queue lim] eqn:Ho.
  unfold skb_queue_len in Hlen. cbn [skb_queue skb_queue_len_max] in *.
  destruct queue as [|cf q]; [cbn in Hlen; lia|].
  destruct (napi_poll_one cf q lim w Ho) as (R1 & O1 & D1 & _).
  revert R1 O1 D1.
  generalize (result (can_rx_offload_napi_poll 1) w)
             (after (can_rx_offload_napi_poll 1) w).
  intros r1 w1 R1 O1 D1. rewrite <- D1. clear D1.
  assert (skb_queue_len (offload (priv w1)) = lim) as L1.
  { rewrite O1. unfold skb_queue_len. cbn [skb_queue length] in *. lia. }
  split; [exact R1|]. split; [exact L1|].
  destruct fuel as [|[|fuel]]; try lia.
  unfold can_rx_offload_irq_offload_fifo. rewrite result_bind, after_bind.
  cbn [offload_fifo_loop].
  (* first round: the frame is accepted *)
  destruct (offload_one_accepts env w1) as (S1 & P1);
    [rewrite O1 in *; cbn [skb_queue_len_max]; lia | apply Hav | apply Hal |].
  cbv zeta in *. rewrite result_bind, after_bind.
  revert S1 P1.
  generalize (result (can_rx_offload_offload_one env) w1)
             (after (can_rx_offload_offload_one env) w1).
  intros r2 w2 [cf2 ->] P2.
  rewrite result_bind, after_bind. unfold skb_queue_tail. rewrite after_modify_priv.
  rewrite P2, O1. cbn [skb_queue skb_queue_len_max].
  (* second round: the queue is above its limit, the frame is dropped *)
  rewrite result_bind, after_bind.
  match goal with |- context [after (can_rx_offload_offload_one env) ?w0] =>
    destruct (offload_one_drops env w0) as (R3 & O3 & D3 & _);
      [cbn [priv offload set_offload skb_queue skb_queue_len_max];
       unfold skb_queue_len; cbn [skb_queue]; rewrite length_app; cbn [length] in *; lia
      | apply Hav | ];
    cbv zeta in R3, O3, D3; revert R3 O3 D3;
    generalize (result (can_rx_offload_offload_one env) w0)
               (after (can_rx_offload_offload_one env) w0)
  end.
  intros r3 w3 -> O3 D3. cbn [priv offload set_offload stats] in O3, D3.
  rewrite result_ret, after_ret. change (0 + 1) with 1.
  change (negb (1 =? 0)) with true. cbv iota.
  unfold can_rx_offload_schedule. drv.
  split; [reflexivity|]. rewrite O3, D3. split; [|reflexivity].
  unfold skb_queue_len. cbn [skb_queue]. rewrite length_app. cbn [length] in *. lia.
Qed.

Lemma freed_slot_takes_one_witness :
  result (can_rx_offload_irq_offload_fifo
            (const_env FLEXCAN_IFLAG_RX_FIFO_AVAILABLE true 0) 5)
         (after (can_rx_offload_napi_poll 1) (world_queue 129)) = Some 1.
Proof.
  refine (proj1 (proj2 (proj2 (freed_slot_takes_one
            (const_env FLEXCAN_IFLAG_RX_FIFO_AVAILABLE true 0) 5
            (world_queue 129) _ _ _ _ _)))).
  - vm_compute. discriminate.
  - vm_compute. reflexivity.
  - intros n f. reflexivity.
  - intros n. reflexivity.
  - lia.
Defined.

(** The drain always leaves its loop: every round but the last adds a
    frame to a queue that is bounded. *)
Lemma offload_fifo_loop_terminates env fuel received w :
  skb_queue_len (offload (priv w)) <= skb_queue_len_max (offload (priv w)) + 1 ->
  (Z.to_nat (skb_queue_len_max (offload (priv w)) + 2
             - skb_queue_len (offload (priv w))) <= fuel)%nat ->
  is_Some (result (offload_fifo_loop env fuel received) w).
Proof.
  revert received w. induction fuel as [|fuel IH]; intros received w Hb Hf.
  - exfalso. lia.
  - cbn [offload_fifo_loop]. rewrite result_bind.
    destruct (offload_one_queue env w) as (Ho & Hs). cbv zeta in *.
    revert Ho Hs.
    generalize (result (can_rx_offload_offload_one env) w)
               (after (can_rx_offload_offload_one env) w).
    intros [cf|] w1 Ho Hs; [|eexists; reflexivity].
    rewrite result_bind. unfold skb_queue_tail. rewrite after_modify_priv.
    match goal with |- context [result (offload_fifo_loop env fuel ?r) ?w0] =>
      specialize (IH r w0); set (w2 := w0) in * end.
    assert (offload (priv w2) =
            mk_offload (skb_queue (offload (priv w)) ++ [cf])
                       (skb_queue_len_max (offload (priv w)))) as Hw2
      by (unfold w2; cbn; rewrite Ho; reflexivity).
    clearbody w2. rewrite Hw2 in IH. cbn [skb_queue skb_queue_len_max] in IH.
    specialize (Hs (ex_intro _ cf eq_refl)).
    unfold skb_queue_len in *. cbn [skb_queue] in IH.
    rewrite length_app in IH. cbn [length] in IH.
    apply IH; lia.
Qed.

Lemma irq_offload_fifo_terminates env fuel w :
  skb_queue_len (offload (priv w)) <= skb_queue_len_max (offload (priv w)) + 1 ->
  (Z.to_nat (skb_queue_len_max (offload (priv w)) + 2
             - skb_queue_len (offload (priv w))) <= fuel)%nat ->
  is_Some (result (can_rx_offload_irq_offload_fifo env fuel) w).
Proof.
  intros Hb Hf. unfold can_rx_offload_irq_offload_fifo. rewrite result_bind.
  destruct (offload_fifo_loop_terminates env fuel 0 w Hb Hf) as [n ->].
  rewrite result_bind, result_ret. eexists. reflexivity.
Qed.

(** ** Interrupt dispatcher *)

(** C5.  What the code does with nothing pending: both the interrupt
    flags and the status word read as zero, the local [handled] ends as
    [IRQ_NONE], and the function returns [IRQ_HANDLED] all the same. *)
Theorem flexcan_napi_irq_idle_is_handled fuel w :
  let env := const_env 0 true 0 in
  result (flexcan_read env IFLAG1) w = 0 /\
  result (flexcan_read env ESR) w = 0 /\
  result (flexcan_napi_irq_body env fuel) w = Some IRQ_NONE /\
  result (flexcan_napi_irq env fuel) w = Some IRQ_HANDLED.
Proof. repeat split. Qed.

(** The dispatcher has one return value. *)
Lemma flexcan_napi_irq_constant env fuel w :
  result (flexcan_napi_irq env fuel) w = None \/
  result (flexcan_napi_irq env fuel) w = Some IRQ_HANDLED.
Proof.
  unfold flexcan_napi_irq. rewrite result_bind.
  destruct (result (flexcan_napi_irq_body env fuel) w); [right|left]; reflexivity.
Qed.

(** X4.  With fuel for the drain (the queue limit plus two rounds always
    suffice) the dispatcher returns, and what it returns is
    [IRQ_HANDLED] whatever the flags were. *)
Lemma flexcan_napi_irq_returns env fuel w :
  skb_queue_len (offload (priv w)) <= skb_queue_len_max (offload (priv w)) + 1 ->
  (Z.to_nat (skb_queue_len_max (offload (priv w)) + 2
             - skb_queue_len (offload (priv w))) <= fuel)%nat ->
  result (flexcan_napi_irq env fuel) w = Some IRQ_HANDLED.
Proof.
  intros Hb Hf. unfold flexcan_napi_irq. rewrite result_bind.
  assert (is_Some (result (flexcan_napi_irq_body env fuel) w)) as [h ->];
    [|reflexivity].
  unfold flexcan_napi_irq_body.
  rewrite result_bind, result_bind, result_bind.
  rewrite !after_read. cbn [priv regs clock trace].
  destruct (tst _ FLEXCAN_IFLAG_RX_FIFO_AVAILABLE).
  - rewrite result_bind.
    match goal with |- context [result (can_rx_offload_irq_offload_fifo env fuel) ?w0] =>
      destruct (irq_offload_fifo_terminates env fuel w0 Hb Hf) as [n ->] end.
    rewrite result_ret. rewrite !result_bind, !result_ret. eexists. reflexivity.
  - rewrite result_ret. rewrite !result_bind, !result_ret. eexists. reflexivity.
Qed.

Lemma flexcan_napi_irq_returns_witness :
  result (flexcan_napi_irq (const_env FLEXCAN_IFLAG_RX_FIFO_AVAILABLE true 0) 3)
         (world_queue 127) = Some IRQ_HANDLED.
Proof.
  apply (flexcan_napi_irq_returns
           (const_env FLEXCAN_IFLAG_RX_FIFO_AVAILABLE true 0) 3 (world_queue 127)).
  - vm_compute. discriminate.
  - vm_compute. lia.
Defined.

(** ** Chip control: the waits and the stop *)

Lemma busy_wait_us_app l1 l2 :
  busy_wait_us (l1 ++ l2) = busy_wait_us l1 + busy_wait_us l2.
Proof.
  unfold busy_wait_us. induction l1 as [|e l1 IH]; cbn; [reflexivity|].
  rewrite IH. destruct e; lia.
Qed.

(** The shape of a poll: at most [t] rounds, each a read and a pause,
    and the driver's memory and the registers are as before. *)
Lemma spin_mcr_run env t cond pause w :
  exists (n : nat) l,
    after (spin_mcr env t cond pause) w =
      mk_world (priv w) (regs w) (clock w + n) (trace w ++ l) /\
    (n <= t)%nat /\
    (is_mcr_poll pause = true -> forallb is_mcr_poll l = true) /\
    (forall us, pause = EvUdelay us -> 0 <= us ->
       0 <= busy_wait_us l <= us * Z.of_nat t) /\
    (forall f, f pause = true -> (forall v, f (EvRead MCR v) = false) ->
       (count_events f l <= t)%nat) /\
    (is_reg_read pause = false -> count_events is_reg_read l = n) /\
    (is_reg_write pause = false -> count_events is_reg_write l = 0%nat).
Proof.
  revert w. induction t as [|t IH]; intros w.
  - exists 0%nat, []. cbn [spin_mcr]. rewrite after_ret, app_nil_r, Nat.add_0_r.
    destruct w; repeat split; cbn; intros; try lia.
  - cbn [spin_mcr]. drv. destruct (cond _) eqn:Hc; drv.
    + match goal with |- context [after (spin_mcr env t cond pause) ?w0] =>
        destruct (IH w0) as (n & l & -> & Hn & Hp & Hb & Hk & Hrd & Hwr) end.
      cbn [priv regs clock trace].
      eexists (S n), (_ :: pause :: l).
      split; [|split; [lia|split; [|split; [|split; [|split]]]]].
      * rewrite <- !app_assoc. cbn [app]. f_equal. lia.
      * intros Hpp. cbn [forallb is_mcr_poll]. rewrite Hpp, (Hp Hpp). reflexivity.
      * intros us -> Hus. specialize (Hb us eq_refl Hus).
        cbn [busy_wait_us foldr]. fold (busy_wait_us l). lia.
      * intros f Hf Hr. specialize (Hk f Hf Hr). unfold count_events in *.
        cbn [List.filter]. rewrite Hr, Hf. cbn [length]. lia.
      * intros Hf. specialize (Hrd Hf). unfold count_events in *.
        cbn [List.filter is_reg_read]. rewrite Hf. cbn [length]. lia.
      * intros Hf. specialize (Hwr Hf). unfold count_events in *.
        cbn [List.filter is_reg_write]. rewrite Hf. exact Hwr.
    + eexists 1%nat, [_]. split; [|split; [lia|split; [|split; [|split; [|split]]]]].
      * f_equal. lia.
      * intros _. reflexivity.
      * intros us _ Hus. cbn. lia.
      * intros f _ Hr. unfold count_events. cbn [List.filter]. rewrite Hr. cbn. lia.
      * intros _. reflexivity.
      * intros _. reflexivity.
Qed.

(** The tail the chip-control routines share: poll, then one last read
    that decides. *)
Lemma chip_wait_tail env (c : Z -> bool) w :
  let m := (spin_mcr env (Z.to_nat (FLEXCAN_TIMEOUT_US / 10)) c (EvUdelay 20) ;;
            v <- flexcan_read env MCR ;;
            if c v then ret (- ETIMEDOUT) else ret 0) in
  exists l v,
    trace (after m w) = trace w ++ l ++ [EvRead MCR v] /\
    result m w = (if c v then - ETIMEDOUT else 0) /\
    forallb is_mcr_poll l = true /\
    0 <= busy_wait_us l <= 100 /\
    priv (after m w) = priv w /\
    (clock (after m w) <= clock w + 6)%nat /\
    regs (after m w) = regs w /\
    (count_events is_reg_read l <= 5)%nat /\
    count_events is_reg_write l = 0%nat.
Proof.
  cbv zeta. rewrite !after_bind, !result_bind.
  match goal with |- context [after (spin_mcr env ?t c ?p) ?w0] =>
    destruct (spin_mcr_run env t c p w0)
      as (n & l & -> & Hn & Hp & Hb & _ & Hrd & Hwr) end.
  specialize (Hrd eq_refl). specialize (Hwr eq_refl).
  rewrite after_read, result_read. cbn [priv regs clock trace].
  set (v := u32 (hw_read env _ MCR (regs w))).
  specialize (Hb 20 eq_refl ltac:(lia)).
  change (Z.of_nat (Z.to_nat (FLEXCAN_TIMEOUT_US / 10))) with 5 in Hb.
  change (Z.to_nat (FLEXCAN_TIMEOUT_US / 10)) with 5%nat in Hn.
  exists l, v.
  destruct (c v); rewrite after_ret, result_ret; cbn [priv regs clock trace];
    rewrite <- app_assoc; repeat split; auto; lia.
Qed.

Ltac solve_bounded_wait env c :=
  cbv zeta;
  repeat first
    [ rewrite (after_bind (flexcan_read _ _)), (result_bind (flexcan_read _ _))
    | rewrite (after_bind (flexcan_write _ _)), (result_bind (flexcan_write _ _)) ];
  rewrite ?after_read, ?result_read, ?after_write; cbn [priv regs clock trace];
  let l := fresh "l" in let v := fresh "v" in
  let Ht := fresh "Ht" in let Hr := fresh "Hr" in let Hl := fresh "Hl" in
  let Hb := fresh "Hb" in let Hp := fresh "Hp" in let Hc := fresh "Hc" in
  let Hg := fresh "Hg" in
  let Hrd := fresh "Hrd" in let Hwr := fresh "Hwr" in
  match goal with |- context [after ?m ?w0] =>
    destruct (chip_wait_tail env c w0)
      as (l & v & Ht & Hr & Hl & Hb & Hp & Hc & Hg & Hrd & Hwr);
    cbv zeta in Ht, Hr, Hp, Hc, Hg;
    let wf := fresh "wf" in set (wf := after m w0) in *; clearbody wf
  end;
  cbn [priv regs clock trace] in Ht, Hp, Hc, Hg;
  rewrite <- !app_assoc in Ht;
  match type of Ht with
  | _ = _ ++ ?a ++ ?b ++ l ++ _ => exists (a ++ b ++ l), v
  | _ = _ ++ ?a ++ l ++ _ => exists (a ++ l), v
  end;
  rewrite Hr, Hp, Hg;
  split; [rewrite Ht, <- !app_assoc; reflexivity|];
  split; [reflexivity|];
  split; [cbn [app forallb is_mcr_poll andb]; exact Hl|];
  split; [rewrite !busy_wait_us_app; cbn [busy_wait_us foldr]; lia|];
  split; [reflexivity|];
  split; [lia|];
  split; [let r := fresh "r" in let Hn := fresh "Hn" in
          intros r Hn; apply upd_other; congruence|];
  rewrite !count_events_app;
  change (count_events is_reg_read [EvRead MCR ?x]) with 1%nat;
  change (count_events is_reg_read [EvWrite MCR ?x]) with 0%nat;
  change (count_events is_reg_write [EvRead MCR ?x]) with 0%nat;
  change (count_events is_reg_write [EvWrite MCR ?x]) with 1%nat;
  split; lia.

Lemma chip_enable_bounded env w :
  bounded_wait (fun v => tst v FLEXCAN_MCR_LPM_ACK) (flexcan_chip_enable env) w.
Proof.
  unfold bounded_wait, flexcan_chip_enable.
  solve_bounded_wait env (fun v => tst v FLEXCAN_MCR_LPM_ACK).
Qed.

Lemma chip_disable_bounded env w :
  bounded_wait (fun v => negb (tst v FLEXCAN_MCR_LPM_ACK)) (flexcan_chip_disable env) w.
Proof.
  unfold bounded_wait, flexcan_chip_disable.
  solve_bounded_wait env (fun v => negb (tst v FLEXCAN_MCR_LPM_ACK)).
Qed.

Lemma chip_unfreeze_bounded env w :
  bounded_wait (fun v => tst v FLEXCAN_MCR_FRZ_ACK) (flexcan_chip_unfreeze env) w.
Proof.
  unfold bounded_wait, flexcan_chip_unfreeze.
  solve_bounded_wait env (fun v => tst v FLEXCAN_MCR_FRZ_ACK).
Qed.

Lemma chip_softreset_bounded env w :
  bounded_wait (fun v => tst v FLEXCAN_MCR_SOFTRST) (flexcan_chip_softreset env) w.
Proof.
  unfold bounded_wait, flexcan_chip_softreset.
  solve_bounded_wait env (fun v => tst v FLEXCAN_MCR_SOFTRST).
Qed.

(** X9.  Each of the four short chip-control routines ends with one
    read of the module-control register that alone decides between 0
    and [-ETIMEDOUT]; before it the routine touches nothing but that
    register, busy-waits at most 100 microseconds and writes the
    register once; with the last one it makes at most seven reads (so
    at most eight device accesses), and it leaves the driver's memory
    and the other registers as they were. *)
Theorem chip_control_bounded_wait env w :
  bounded_wait (fun v => tst v FLEXCAN_MCR_LPM_ACK) (flexcan_chip_enable env) w /\
  bounded_wait (fun v => negb (tst v FLEXCAN_MCR_LPM_ACK)) (flexcan_chip_disable env) w /\
  bounded_wait (fun v => tst v FLEXCAN_MCR_FRZ_ACK) (flexcan_chip_unfreeze env) w /\
  bounded_wait (fun v => tst v FLEXCAN_MCR_SOFTRST) (flexcan_chip_softreset env) w.
Proof.
  split; [apply chip_enable_bounded|]. split; [apply chip_disable_bounded|].
  split; [apply chip_unfreeze_bounded|apply chip_softreset_bounded].
Qed.

Lemma xceiver_after_mcr_poll l b :
  forallb is_mcr_poll l = true -> xceiver_after l b = b.
Proof.
  revert b. induction l as [|e l IH]; intros b H; [reflexivity|].
  cbn [forallb] in H. apply andb_true_iff in H as [He Hl].
  unfold xceiver_after in *. cbn [fold_left]. rewrite (IH _ Hl).
  destruct e; try discriminate He; reflexivity.
Qed.

Lemma tst_clr x m : tst (clr x m) m = false.
Proof.
  unfold tst, clr. rewrite <- Z.land_assoc, (Z.land_comm (Z.lnot m)), Z.land_lnot_diag.
  rewrite Z.land_0_r. reflexivity.
Qed.

(** The freeze wait, whatever its verdict: only the module-control
    register is touched. *)
Lemma chip_freeze_run env w :
  let w' := after (flexcan_chip_freeze env) w in
  exists l,
    trace w' = trace w ++ l /\ forallb is_mcr_poll l = true /\
    priv w' = priv w /\ forall r, r <> MCR -> regs w' r = regs w r.
Proof.
  cbv zeta. unfold flexcan_chip_freeze.
  rewrite after_bind. change (after get_priv w) with w.
  change (result get_priv w) with (priv w). cbv beta.
  rewrite after_bind, after_read, result_read, after_bind, after_write, after_bind.
  cbn [priv regs clock trace].
  match goal with |- context [after (spin_mcr env ?t ?c ?p) ?w0] =>
    destruct (spin_mcr_run env t c p w0) as (n & l & -> & _ & Hp & _) end.
  rewrite after_bind, after_read, result_read. cbn [priv regs clock trace].
  eexists ([_; _] ++ l ++ [_]).
  destruct (negb _); rewrite after_ret; cbn [priv regs clock trace];
    (split; [rewrite <- !app_assoc; reflexivity|]);
    (split; [cbn [app forallb is_mcr_poll andb]; rewrite forallb_app, (Hp eq_refl);
             reflexivity|]);
    (split; [reflexivity|]); intros r Hr; apply upd_other; congruence.
Qed.

Lemma transceiver_disable_run w :
  let w' := after flexcan_transceiver_disable w in
  exists l,
    trace w' = trace w ++ l /\ priv w' = priv w /\ regs w' = regs w /\
    forall b, xceiver_after l b =
              if transceiver_switch (priv w) || reg_xceiver (priv w)
              then false else b.
Proof.
  cbv zeta. unfold flexcan_transceiver_disable. drv.
  destruct (transceiver_switch (priv w)); drv.
  - exists [EvTransceiverSwitch false]. repeat split.
  - destruct (reg_xceiver (priv w)); cbn [negb]; drv.
    + exists [EvRegulatorDisable]. repeat split.
    + exists []. rewrite app_nil_r. repeat split.
Qed.

Lemma chip_stop_run env w :
  let w' := after (flexcan_chip_stop env) w in
  priv w' = set_state CAN_STATE_STOPPED (priv w) /\
  regs w' IMASK1 = 0 /\
  regs w' CTRL = clr (reg_ctrl_default (priv w)) FLEXCAN_CTRL_ERR_ALL /\
  Z.testbit (regs w' MCR) 31 = true /\
  (forall r, r <> MCR -> r <> IMASK1 -> r <> CTRL -> regs w' r = regs w r) /\
  exists l,
    trace w' = trace w ++ l /\
    forall b, xceiver_after l b =
              if transceiver_switch (priv w) || reg_xceiver (priv w)
              then false else b.
Proof.
  cbv zeta. unfold flexcan_chip_stop.
  rewrite after_bind.
  destruct (chip_freeze_run env w) as (l1 & T1 & M1 & P1 & G1). cbv zeta in *.
  revert T1 P1 G1. generalize (after (flexcan_chip_freeze env) w). intros w1 T1 P1 G1.
  rewrite after_bind.
  destruct (chip_disable_bounded env w1) as (l2 & v2 & T2 & _ & M2 & _ & P2 & _ & G2 & _).
  pose proof (chip_disable_sets_mdis env w1) as D2.
  revert T2 P2 G2 D2. generalize (after (flexcan_chip_disable env) w1).
  intros w2 T2 P2 G2 D2.
  rewrite after_bind, after_write, after_bind.
  change (after get_priv ?x) with x. change (result get_priv ?x) with (priv x).
  cbn [priv regs clock trace]. rewrite after_bind, after_write.
  cbn [priv regs clock trace]. rewrite after_bind.
  match goal with |- context [after flexcan_transceiver_disable ?w0] =>
    destruct (transceiver_disable_run w0) as (l3 & T3 & P3 & G3 & X3);
    cbv zeta in T3, P3, G3, X3; cbn [priv regs clock trace] in T3, P3, G3, X3;
    revert T3 P3 G3 X3; generalize (after flexcan_transceiver_disable w0)
  end.
  intros w3 T3 P3 G3 X3. rewrite after_modify_priv. cbn [priv regs clock trace].
  rewrite P2, P1 in *. rewrite P3, G3.
  split; [reflexivity|]. split; [reflexivity|]. split; [apply upd_same|].
  split; [rewrite !upd_other by discriminate; exact D2|].
  split.
  { intros r R1 R2 R3. rewrite !upd_other by congruence.
    rewrite G2 by exact R1. apply G1. exact R1. }
  exists (l1 ++ (l2 ++ [EvRead MCR v2]) ++
          [EvWrite IMASK1 0;
           EvWrite CTRL (clr (reg_ctrl_default (priv w)) FLEXCAN_CTRL_ERR_ALL)]
          ++ l3).
  split.
  - rewrite T3, T2, T1, <- !app_assoc. reflexivity.
  - intros b.
    rewrite !xceiver_after_app, (xceiver_after_mcr_poll l1) by exact M1.
    rewrite (xceiver_after_mcr_poll l2) by exact M2.
    cbn [xceiver_after fold_left xceiver_step]. apply X3.
Qed.

(** X10.  [flexcan_chip_stop] cannot fail: whether or not the freeze
    and the disable time out, it ends with the state STOPPED, every
    interrupt masked (the mask register zero, the four error-interrupt
    enables of the control word clear), the module-disable bit written,
    and the transceiver, if the board has a switch or a regulator for
    it, switched off; the rest of the driver's memory is as before. *)
Theorem flexcan_chip_stop_always_stops env w :
  let w' := after (flexcan_chip_stop env) w in
  priv w' = set_state CAN_STATE_STOPPED (priv w) /\
  regs w' IMASK1 = 0 /\
  regs w' CTRL = clr (reg_ctrl_default (priv w)) FLEXCAN_CTRL_ERR_ALL /\
  tst (regs w' CTRL) FLEXCAN_CTRL_ERR_ALL = false /\
  Z.testbit (regs w' MCR) 31 = true /\
  (forall b, xceiver_after (new_events w w') b =
             if transceiver_switch (priv w) || reg_xceiver (priv w)
             then false else b).
Proof.
  destruct (chip_stop_run env w) as (P & I & C & D & _ & l & T & X).
  cbv zeta. rewrite (new_events_trace_app _ _ _ T).
  repeat split; try assumption.
  rewrite C. apply tst_clr.
Qed.

(** ** Start sequence: what a successful start leaves *)

Lemma world_eta w : w = mk_world (priv w) (regs w) (clock w) (trace w).
Proof. destruct w; reflexivity. Qed.

Lemma quiet_app l1 l2 : quiet (l1 ++ l2) = quiet l1 && quiet l2.
Proof. apply forallb_app. Qed.

Lemma mcr_poll_quiet l : forallb is_mcr_poll l = true -> quiet l = true.
Proof.
  unfold quiet. induction l as [|e l IH]; cbn [forallb]; [reflexivity|].
  intros H. apply andb_true_iff in H as [He Hl]. rewrite (IH Hl), andb_true_r.
  destruct e; try discriminate He; reflexivity.
Qed.

Lemma xceiver_after_quiet l b : quiet l = true -> xceiver_after l b = b.
Proof.
  unfold quiet. revert b. induction l as [|e l IH]; intros b H; [reflexivity|].
  cbn [forallb] in H. apply andb_true_iff in H as [He Hl].
  unfold xceiver_after in *. cbn [fold_left]. rewrite (IH _ Hl).
  destruct e; try discriminate He; reflexivity.
Qed.

(** The shared tail as an equation between worlds. *)
Lemma chip_wait_tail_run env (c : Z -> bool) w :
  let m := (spin_mcr env (Z.to_nat (FLEXCAN_TIMEOUT_US / 10)) c (EvUdelay 20) ;;
            v <- flexcan_read env MCR ;;
            if c v then ret (- ETIMEDOUT) else ret 0) in
  exists ck l,
    after m w = mk_world (priv w) (regs w) ck (trace w ++ l) /\
    quiet l = true /\
    (result m w = 0 \/ result m w = - ETIMEDOUT).
Proof.
  cbv zeta.
  destruct (chip_wait_tail env c w) as (l & v & Ht & Hr & Hl & _ & Hp & _ & Hg & _).
  cbv zeta in *. rewrite Hr. revert Ht Hp Hg.
  generalize (after (spin_mcr env (Z.to_nat (FLEXCAN_TIMEOUT_US / 10)) c (EvUdelay 20) ;;
                     v <- flexcan_read env MCR ;;
                     if c v then ret (- ETIMEDOUT) else ret 0) w).
  intros wf Ht Hp Hg. exists (clock wf), (l ++ [EvRead MCR v]).
  split; [|split].
  - rewrite (world_eta wf) at 1. rewrite Ht, Hp, Hg. reflexivity.
  - rewrite quiet_app, (mcr_poll_quiet l Hl). reflexivity.
  - destruct (c v); auto.
Qed.

Ltac chip_run env c :=
  cbv zeta;
  repeat first
    [ rewrite (after_bind (flexcan_read _ _)), (result_bind (flexcan_read _ _))
    | rewrite (after_bind (flexcan_write _ _)), (result_bind (flexcan_write _ _)) ];
  rewrite ?after_read, ?result_read, ?after_write; cbn [priv regs clock trace];
  let ck := fresh "ck" in let l := fresh "l" in
  let E := fresh "E" in let Q := fresh "Q" in let R := fresh "R" in
  match goal with |- context [after ?m ?w0] =>
    destruct (chip_wait_tail_run env c w0) as (ck & l & E & Q & R);
    cbv zeta in E, R; cbn [priv regs clock trace] in E;
    rewrite E; clear E; revert R; generalize (result m w0); intros ? R
  end;
  eexists ck, _; split; [rewrite <- !app_assoc; reflexivity|];
  split; [cbn [app quiet forallb is_xceiver_event negb andb]; exact Q|exact R].

Lemma chip_enable_run env w :
  exists ck l,
    after (flexcan_chip_enable env) w =
      mk_world (priv w)
        (upd MCR (clr (u32 (hw_read env (clock w) MCR (regs w))) FLEXCAN_MCR_MDIS)
             (regs w))
        ck (trace w ++ l) /\
    quiet l = true /\
    (result (flexcan_chip_enable env) w = 0 \/
     result (flexcan_chip_enable env) w = - ETIMEDOUT).
Proof.
  unfold flexcan_chip_enable. chip_run env (fun v => tst v FLEXCAN_MCR_LPM_ACK).
Qed.

Lemma chip_disable_run env w :
  exists ck l,
    after (flexcan_chip_disable env) w =
      mk_world (priv w)
        (upd MCR (Z.lor (u32 (hw_read env (clock w) MCR (regs w))) FLEXCAN_MCR_MDIS)
             (regs w))
        ck (trace w ++ l) /\
    quiet l = true /\
    (result (flexcan_chip_disable env) w = 0 \/
     result (flexcan_chip_disable env) w = - ETIMEDOUT).
Proof.
  unfold flexcan_chip_disable.
  chip_run env (fun v => negb (tst v FLEXCAN_MCR_LPM_ACK)).
Qed.

Lemma chip_unfreeze_run env w :
  exists ck l,
    after (flexcan_chip_unfreeze env) w =
      mk_world (priv w)
        (upd MCR (clr (u32 (hw_read env (clock w) MCR (regs w))) FLEXCAN_MCR_HALT)
             (regs w))
        ck (trace w ++ l) /\
    quiet l = true /\
    (result (flexcan_chip_unfreeze env) w = 0 \/
     result (flexcan_chip_unfreeze env) w = - ETIMEDOUT).
Proof.
  unfold flexcan_chip_unfreeze. chip_run env (fun v => tst v FLEXCAN_MCR_FRZ_ACK).
Qed.

Lemma chip_softreset_run env w :
  exists ck l,
    after (flexcan_chip_softreset env) w =
      mk_world (priv w) (upd MCR FLEXCAN_MCR_SOFTRST (regs w)) ck (trace w ++ l) /\
    quiet l = true /\
    (result (flexcan_chip_softreset env) w = 0 \/
     result (flexcan_chip_softreset env) w = - ETIMEDOUT).
Proof.
  unfold flexcan_chip_softreset. chip_run env (fun v => tst v FLEXCAN_MCR_SOFTRST).
Qed.

Lemma set_bittiming_run env w :
  let p := priv w in
  let bt := bittiming p in
  exists l,
    after (flexcan_set_bittiming env) w =
      mk_world p
        (upd CTRL
           (bittiming_word (u32 (hw_read env (clock w) CTRL (regs w)))
              (u32 (brp bt - 1)) (u32 (phase_seg1 bt - 1)) (u32 (phase_seg2 bt - 1))
              (u32 (sjw bt - 1)) (u32 (prop_seg bt - 1))
              (tst (ctrlmode p) CAN_CTRLMODE_LOOPBACK)
              (tst (ctrlmode p) CAN_CTRLMODE_LISTENONLY)
              (tst (ctrlmode p) CAN_CTRLMODE_3_SAMPLES))
           (regs w))
        (S (clock w)) (trace w ++ l) /\
    quiet l = true.
Proof.
  cbv zeta. unfold flexcan_set_bittiming. drv.
  eexists [_; _; _]. rewrite <- !app_assoc. split; reflexivity.
Qed.

Lemma reset_mailbox_run i w :
  after (reset_mailbox i) w =
  mk_world (priv w)
    (upd (MB_CTRL i) (FLEXCAN_MB_CNT_CODE 0x4)
       (upd (MB_DATA1 i) 0 (upd (MB_DATA0 i) 0 (upd (MB_ID i) 0
          (upd (MB_CTRL i) 0 (regs w))))))
    (clock w)
    (trace w ++ [EvWrite (MB_CTRL i) 0; EvWrite (MB_ID i) 0; EvWrite (MB_DATA0 i) 0;
                 EvWrite (MB_DATA1 i) 0;
                 EvWrite (MB_CTRL i) (FLEXCAN_MB_CNT_CODE 0x4)]).
Proof. unfold reset_mailbox. drv. rewrite <- !app_assoc. reflexivity. Qed.

Lemma for_each_reset_run a n w :
  exists f l,
    after (for_each (seq a n) reset_mailbox) w =
      mk_world (priv w) f (clock w) (trace w ++ l) /\
    quiet l = true /\
    forall r, f r = parked a n (regs w) r.
Proof.
  revert a w. induction n as [|n IH]; intros a w.
  - exists (regs w), []. cbn [seq for_each]. rewrite after_ret, app_nil_r.
    split; [apply world_eta|]. split; [reflexivity|].
    intros r. unfold parked. rewrite Nat.add_0_r.
    assert (forall i, ((a <=? i) && (i <? a))%nat = false) as Hi.
    { intros i. destruct (Nat.leb_spec a i), (Nat.ltb_spec i a); try reflexivity; lia. }
    destruct r; rewrite ?Hi; reflexivity.
  - cbn [seq for_each]. rewrite after_bind, reset_mailbox_run.
    match goal with |- context [after _ ?w0] =>
      destruct (IH (S a) w0) as (f & l & -> & Q & Hf) end.
    cbn [priv regs clock trace] in *.
    eexists f, (_ ++ l). split; [rewrite <- app_assoc; reflexivity|].
    split; [rewrite quiet_app, Q; reflexivity|].
    intros r. rewrite Hf. unfold parked.
    assert (forall i, ((a <=? i) && (i <? a + S n))%nat =
                      ((i =? a)%nat || ((S a <=? i) && (i <? S a + n))%nat)) as Hi.
    { intros i. destruct (Nat.eqb_spec i a), (Nat.leb_spec a i), (Nat.ltb_spec i (a + S n)),
        (Nat.leb_spec (S a) i), (Nat.ltb_spec i (S a + n)); cbn; try reflexivity; lia. }
    destruct r; rewrite ?Hi;
      try (rewrite !upd_other by discriminate; reflexivity);
      match goal with |- context [(?i =? a)%nat] =>
        destruct (Nat.eqb_spec i a) as [->|Hne]; cbn [orb];
        [ destruct (_ && _)%nat; [reflexivity|];
          rewrite ?upd_same;
          repeat (rewrite upd_other by discriminate); rewrite ?upd_same; reflexivity
        | destruct (_ && _)%nat; [reflexivity|];
          rewrite !upd_other by congruence; reflexivity ]
      end.
Qed.

Lemma transceiver_enable_run env w :
  exists l,
    after (flexcan_transceiver_enable env) w =
      mk_world (priv w) (regs w) (clock w) (trace w ++ l) /\
    (result (flexcan_transceiver_enable env) w = 0 ->
     forall b, xceiver_after l b =
               if transceiver_switch (priv w) || reg_xceiver (priv w)
               then true else b).
Proof.
  unfold flexcan_transceiver_enable. drv.
  destruct (transceiver_switch (priv w)); drv.
  - exists [EvTransceiverSwitch true]. split; reflexivity.
  - destruct (reg_xceiver (priv w)); cbn [negb]; drv.
    + exists [EvRegulatorEnable (regulator_enable_ret env)]. split; [reflexivity|].
      intros -> b. reflexivity.
    + exists []. rewrite app_nil_r. split; [apply world_eta|reflexivity].
Qed.

Lemma out_chip_disable_result env err w :
  result (out_chip_disable env err) w = err.
Proof. unfold out_chip_disable. rewrite result_bind, result_ret. reflexivity. Qed.

Lemma out_transceiver_disable_result env err w :
  result (out_transceiver_disable env err) w = err.
Proof.
  unfold out_transceiver_disable. rewrite result_bind. apply out_chip_disable_result.
Qed.

Lemma testbit_u32 x i : 0 <= i < 32 -> Z.testbit (u32 x) i = Z.testbit x i.
Proof.
  intros Hi. rewrite u32_land, Z.land_spec, Z.ones_spec_low by lia. apply andb_true_r.
Qed.

(** One wait of the start sequence: split on its verdict. *)
Ltac start_wait lem env :=
  rewrite after_bind, result_bind;
  let ck := fresh "ck" in let l := fresh "l" in
  let E := fresh "E" in let Q := fresh "Q" in let R := fresh "R" in
  match goal with |- context [after (?f env) ?w0] =>
    destruct (lem env w0) as (ck & l & E & Q & R);
    cbn [priv regs clock trace] in E; rewrite E; clear E;
    destruct R as [R|R]; rewrite R; clear R;
    [ change (negb (0 =? 0)) with false; cbv iota
    | change (negb (- ETIMEDOUT =? 0)) with true; cbv iota;
      rewrite ?out_chip_disable_result, ?out_transceiver_disable_result, ?result_ret;
      let H := fresh in intros H; exfalso; discriminate H ]
  end.

Lemma chip_start_success env w :
  result (flexcan_chip_start env) w = 0 ->
  let w' := after (flexcan_chip_start env) w in
  let p := priv w in
  exists ck f v l,
    let reg_ctrl :=
      (let r := Z.lor (clr (u32 (hw_read env ck CTRL f)) FLEXCAN_CTRL_TSYN)
                  (Z.lor (Z.lor FLEXCAN_CTRL_BOFF_REC FLEXCAN_CTRL_LBUF)
                         FLEXCAN_CTRL_ERR_STATE) in
       if tst (features p) FLEXCAN_HAS_BROKEN_ERR_STATE
          || tst (ctrlmode p) CAN_CTRLMODE_BERR_REPORTING
       then Z.lor r FLEXCAN_CTRL_ERR_MSK else r) in
    (exists r0,
       f CTRL =
       bittiming_word r0
         (u32 (brp (bittiming p) - 1)) (u32 (phase_seg1 (bittiming p) - 1))
         (u32 (phase_seg2 (bittiming p) - 1)) (u32 (sjw (bittiming p) - 1))
         (u32 (prop_seg (bittiming p) - 1))
         (tst (ctrlmode p) CAN_CTRLMODE_LOOPBACK)
         (tst (ctrlmode p) CAN_CTRLMODE_LISTENONLY)
         (tst (ctrlmode p) CAN_CTRLMODE_3_SAMPLES)) /\
    priv w' = set_state CAN_STATE_ERROR_ACTIVE (set_reg_ctrl_default reg_ctrl p) /\
    regs w' IMASK1 = FLEXCAN_IFLAG_DEFAULT /\
    regs w' MCR = clr v FLEXCAN_MCR_HALT /\
    regs w' CTRL = reg_ctrl /\
    regs w' RXGMASK = 0 /\ regs w' RX14MASK = 0 /\ regs w' RX15MASK = 0 /\
    regs w' RXFGMASK =
      (if tst (features p) FLEXCAN_HAS_V10_FEATURES then 0 else regs w RXFGMASK) /\
    (forall i, (i < CANTXFG_SIZE)%nat ->
       regs w' (MB_CTRL i) = FLEXCAN_MB_CNT_CODE 0x4 /\ regs w' (MB_ID i) = 0 /\
       regs w' (MB_DATA0 i) = 0 /\ regs w' (MB_DATA1 i) = 0) /\
    trace w' = trace w ++ l /\
    xceiver_after l false = transceiver_switch p || reg_xceiver p.
Proof.
  unfold flexcan_chip_start. cbv zeta.
  start_wait chip_enable_run env.
  start_wait chip_softreset_run env.
  rewrite after_bind, result_bind.
  match goal with |- context [after (flexcan_set_bittiming env) ?w0] =>
    destruct (set_bittiming_run env w0) as (l1 & E & Q1);
    cbv zeta in E; cbn [priv regs clock trace] in E; rewrite E; clear E end.
  do 2 (rewrite after_bind, result_bind, ?after_read, ?result_read, ?after_write;
        cbn [priv regs clock trace]).
  rewrite after_bind, result_bind, after_read, result_read.
  cbn [priv regs clock trace].
  match goal with |- context [hw_read env ?ck CTRL ?f] =>
    set (ckc := ck); set (fc := f) end.
  rewrite after_bind, result_bind.
  change (after get_priv ?x) with x. change (result get_priv ?x) with (priv x).
  cbn [priv regs clock trace].
  set (reg_ctrl := if _ : bool then _ else _).
  rewrite after_bind, result_bind, after_modify_priv. cbn [priv regs clock trace].
  rewrite after_bind, result_bind, after_write. cbn [priv regs clock trace].
  rewrite after_bind, result_bind.
  match goal with |- context [after (for_each _ _) ?w0] =>
    destruct (for_each_reset_run 0 CANTXFG_SIZE w0) as (f1 & l2 & E & Q2 & F1);
    cbn [priv regs clock trace] in E, F1; rewrite E; clear E end.
  do 3 (rewrite after_bind, result_bind, after_write; cbn [priv regs clock trace]).
  rewrite after_bind, result_bind.
  set (wv := after (if tst (features (priv w)) FLEXCAN_HAS_V10_FEATURES then _ else _) _).
  assert (exists l3, wv = mk_world (set_reg_ctrl_default reg_ctrl (priv w))
                        (if tst (features (priv w)) FLEXCAN_HAS_V10_FEATURES
                         then upd RXFGMASK 0 (upd RX15MASK 0 (upd RX14MASK 0 (upd RXGMASK 0 f1)))
                         else upd RX15MASK 0 (upd RX14MASK 0 (upd RXGMASK 0 f1)))
                        (S ckc) l3 /\
                      exists l4, l3 = trace w ++ l4 /\ quiet l4 = true) as (l3 & -> & l4 & -> & Q4).
  { subst wv. destruct (tst (features (priv w)) FLEXCAN_HAS_V10_FEATURES).
    - rewrite after_write. cbn [priv regs clock trace]. eexists. split; [reflexivity|].
      eexists. rewrite <- !app_assoc. split; [reflexivity|].
      rewrite !quiet_app, Q, Q0, Q1, Q2. reflexivity.
    - rewrite after_ret. eexists. split; [reflexivity|].
      eexists. rewrite <- !app_assoc. split; [reflexivity|].
      rewrite !quiet_app, Q, Q0, Q1, Q2. reflexivity. }
  set (f2 := if tst (features (priv w)) FLEXCAN_HAS_V10_FEATURES then _ else _).
  rewrite after_bind, result_bind.
  match goal with |- context [after (flexcan_transceiver_enable env) ?w0] =>
    destruct (transceiver_enable_run env w0) as (l5 & E & X5);
    cbn [priv regs clock trace transceiver_switch reg_xceiver set_reg_ctrl_default] in E, X5;
    rewrite E; clear E; revert X5;
    generalize (result (flexcan_transceiver_enable env) w0); intros e3 X5
  end.
  destruct (Z.eqb_spec e3 0) as [->|He3]; cbn [negb]; cbv iota.
  2:{ rewrite out_chip_disable_result. intros; contradiction. }
  specialize (X5 eq_refl).
  start_wait chip_unfreeze_run env.
  intros _.
  rewrite after_bind, after_modify_priv, after_bind, after_write, after_ret.
  cbn [priv regs clock trace].
  match goal with |- context [clr (u32 (hw_read env ?ck MCR ?f)) FLEXCAN_MCR_HALT] =>
    exists ckc, fc, (u32 (hw_read env ck MCR f)) end.
  exists (l4 ++ l5 ++ l3 ++ [EvWrite IMASK1 FLEXCAN_IFLAG_DEFAULT]).
  cbv zeta. fold reg_ctrl.
  split; [eexists; subst fc; cbv beta; rewrite upd_other by discriminate; apply upd_same|].
  split; [reflexivity|].
  split; [apply upd_same|].
  split; [rewrite upd_other by discriminate; apply upd_same|].
  assert (forall r, r <> RXFGMASK -> r <> RX15MASK -> r <> RX14MASK -> r <> RXGMASK ->
                    f2 r = parked 0 CANTXFG_SIZE (upd CTRL reg_ctrl fc) r) as F2.
  { intros r H1 H2 H3 H4. subst f2.
    destruct (tst (features (priv w)) FLEXCAN_HAS_V10_FEATURES);
      rewrite !upd_other by congruence; apply F1. }
  split; [rewrite !upd_other by discriminate; rewrite F2 by discriminate;
          apply upd_same|].
  assert (forall r, r = RX15MASK \/ r = RX14MASK \/ r = RXGMASK -> f2 r = 0) as F3.
  { intros r Hr. subst f2.
    destruct (tst (features (priv w)) FLEXCAN_HAS_V10_FEATURES);
      destruct Hr as [->|[->| ->]];
      repeat first [apply upd_same | rewrite upd_other by discriminate]. }
  split; [rewrite !upd_other by discriminate; apply F3; auto|].
  split; [rewrite !upd_other by discriminate; apply F3; auto|].
  split; [rewrite !upd_other by discriminate; apply F3; auto|].
  split.
  { rewrite !upd_other by discriminate. subst f2.
    destruct (tst (features (priv w)) FLEXCAN_HAS_V10_FEATURES);
      [apply upd_same|].
    rewrite !upd_other by discriminate. rewrite F1. subst fc. cbv beta.
    unfold parked. rewrite !upd_other by discriminate. reflexivity. }
  split.
  { intros i Hi. apply Nat.ltb_lt in Hi.
    rewrite !upd_other by discriminate. rewrite !F2 by discriminate.
    unfold parked. cbn [Nat.leb Nat.add andb]. rewrite Hi. repeat split. }
  split; [rewrite <- !app_assoc; reflexivity|].
  rewrite !xceiver_after_app, (xceiver_after_quiet l4) by exact Q4.
  rewrite X5, (xceiver_after_quiet l3) by exact Q3.
  cbn. destruct (transceiver_switch (priv w) || reg_xceiver (priv w)); reflexivity.
Qed.

(** The additions of the start sequence to the control word leave the
    timing fields alone. *)
Lemma start_ctrl_keeps_fields x (c : bool) :
  let r := Z.lor (clr (u32 x) FLEXCAN_CTRL_TSYN)
             (Z.lor (Z.lor FLEXCAN_CTRL_BOFF_REC FLEXCAN_CTRL_LBUF)
                    FLEXCAN_CTRL_ERR_STATE) in
  let r' := if c then Z.lor r FLEXCAN_CTRL_ERR_MSK else r in
  ctrl_presdiv r' = ctrl_presdiv x /\ ctrl_pseg1 r' = ctrl_pseg1 x /\
  ctrl_pseg2 r' = ctrl_pseg2 x /\ ctrl_rjw r' = ctrl_rjw x /\
  ctrl_propseg r' = ctrl_propseg x.
Proof.
  cbv zeta. rewrite u32_land.
  unfold ctrl_presdiv, ctrl_pseg1, ctrl_pseg2, ctrl_rjw, ctrl_propseg, clr,
    FLEXCAN_CTRL_TSYN, FLEXCAN_CTRL_BOFF_REC, FLEXCAN_CTRL_LBUF,
    FLEXCAN_CTRL_ERR_STATE, FLEXCAN_CTRL_ERR_MSK, FLEXCAN_CTRL_TWRN_MSK,
    FLEXCAN_CTRL_RWRN_MSK, FLEXCAN_CTRL_BOFF_MSK, BIT.
  repeat split.
  - apply (land_ones_ext _ _ 8); [lia|]. each_bit 8%nat.
  - apply (land_ones_ext _ _ 3); [lia|]. each_bit 3%nat.
  - apply (land_ones_ext _ _ 3); [lia|]. each_bit 3%nat.
  - apply (land_ones_ext _ _ 2); [lia|]. each_bit 2%nat.
  - apply (land_ones_ext _ _ 3); [lia|]. each_bit 3%nat.
Qed.

Lemma start_ctrl_bits x (c : bool) :
  let r := Z.lor (clr (u32 x) FLEXCAN_CTRL_TSYN)
             (Z.lor (Z.lor FLEXCAN_CTRL_BOFF_REC FLEXCAN_CTRL_LBUF)
                    FLEXCAN_CTRL_ERR_STATE) in
  let r' := if c then Z.lor r FLEXCAN_CTRL_ERR_MSK else r in
  Z.testbit r' 5 = false /\ Z.testbit r' 6 = true /\ Z.testbit r' 4 = true /\
  Z.testbit r' 15 = true /\ Z.testbit r' 11 = true /\ Z.testbit r' 10 = true /\
  (c = true -> Z.testbit r' 14 = true).
Proof.
  cbv zeta. rewrite u32_land.
  unfold clr, FLEXCAN_CTRL_TSYN, FLEXCAN_CTRL_BOFF_REC, FLEXCAN_CTRL_LBUF,
    FLEXCAN_CTRL_ERR_STATE, FLEXCAN_CTRL_ERR_MSK, FLEXCAN_CTRL_TWRN_MSK,
    FLEXCAN_CTRL_RWRN_MSK, FLEXCAN_CTRL_BOFF_MSK, BIT.
  repeat split; try intros ->;
    split_bits; norm_bit_positions; eval_const_bits; bool_cases.
Qed.

(** X8.  When [flexcan_chip_start] returns 0 it has, whatever the device
    answered on the way: recorded ERROR_ACTIVE; parked all 64 message
    buffers (control word "empty", identifier and data zero); zeroed
    the acceptance masks; unmasked the FIFO, overflow and
    transmit-complete interrupts; left the halt bit cleared in the
    module-control word; written a control word without timer sync,
    with bus-off recovery off, lowest-buffer-first and the bus-off and
    warning interrupts on (and the error interrupt when the core needs
    it or bus-error reporting is asked for), which it also saved for
    later; and switched the transceiver on if the board has one.  On a
    device whose control register reads back what was written, the
    timing fields set by [flexcan_set_bittiming] are still in place. *)
Theorem flexcan_chip_start_configures env w :
  result (flexcan_chip_start env) w = 0 ->
  let w' := after (flexcan_chip_start env) w in
  let p := priv w in
  let bt := bittiming p in
  let ctrl := regs w' CTRL in
  state (priv w') = CAN_STATE_ERROR_ACTIVE /\
  reg_ctrl_default (priv w') = ctrl /\
  regs w' IMASK1 = FLEXCAN_IFLAG_DEFAULT /\
  Z.testbit (regs w' MCR) 28 = false /\
  regs w' RXGMASK = 0 /\ regs w' RX14MASK = 0 /\ regs w' RX15MASK = 0 /\
  (tst (features p) FLEXCAN_HAS_V10_FEATURES = true -> regs w' RXFGMASK = 0) /\
  (forall i, (i < CANTXFG_SIZE)%nat ->
     regs w' (MB_CTRL i) = FLEXCAN_MB_CNT_CODE 0x4 /\ regs w' (MB_ID i) = 0 /\
     regs w' (MB_DATA0 i) = 0 /\ regs w' (MB_DATA1 i) = 0) /\
  (Z.testbit ctrl 5 = false /\ Z.testbit ctrl 6 = true /\ Z.testbit ctrl 4 = true /\
   Z.testbit ctrl 15 = true /\ Z.testbit ctrl 11 = true /\
   Z.testbit ctrl 10 = true) /\
  (tst (features p) FLEXCAN_HAS_BROKEN_ERR_STATE
   || tst (ctrlmode p) CAN_CTRLMODE_BERR_REPORTING = true ->
   Z.testbit ctrl 14 = true) /\
  xceiver_after (new_events w w') false = transceiver_switch p || reg_xceiver p /\
  ((forall n f, hw_read env n CTRL f = f CTRL) ->
   ctrl_presdiv ctrl = Z.land (u32 (brp bt - 1)) 0xff /\
   ctrl_pseg1 ctrl = Z.land (u32 (phase_seg1 bt - 1)) 0x7 /\
   ctrl_pseg2 ctrl = Z.land (u32 (phase_seg2 bt - 1)) 0x7 /\
   ctrl_rjw ctrl = Z.land (u32 (sjw bt - 1)) 0x3 /\
   ctrl_propseg ctrl = Z.land (u32 (prop_seg bt - 1)) 0x7).
Proof.
  intros H0. cbv zeta.
  destruct (chip_start_success env w H0)
    as (ck & f & v & l & (r0 & Hf) & Hp & Hi & Hm & Hc & Hg & H14 & H15 & Hfg & Hmb & Ht & Hx).
  cbv zeta in *. rewrite Hp, Hi, Hm, Hc, Hg, H14, H15, Hfg.
  match type of Hc with _ = if ?c then _ else _ => set (berr := c) in * end.
  pose proof (start_ctrl_bits (hw_read env ck CTRL f) berr) as B. cbv zeta in B.
  destruct B as (B5 & B6 & B4 & B15 & B11 & B10 & B14).
  split; [reflexivity|]. split; [reflexivity|]. split; [reflexivity|].
  split; [apply (testbit_clr_BIT _ 28); lia|].
  split; [reflexivity|]. split; [reflexivity|]. split; [reflexivity|].
  split; [intros ->; reflexivity|].
  split; [exact Hmb|].
  split; [repeat split; assumption|].
  split; [exact B14|].
  split; [rewrite (new_events_trace_app _ _ _ Ht); exact Hx|].
  intros Hrb.
  pose proof (start_ctrl_keeps_fields (hw_read env ck CTRL f) berr) as K.
  cbv zeta in K. destruct K as (K1 & K2 & K3 & K4 & K5).
  rewrite K1, K2, K3, K4, K5, Hrb, Hf. apply bittiming_word_fields.
Qed.

Lemma flexcan_chip_start_configures_witness :
  let w' := after (flexcan_chip_start responsive_env) (world_bt bt_125k) in
  result (flexcan_chip_start responsive_env) (world_bt bt_125k) = 0 /\
  state (priv w') = CAN_STATE_ERROR_ACTIVE /\
  regs w' IMASK1 = FLEXCAN_IFLAG_DEFAULT /\
  ctrl_presdiv (regs w' CTRL) = Z.land (u32 (4 - 1)) 0xff.
Proof.
  cbv zeta.
  assert (result (flexcan_chip_start responsive_env) (world_bt bt_125k) = 0) as H0
    by (vm_compute; reflexivity).
  split; [exact H0|].
  destruct (flexcan_chip_start_configures responsive_env (world_bt bt_125k) H0)
    as (H1 & _ & H3 & _ & _ & _ & _ & _ & _ & _ & _ & _ & H13).
  split; [exact H1|]. split; [exact H3|].
  apply H13. intros n f. reflexivity.
Defined.

(** ** Bit-timing configurator: the mode bits *)

(** X11.  [flexcan_set_bittiming] sets the loopback, listen-only and
    triple-sampling bits of the control word from the mode flags (and
    clears them when the flag is off), and leaves every bit outside the
    timing fields and these three as the device read it. *)
Theorem flexcan_set_bittiming_modes env w :
  let p := priv w in
  let old := result (flexcan_read env CTRL) w in
  let reg := regs (after (flexcan_set_bittiming env) w) CTRL in
  Z.testbit reg 12 = tst (ctrlmode p) CAN_CTRLMODE_LOOPBACK /\
  Z.testbit reg 3 = tst (ctrlmode p) CAN_CTRLMODE_LISTENONLY /\
  Z.testbit reg 7 = tst (ctrlmode p) CAN_CTRLMODE_3_SAMPLES /\
  (forall i, In i [4; 5; 6; 8; 9; 10; 11; 13; 14; 15] ->
     Z.testbit reg i = Z.testbit old i).
Proof.
  cbv zeta. rewrite set_bittiming_word, result_read. cbv zeta.
  generalize (u32 (hw_read env (clock w) CTRL (regs w))).
  generalize (tst (ctrlmode (priv w)) CAN_CTRLMODE_LOOPBACK)
             (tst (ctrlmode (priv w)) CAN_CTRLMODE_LISTENONLY)
             (tst (ctrlmode (priv w)) CAN_CTRLMODE_3_SAMPLES).
  generalize (u32 (brp (bittiming (priv w)) - 1))
             (u32 (phase_seg1 (bittiming (priv w)) - 1))
             (u32 (phase_seg2 (bittiming (priv w)) - 1))
             (u32 (sjw (bittiming (priv w)) - 1))
             (u32 (prop_seg (bittiming (priv w)) - 1)).
  intros x1 x2 x3 x4 x5 lpb lom smp old.
  ctrl_unfold.
  split; [|split; [|split]].
  - split_bits. norm_bit_positions. eval_const_bits.
    rewrite ?(Z.testbit_neg_r _ (-_)) by lia. destruct lpb, lom, smp; bool_cases.
  - split_bits. norm_bit_positions. eval_const_bits.
    rewrite ?(Z.testbit_neg_r _ (-_)) by lia. destruct lpb, lom, smp; bool_cases.
  - split_bits. norm_bit_positions. eval_const_bits.
    rewrite ?(Z.testbit_neg_r _ (-_)) by lia. destruct lpb, lom, smp; bool_cases.
  - intros i Hi. cbn [In] in Hi.
    repeat (destruct Hi as [<-|Hi]; [
      split_bits; norm_bit_positions; eval_const_bits;
      rewrite ?(Z.testbit_neg_r _ (-_)) by lia; destruct lpb, lom, smp; bool_cases|]).
    contradiction.
Qed.

(** ** Transmit and receive: every frame *)

(** Push [result] and [after] through a sequence, matching on the head
    of the computation. *)
Ltac mstep :=
  match goal with
  | |- context [after (bind ?m ?k) ?w] => rewrite (after_bind m k w)
  | |- context [result (bind ?m ?k) ?w] => rewrite (result_bind m k w)
  | |- context [after (ret ?a) ?w] => change (after (ret a) w) with w
  | |- context [result (ret ?a) ?w] => change (result (ret a) w) with a
  | |- context [after get_priv ?w] => change (after get_priv w) with w
  | |- context [result get_priv ?w] => change (result get_priv w) with (priv w)
  | |- context [result tick ?w] => change (result tick w) with (clock w)
  | |- context [after tick ?w] => rewrite (after_tick w)
  | |- context [after (flexcan_read ?e ?r) ?w] => rewrite (after_read e r w)
  | |- context [result (flexcan_read ?e ?r) ?w] => rewrite (result_read e r w)
  | |- context [after (flexcan_write ?v ?r) ?w] => rewrite (after_write v r w)
  | |- context [after (emit ?e) ?w] => rewrite (after_emit e w)
  | |- context [after (modify_priv ?f) ?w] => rewrite (after_modify_priv f w)
  end.

Ltac fdrv := repeat (mstep; cbn [priv regs clock trace]).

(** Run a sequence of primitive steps from a world given by its fields. *)
Ltac mrun :=
  cbv beta iota zeta delta
    [after result bind ret get_priv modify_priv modify_stats emit tick
     flexcan_read flexcan_write fst snd priv regs clock trace].

(** What the transmit path leaves in the transmit mailbox. *)
Lemma xmit_mailbox_any cf w :
  can_dlc cf <= 8 ->
  let f := regs (after (flexcan_start_xmit cf) w) in
  let eff := tst (can_id cf) CAN_EFF_FLAG in
  let rtr := tst (can_id cf) CAN_RTR_FLAG in
  let ctrl := Z.lor (FLEXCAN_MB_CNT_CODE 0xc) (Z.shiftl (can_dlc cf) 16) in
  let ctrl := if eff then Z.lor ctrl (Z.lor FLEXCAN_MB_CNT_IDE FLEXCAN_MB_CNT_SRR)
              else ctrl in
  let ctrl := if rtr then Z.lor ctrl FLEXCAN_MB_CNT_RTR else ctrl in
  f (MB_CTRL FLEXCAN_TX_BUF_ID) = ctrl /\
  f (MB_ID FLEXCAN_TX_BUF_ID) =
    (if eff then Z.land (can_id cf) CAN_EFF_MASK
     else u32 (Z.shiftl (Z.land (can_id cf) CAN_SFF_MASK) 18)) /\
  f (MB_DATA0 FLEXCAN_TX_BUF_ID) =
    (if can_dlc cf >? 0 then be32_to_cpup (data cf) 0
     else regs w (MB_DATA0 FLEXCAN_TX_BUF_ID)) /\
  f (MB_DATA1 FLEXCAN_TX_BUF_ID) =
    (if can_dlc cf >? 3 then be32_to_cpup (data cf) 4
     else regs w (MB_DATA1 FLEXCAN_TX_BUF_ID)).
Proof.
  intros Hdlc. cbv zeta.
  unfold flexcan_start_xmit, can_dropped_invalid_skb.
  replace (CAN_MAX_DLEN <? can_dlc cf) with false
    by (symmetry; apply Z.ltb_ge; unfold CAN_MAX_DLEN; lia).
  destruct w as [p f ck tr].
  (destruct (can_dlc cf >? 0), (can_dlc cf >? 3);
    mrun; destruct (tst (features p) FLEXCAN_HAS_ERR005829);
    repeat split;
    repeat first [apply upd_same | rewrite upd_other by discriminate]; reflexivity).
Qed.

(** In loopback the receive side sees the frame bits of the transmit
    control word. *)
Lemma loopback_ctrl_bits c' c :
  Z.land c' mb_frame_bits = Z.land c mb_frame_bits ->
  tst (u32 c') FLEXCAN_MB_CNT_IDE = Z.testbit c 21 /\
  tst (u32 c') FLEXCAN_MB_CNT_RTR = Z.testbit c 20 /\
  Z.land (Z.shiftr (u32 c') 16) 0xf = Z.land (Z.shiftr c 16) 0xf.
Proof.
  intros H. unfold FLEXCAN_MB_CNT_IDE, FLEXCAN_MB_CNT_RTR.
  rewrite !tst_BIT by lia.
  rewrite !(mb_frame_bits_agree c' _ _ H) by lia.
  split; [reflexivity|]. split; [reflexivity|].
  apply (land_ones_ext _ _ 4); [lia|]. intros i Hi.
  rewrite !Z.shiftr_spec by lia. apply mb_frame_bits_agree; [exact H|lia].
Qed.

(** The frame bits of the control word the transmit path builds. *)
Lemma xmit_ctrl_bits dlc (eff rtr : bool) :
  0 <= dlc <= 8 ->
  let ctrl := Z.lor (FLEXCAN_MB_CNT_CODE 0xc) (Z.shiftl dlc 16) in
  let ctrl := if eff then Z.lor ctrl (Z.lor FLEXCAN_MB_CNT_IDE FLEXCAN_MB_CNT_SRR)
              else ctrl in
  let ctrl := if rtr then Z.lor ctrl FLEXCAN_MB_CNT_RTR else ctrl in
  Z.testbit ctrl 21 = eff /\ Z.testbit ctrl 20 = rtr /\
  Z.land (Z.shiftr ctrl 16) 0xf = dlc.
Proof.
  intros H.
  assert (dlc = 0 \/ dlc = 1 \/ dlc = 2 \/ dlc = 3 \/ dlc = 4 \/ dlc = 5 \/
          dlc = 6 \/ dlc = 7 \/ dlc = 8) as Hc by lia.
  destruct Hc as [->|[->|[->|[->|[->|[->|[->|[->| ->]]]]]]]];
    destruct eff, rtr; repeat split.
Qed.

Lemma sff_id_roundtrip id :
  Z.land (Z.shiftr (u32 (u32 (Z.shiftl (Z.land id CAN_SFF_MASK) 18))) 18) CAN_SFF_MASK
  = Z.land id CAN_SFF_MASK.
Proof.
  rewrite !u32_land. unfold CAN_SFF_MASK. change 0x7FF with (Z.ones 11).
  apply (land_ones_ext _ _ 11); [lia|]. each_bit 11%nat.
Qed.

Lemma eff_id_roundtrip_full id :
  Z.land (Z.shiftr (u32 (Z.land id CAN_EFF_MASK)) 0) CAN_EFF_MASK =
  Z.land id CAN_EFF_MASK.
Proof.
  rewrite Z.shiftr_0_r, u32_land, <- !Z.land_assoc. reflexivity.
Qed.

Lemma land_bit_if x n :
  0 <= n -> Z.land x (Z.shiftl 1 n) = if Z.testbit x n then Z.shiftl 1 n else 0.
Proof.
  intros Hn. apply Z.bits_inj'. intros i Hi.
  rewrite Z.land_spec, Z.shiftl_1_l, Z.pow2_bits_eqb by lia.
  destruct (Z.eqb_spec n i) as [->|Hne].
  - destruct (Z.testbit x i); [|rewrite Z.testbit_0_l; reflexivity].
    rewrite Z.pow2_bits_true by lia. reflexivity.
  - rewrite andb_false_r. destruct (Z.testbit x n); [|rewrite Z.testbit_0_l; reflexivity].
    rewrite Z.pow2_bits_false by lia. reflexivity.
Qed.

Lemma rtr_flag_or x id :
  (if tst id CAN_RTR_FLAG then Z.lor x CAN_RTR_FLAG else x) =
  Z.lor x (Z.land id CAN_RTR_FLAG).
Proof.
  unfold CAN_RTR_FLAG. change 0x40000000 with (BIT 30).
  rewrite tst_BIT by lia. unfold BIT. rewrite land_bit_if by lia.
  destruct (Z.testbit id 30); [reflexivity|]. rewrite Z.lor_0_r. reflexivity.
Qed.

(** The first data word alone puts back the first four bytes. *)
Lemma payload_low_roundtrip d v cf i :
  length d = 8%nat -> Forall (fun b => 0 <= b < 256) d ->
  length (data cf) = 8%nat -> (i < 4)%nat ->
  data (store_be32 4 v (store_be32 0 (u32 (be32_to_cpup d 0)) cf)) !! i = d !! i.
Proof.
  intros Hl Hb Hc Hi.
  destruct d as [|b0 [|b1 [|b2 [|b3 [|b4 [|b5 [|b6 [|b7 [|]]]]]]]]]; try discriminate Hl.
  repeat match goal with H : Forall _ (_ :: _) |- _ =>
    apply Forall_cons in H; destruct H as [? H] end.
  destruct cf as [id dlc c]. cbn [data] in Hc.
  destruct c as [|c0 [|c1 [|c2 [|c3 [|c4 [|c5 [|c6 [|c7 [|]]]]]]]]]; try discriminate Hc.
  unfold be32_to_cpup. cbn [lookup_total list_lookup_total Nat.add].
  destruct (be32_bytes b0 b1 b2 b3) as (E0 & E1 & E2 & E3); try assumption.
  cbv zeta in *. unfold store_be32, set_data. cbn [data can_id can_dlc Nat.add].
  cbn [insert list_insert]. rewrite E0, E1, E2, E3.
  destruct i as [|[|[|[|i]]]]; try reflexivity. lia.
Qed.

Lemma store_be32_id off v cf : can_id (store_be32 off v cf) = can_id cf.
Proof. reflexivity. Qed.

Lemma store_be32_dlc off v cf : can_dlc (store_be32 off v cf) = can_dlc cf.
Proof. reflexivity. Qed.

Lemma get_can_dlc_small x : 0 <= x <= 8 -> get_can_dlc x = x.
Proof. intros H. unfold get_can_dlc, CAN_MAX_DLEN. lia. Qed.

(** X12.  Any frame the transmit path accepts comes back through a
    device in loopback with its identifier in canonical form (the bits
    outside the mask of its format dropped, the extended and
    remote-request flags as sent), its length code, and the payload
    bytes that the length code covers; with a length code above 3 the
    whole eight-byte payload. *)
Theorem xmit_loopback_roundtrip_any env cf w :
  loopback env -> (forall n, skb_alloc env n = true) ->
  0 <= can_dlc cf <= 8 -> length (data cf) = 8%nat ->
  Forall (fun b => 0 <= b < 256) (data cf) ->
  let w1 := after (flexcan_start_xmit cf) w in
  exists cf',
    result (flexcan_mailbox_read env false None) w1 = (1, Some cf') /\
    can_id cf' = canonical_id (can_id cf) /\
    can_dlc cf' = can_dlc cf /\
    (forall i, (i < Z.to_nat (can_dlc cf))%nat -> data cf' !! i = data cf !! i) /\
    (3 < can_dlc cf -> data cf' = data cf).
Proof.
  intros Hloop Halloc Hdlc Hlen Hbytes w1.
  destruct (xmit_mailbox_any cf w (proj2 Hdlc)) as (Rc & Ri & R0 & R1).
  cbv zeta in Rc, Ri, R0, R1. fold w1 in Rc, Ri, R0, R1. clearbody w1.
  destruct w1 as [p f ck tr]. cbn [regs] in Rc, Ri, R0, R1.
  destruct (Hloop (S (S ck)) f) as (_ & Lc & _).
  destruct (Hloop (S (S (S ck))) f) as (_ & _ & Li & _).
  destruct (Hloop (S (S (S (S ck)))) f) as (_ & _ & _ & L0 & _).
  destruct (Hloop (S (S (S (S (S ck))))) f) as (_ & _ & _ & _ & L1).
  destruct (loopback_ctrl_bits _ _ Lc) as (Dide & Drtr & Ddlc).
  rewrite Rc in Dide, Drtr, Ddlc.
  destruct (xmit_ctrl_bits (can_dlc cf) (tst (can_id cf) CAN_EFF_FLAG)
              (tst (can_id cf) CAN_RTR_FLAG) Hdlc) as (Xide & Xrtr & Xdlc).
  cbv zeta in Xide, Xrtr, Xdlc. rewrite Xide in Dide. rewrite Xrtr in Drtr.
  rewrite Xdlc in Ddlc. clear Xide Xrtr Xdlc Rc Lc.
  unfold canonical_id. rewrite <- rtr_flag_or.
  unfold flexcan_mailbox_read, alloc_can_skb; mrun.
  rewrite (proj1 (Hloop _ _)); cbn [negb]; mrun; rewrite Halloc; mrun.
  rewrite Dide, Drtr, Ddlc, Li, L0, L1, Ri, R0, R1.
  destruct (tst (can_id cf) CAN_EFF_FLAG) eqn:Heff,
    (tst (can_id cf) CAN_RTR_FLAG) eqn:Hrtr.
  all: (eexists; split; [reflexivity|]).
  all: rewrite !store_be32_id, !store_be32_dlc; cbn [can_id can_dlc set_can_dlc set_can_id].
  all: (split; [rewrite ?eff_id_roundtrip_full, ?sff_id_roundtrip; reflexivity|]).
  all: (split; [apply get_can_dlc_small, Hdlc|]).
  all: split.
  all: try (intros i Hi; destruct (Z.gtb_spec (can_dlc cf) 0) as [H0|H0]; [|lia];
      destruct (Z.gtb_spec (can_dlc cf) 3) as [H3|H3];
      [ rewrite payload_roundtrip by (auto; reflexivity); reflexivity
      | apply payload_low_roundtrip; auto; try reflexivity; lia ]).
  all: intros H3; destruct (Z.gtb_spec (can_dlc cf) 0) as [H0|H0]; [|lia];
      destruct (Z.gtb_spec (can_dlc cf) 3) as [H3'|H3']; [|lia];
      apply payload_roundtrip; auto; reflexivity.
Qed.

Ltac eval_const_land :=
  repeat match goal with
  | |- context [Z.land (Zpos ?a) (Zpos ?b)] =>
      let v := eval vm_compute in (Z.land (Zpos a) (Zpos b)) in
      change (Z.land (Zpos a) (Zpos b)) with v
  end.

Ltac land_normal :=
  unfold CAN_EFF_MASK, CAN_EFF_FLAG, CAN_RTR_FLAG, CAN_SFF_MASK, CAN_ERR_FLAG;
  repeat rewrite Z.land_lor_distr_l; repeat rewrite <- Z.land_assoc;
  eval_const_land;
  repeat rewrite Z.land_0_r; repeat rewrite Z.lor_0_r; repeat rewrite Z.lor_0_l.

(** The identifier the receive path builds is in canonical form and
    never carries the error flag. *)
Lemma decoded_id_canonical reg_id (ide rtr : bool) :
  let id := if ide then Z.lor (Z.land (Z.shiftr reg_id 0) CAN_EFF_MASK) CAN_EFF_FLAG
            else Z.land (Z.shiftr reg_id 18) CAN_SFF_MASK in
  let id := if rtr then Z.lor id CAN_RTR_FLAG else id in
  id = canonical_id id /\ Z.land id CAN_ERR_FLAG = 0.
Proof.
  cbv zeta. unfold canonical_id, tst.
  destruct ide, rtr; land_normal; cbn [Z.eqb negb]; land_normal; split; reflexivity.
Qed.

Lemma xmit_loopback_roundtrip_any_witness :
  exists cf',
    result (flexcan_mailbox_read loopback_env false None)
           (after (flexcan_start_xmit frame_sff2) (world0 CAN_STATE_ERROR_ACTIVE))
      = (1, Some cf') /\
    can_id cf' = canonical_id (can_id frame_sff2) /\
    can_dlc cf' = can_dlc frame_sff2.
Proof.
  destruct (xmit_loopback_roundtrip_any loopback_env frame_sff2
              (world0 CAN_STATE_ERROR_ACTIVE)) as (cf' & H1 & H2 & H3 & _).
  - exact loopback_env_loopback.
  - intros n. reflexivity.
  - cbn. lia.
  - reflexivity.
  - repeat constructor; cbn; lia.
  - exists cf'. split; [exact H1|]. split; [exact H2|exact H3].
Defined.

Lemma byte_range x : 0 <= Z.land x 0xff < 256.
Proof.
  change 0xff with (Z.ones 8). rewrite Z.land_ones by lia.
  apply Z.mod_pos_bound. reflexivity.
Qed.

Lemma store_be32_bytes off v cf :
  Forall (fun b => 0 <= b < 256) (data cf) ->
  Forall (fun b => 0 <= b < 256) (data (store_be32 off v cf)).
Proof.
  intros H. unfold store_be32, set_data. cbn [data].
  repeat apply Forall_insert; auto using byte_range.
Qed.

Lemma store_be32_length off v cf :
  length (data (store_be32 off v cf)) = length (data cf).
Proof. unfold store_be32, set_data. cbn [data]. rewrite !length_insert. reflexivity. Qed.

Lemma get_can_dlc_range x : 0 <= get_can_dlc (Z.land x 0xf) <= 8.
Proof.
  unfold get_can_dlc, CAN_MAX_DLEN.
  assert (0 <= Z.land x 0xf) by (apply Z.land_nonneg; right; lia). lia.
Qed.

(** What the decoding steps shared by the two receive paths produce
    from a fresh buffer. *)
Lemma decoded_frame_well_formed reg_ctrl reg_id d0 d1 :
  let cf := mk_can_frame 0 0 (replicate 8 0) in
  let cf :=
    if tst reg_ctrl FLEXCAN_MB_CNT_IDE
    then set_can_id (Z.lor (Z.land (Z.shiftr reg_id 0) CAN_EFF_MASK) CAN_EFF_FLAG) cf
    else set_can_id (Z.land (Z.shiftr reg_id 18) CAN_SFF_MASK) cf in
  let cf :=
    if tst reg_ctrl FLEXCAN_MB_CNT_RTR
    then set_can_id (Z.lor (can_id cf) CAN_RTR_FLAG) cf else cf in
  let cf := set_can_dlc (get_can_dlc (Z.land (Z.shiftr reg_ctrl 16) 0xf)) cf in
  well_formed_rx (store_be32 4 d1 (store_be32 0 d0 cf)).
Proof.
  cbv zeta. unfold well_formed_rx.
  rewrite !store_be32_id, !store_be32_dlc, !store_be32_length.
  pose proof (decoded_id_canonical reg_id (tst reg_ctrl FLEXCAN_MB_CNT_IDE)
                (tst reg_ctrl FLEXCAN_MB_CNT_RTR)) as H. cbv zeta in H.
  split; [|split; [|split; [|split]]].
  - destruct (tst reg_ctrl FLEXCAN_MB_CNT_IDE), (tst reg_ctrl FLEXCAN_MB_CNT_RTR);
      apply H.
  - unfold tst at 1.
    match goal with |- negb (?x =? 0) = false =>
      replace x with 0; [reflexivity|symmetry] end.
    destruct (tst reg_ctrl FLEXCAN_MB_CNT_IDE), (tst reg_ctrl FLEXCAN_MB_CNT_RTR);
      exact (proj2 H).
  - cbn [can_dlc set_can_dlc]. apply get_can_dlc_range.
  - destruct (tst reg_ctrl FLEXCAN_MB_CNT_IDE), (tst reg_ctrl FLEXCAN_MB_CNT_RTR);
      reflexivity.
  - do 2 apply store_be32_bytes.
    destruct (tst reg_ctrl FLEXCAN_MB_CNT_IDE), (tst reg_ctrl FLEXCAN_MB_CNT_RTR);
      cbn; repeat constructor; lia.
Qed.

Lemma mailbox_read_well_formed env drop w cf :
  snd (result (flexcan_mailbox_read env drop None) w) = Some cf ->
  well_formed_rx cf.
Proof.
  destruct w as [p f ck tr]. unfold flexcan_mailbox_read, alloc_can_skb. mrun.
  destruct (tst (u32 (hw_read env ck IFLAG1 f)) FLEXCAN_IFLAG_RX_FIFO_AVAILABLE);
    cbn [negb]; mrun; [|discriminate].
  destruct drop; cbn [negb]; mrun; [discriminate|].
  destruct (skb_alloc env (S ck)); mrun; [|discriminate].
  intros [= <-]. apply decoded_frame_well_formed.
Qed.

Lemma offload_one_well_formed env w cf :
  result (can_rx_offload_offload_one env) w = Some cf -> well_formed_rx cf.
Proof.
  unfold can_rx_offload_offload_one. rewrite !result_bind, result_ret.
  change (result get_priv w) with (priv w). change (after get_priv w) with w.
  apply mailbox_read_well_formed.
Qed.

(** ** Receive queue: accounting *)

Lemma reg_access_delivered l :
  forallb is_reg_access l = true -> delivered_frames l = [].
Proof.
  unfold delivered_frames. induction l as [|e l IH]; [reflexivity|].
  cbn [forallb]. intros H. apply andb_true_iff in H as [He Hl].
  destruct e; try discriminate He; exact (IH Hl).
Qed.

Lemma reg_access_count f l :
  (forall r v, f (EvRead r v) = false) -> (forall r v, f (EvWrite r v) = false) ->
  forallb is_reg_access l = true -> count_events f l = 0%nat.
Proof.
  intros Hr Hw. unfold count_events.
  induction l as [|e l IH]; cbn [forallb List.filter]; [reflexivity|].
  intros H. apply andb_true_iff in H as [He Hl].
  destruct e; try discriminate He; rewrite ?Hr, ?Hw; apply IH, Hl.
Qed.

(** X13.  Whatever the device presents, a frame handed on by the
    receive path is a well-formed data frame: identifier in canonical
    form for its format, never the error flag, a length code of at most
    8 (the 4-bit field of the mailbox is clamped), and eight payload
    bytes. *)
Theorem rx_frame_well_formed env w cf :
  result (can_rx_offload_offload_one env) w = Some cf -> well_formed_rx cf.
Proof. apply offload_one_well_formed. Qed.

Lemma rx_frame_well_formed_witness :
  match result (can_rx_offload_offload_one (const_env 0xffffffff true 0))
               (world0 CAN_STATE_ERROR_ACTIVE) with
  | Some cf => well_formed_rx cf
  | None => False
  end.
Proof.
  destruct (result (can_rx_offload_offload_one (const_env 0xffffffff true 0))
                   (world0 CAN_STATE_ERROR_ACTIVE)) as [cf|] eqn:E.
  - exact (rx_frame_well_formed _ _ _ E).
  - vm_compute in E. discriminate E.
Defined.

(** One round of the drain, as an equation between worlds. *)
Lemma offload_one_run env w :
  let avail := tst (u32 (hw_read env (clock w) IFLAG1 (regs w)))
                   FLEXCAN_IFLAG_RX_FIFO_AVAILABLE in
  let full := skb_queue_len (offload (priv w)) >? skb_queue_len_max (offload (priv w)) in
  let got := avail && negb full && skb_alloc env (S (clock w)) in
  let r := result (can_rx_offload_offload_one env) w in
  exists f ck l,
    after (can_rx_offload_offload_one env) w =
      mk_world (if avail && negb got
                then set_stats (inc_rx_dropped (stats (priv w))) (priv w)
                else priv w)
               f ck (trace w ++ l) /\
    forallb is_reg_access l = true /\
    (if got then is_Some r else r = None) /\
    (forall x, f x = if avail
                     then (if decide (x = IFLAG1) then FLEXCAN_IFLAG_RX_FIFO_AVAILABLE
                           else regs w x)
                     else regs w x).
Proof.
  cbv zeta. destruct w as [p f ck tr]. cbn [priv regs clock trace].
  unfold can_rx_offload_offload_one, flexcan_mailbox_read, alloc_can_skb.
  mrun.
  destruct (tst (u32 (hw_read env ck IFLAG1 f)) FLEXCAN_IFLAG_RX_FIFO_AVAILABLE);
    cbn [negb andb]; mrun.
  2:{ eexists f, _, [_]. cbn [fst snd Z.eqb negb andb]. mrun.
      repeat split. }
  destruct (skb_queue_len (offload p) >? skb_queue_len_max (offload p));
    cbn [negb andb]; mrun.
  - eexists _, _, [_; _; _]. rewrite <- !app_assoc. cbn [app].
    split; [reflexivity|]. split; [reflexivity|]. split; [reflexivity|].
    intros x. unfold upd. destruct (decide (IFLAG1 = x)), (decide (x = IFLAG1));
      congruence.
  - destruct (skb_alloc env (S ck)); mrun.
    + eexists _, _, [_; _; _; _; _; _; _]. rewrite <- !app_assoc. cbn [app].
      split; [reflexivity|]. split; [reflexivity|]. split; [eexists; reflexivity|].
      intros x. unfold upd. destruct (decide (IFLAG1 = x)), (decide (x = IFLAG1));
        congruence.
    + eexists _, _, [_; _; _]. rewrite <- !app_assoc. cbn [app].
      split; [reflexivity|]. split; [reflexivity|]. split; [reflexivity|].
      intros x. unfold upd. destruct (decide (IFLAG1 = x)), (decide (x = IFLAG1));
        congruence.
Qed.

Lemma after_skb_queue_tail cf w :
  after (skb_queue_tail cf) w =
  mk_world (set_offload (mk_offload (skb_queue (offload (priv w)) ++ [cf])
                                    (skb_queue_len_max (offload (priv w)))) (priv w))
           (regs w) (clock w) (trace w).
Proof. reflexivity. Qed.

(** The drain loop: what it has done when it stops, with or without a
    result. *)
Lemma offload_fifo_loop_run env fuel received w :
  let w' := after (offload_fifo_loop env fuel received) w in
  exists l tr (dropped : bool),
    offload (priv w') =
      mk_offload (skb_queue (offload (priv w)) ++ l)
                 (skb_queue_len_max (offload (priv w))) /\
    (forall n, result (offload_fifo_loop env fuel received) w = Some n ->
               n = received + Z.of_nat (length l)) /\
    Forall well_formed_rx l /\
    stats (priv w') = (if dropped then inc_rx_dropped (stats (priv w))
                       else stats (priv w)) /\
    state (priv w') = state (priv w) /\
    trace w' = trace w ++ tr /\ forallb is_reg_access tr = true /\
    (forall x, x <> IFLAG1 -> regs w' x = regs w x).
Proof.
  cbv zeta. revert received w. induction fuel as [|fuel IH]; intros received w.
  - cbn [offload_fifo_loop]. rewrite result_ret, after_ret.
    exists [], [], false. rewrite !app_nil_r. destruct (offload (priv w)).
    repeat split; try constructor. intros n Hn. discriminate Hn.
  - cbn [offload_fifo_loop]. rewrite result_bind, after_bind.
    destruct (offload_one_run env w) as (f & ck & l1 & E & A1 & G & F).
    cbv zeta in E, G, F.
    assert (forall x, x <> IFLAG1 -> f x = regs w x) as F'.
    { intros x Hx. rewrite F. destruct (tst _ _); [|reflexivity].
      destruct (decide (x = IFLAG1)); congruence. }
    clear F.
    pose proof (offload_one_well_formed env w) as WF.
    revert E G WF.
    generalize (result (can_rx_offload_offload_one env) w).
    intros [cf|] E G WF.
    + assert (after (can_rx_offload_offload_one env) w =
              mk_world (priv w) f ck (trace w ++ l1)) as ->.
      { rewrite E. destruct (_ && _ && _) eqn:Hg.
        - rewrite andb_false_r. reflexivity.
        - discriminate G. }
      clear E G. rewrite result_bind, after_bind, !after_skb_queue_tail.
      cbn [priv regs clock trace].
      match goal with |- context [after (offload_fifo_loop env fuel ?r) ?w0] =>
        destruct (IH r w0) as (l & tr & dropped & Ho & Hl & Hw & Hs & Hst & Ht & Ha & Hg);
        revert Ho Hl Hs Hst Ht Hg;
        generalize (result (offload_fifo_loop env fuel r) w0)
                   (after (offload_fifo_loop env fuel r) w0)
      end.
      intros r2 w2 Ho Hl Hs Hst Ht Hg.
      cbn [priv regs clock trace offload set_offload skb_queue skb_queue_len_max
           stats state] in Ho, Hs, Hst, Ht, Hg.
      exists (cf :: l), (l1 ++ tr), dropped.
      split; [rewrite Ho, <- app_assoc; reflexivity|].
      split; [intros n Hn; rewrite (Hl n Hn); cbn [length]; lia|].
      split; [constructor; [apply WF; reflexivity|exact Hw]|].
      split; [exact Hs|]. split; [exact Hst|].
      split; [rewrite Ht, <- app_assoc; reflexivity|].
      split; [rewrite forallb_app, A1, Ha; reflexivity|].
      intros x Hx. rewrite Hg by exact Hx. apply F', Hx.
    + rewrite result_ret, after_ret.
      exists [], l1, (tst (u32 (hw_read env (clock w) IFLAG1 (regs w)))
                          FLEXCAN_IFLAG_RX_FIFO_AVAILABLE).
      rewrite E. clear E.
      destruct (tst _ FLEXCAN_IFLAG_RX_FIFO_AVAILABLE); cbn [andb priv trace regs] in *.
      * destruct (negb _ && _); [destruct G as [? G]; discriminate G|].
        cbn [negb priv set_stats offload stats state].
        rewrite app_nil_r. destruct (offload (priv w)).
        repeat split; try assumption; try constructor.
        intros n [= <-]. cbn. lia.
      * rewrite app_nil_r. destruct (offload (priv w)).
        repeat split; try assumption; try constructor.
        intros n [= <-]. cbn. lia.
Qed.

(** The drain with its scheduling of the poll. *)
Lemma irq_offload_fifo_run env fuel w :
  let r := result (can_rx_offload_irq_offload_fifo env fuel) w in
  let w' := after (can_rx_offload_irq_offload_fifo env fuel) w in
  exists l tr (dropped : bool),
    offload (priv w') =
      mk_offload (skb_queue (offload (priv w)) ++ l)
                 (skb_queue_len_max (offload (priv w))) /\
    (forall n, r = Some n -> n = Z.of_nat (length l)) /\
    Forall well_formed_rx l /\
    stats (priv w') = (if dropped then inc_rx_dropped (stats (priv w))
                       else stats (priv w)) /\
    state (priv w') = state (priv w) /\
    trace w' = trace w ++ tr ++
               (match r with
                | Some n => if n =? 0 then [] else [EvNapiSchedule]
                | None => []
                end) /\
    forallb is_reg_access tr = true /\
    (forall x, x <> IFLAG1 -> regs w' x = regs w x).
Proof.
  cbv zeta. unfold can_rx_offload_irq_offload_fifo.
  rewrite result_bind, after_bind.
  destruct (offload_fifo_loop_run env fuel 0 w)
    as (l & tr & dropped & Ho & Hl & Hw & Hs & Hst & Ht & Ha & Hg).
  cbv zeta in *. revert Ho Hl Hs Hst Ht Hg.
  generalize (result (offload_fifo_loop env fuel 0) w)
             (after (offload_fifo_loop env fuel 0) w).
  intros r1 w1 Ho Hl Hs Hst Ht Hg. exists l, tr, dropped.
  destruct r1 as [m|].
  - rewrite result_bind, result_ret, after_bind, after_ret.
    unfold can_rx_offload_schedule.
    destruct (m =? 0); cbn [negb]; rewrite ?after_ret, ?after_emit;
      cbn [priv regs trace]; rewrite Ho, Hs, Hst, Ht, ?app_nil_r, <- ?app_assoc;
      repeat split; try assumption;
      intros n [= <-]; rewrite (Hl _ eq_refl); lia.
  - rewrite result_ret, after_ret. rewrite Ho, Hs, Hst, Ht, ?app_nil_r.
    repeat split; try assumption; try (intros n Hn; discriminate Hn).
Qed.

Lemma napi_schedules_app l1 l2 :
  napi_schedules (l1 ++ l2) = (napi_schedules l1 + napi_schedules l2)%nat.
Proof. apply count_events_app. Qed.

Lemma delivered_frames_app l1 l2 :
  delivered_frames (l1 ++ l2) = delivered_frames l1 ++ delivered_frames l2.
Proof.
  unfold delivered_frames. induction l1 as [|e l1 IH]; [reflexivity|].
  cbn [app]. destruct e; cbn; rewrite ?IH; reflexivity.
Qed.

(** X15.  When the drain has left its loop with [n], it has appended
    exactly [n] frames to the tail of the queue, each of them well
    formed and in the order they were read; it has scheduled the poll
    once if [n] is positive and not at all otherwise; it has counted at
    most one discarded frame; and it has delivered nothing upstream and
    left the recorded state alone. *)
Theorem irq_offload_fifo_accounting env fuel w n :
  result (can_rx_offload_irq_offload_fifo env fuel) w = Some n ->
  let w' := after (can_rx_offload_irq_offload_fifo env fuel) w in
  let tr := new_events w w' in
  exists l,
    offload (priv w') =
      mk_offload (skb_queue (offload (priv w)) ++ l)
                 (skb_queue_len_max (offload (priv w))) /\
    n = Z.of_nat (length l) /\
    Forall well_formed_rx l /\
    napi_schedules tr = (if n =? 0 then 0%nat else 1%nat) /\
    delivered_frames tr = [] /\
    (rx_dropped (stats (priv w')) = rx_dropped (stats (priv w)) \/
     rx_dropped (stats (priv w')) = ulong (rx_dropped (stats (priv w)) + 1)) /\
    rx_packets (stats (priv w')) = rx_packets (stats (priv w)) /\
    state (priv w') = state (priv w).
Proof.
  intros Hn. cbv zeta.
  destruct (irq_offload_fifo_run env fuel w)
    as (l & tr & dropped & Ho & Hl & Hw & Hs & Hst & Ht & Ha & _).
  cbv zeta in *. rewrite Hn in Ht. specialize (Hl n Hn).
  exists l. rewrite Ho, Hs, Hst, (new_events_trace_app _ _ _ Ht).
  split; [reflexivity|]. split; [exact Hl|]. split; [exact Hw|].
  split; [rewrite napi_schedules_app; unfold napi_schedules;
          rewrite (reg_access_count _ tr) by (auto; reflexivity);
          destruct (n =? 0); reflexivity|].
  split; [rewrite delivered_frames_app, (reg_access_delivered tr Ha);
          destruct (n =? 0); reflexivity|].
  split; [destruct dropped; [right|left]; reflexivity|].
  split; [destruct dropped; reflexivity|reflexivity].
Qed.

Lemma irq_offload_fifo_accounting_witness :
  exists l,
    offload (priv (after (can_rx_offload_irq_offload_fifo
                            (const_env FLEXCAN_IFLAG_RX_FIFO_AVAILABLE true 0) 5)
                         (world_queue 127))) =
      mk_offload (replicate 127 frame_eff8 ++ l) 128 /\
    2 = Z.of_nat (length l).
Proof.
  destruct (irq_offload_fifo_accounting
              (const_env FLEXCAN_IFLAG_RX_FIFO_AVAILABLE true 0) 5
              (world_queue 127) 2) as (l & H1 & H2 & _).
  - vm_compute. reflexivity.
  - exists l. split; [exact H1|exact H2].
Defined.

(** X14.  One round of the drain, case by case.  With the FIFO flag
    clear nothing happens: no frame, no acknowledge, no counter.  With
    the flag set the FIFO is always acknowledged; a frame is handed
    back exactly when the queue is not over its limit and a buffer can
    be allocated, and in the two other cases (queue over the limit, or
    no memory) the frame is read away and counted in [rx_dropped]. *)
Theorem offload_one_cases env w :
  let avail := tst (u32 (hw_read env (clock w) IFLAG1 (regs w)))
                   FLEXCAN_IFLAG_RX_FIFO_AVAILABLE in
  let full := skb_queue_len (offload (priv w)) >? skb_queue_len_max (offload (priv w)) in
  let memory := skb_alloc env (S (clock w)) in
  let r := result (can_rx_offload_offload_one env) w in
  let w' := after (can_rx_offload_offload_one env) w in
  (avail = false ->
     r = None /\ priv w' = priv w /\ forall x, regs w' x = regs w x) /\
  (avail = true ->
     regs w' IFLAG1 = FLEXCAN_IFLAG_RX_FIFO_AVAILABLE /\
     (forall x, x <> IFLAG1 -> regs w' x = regs w x) /\
     (full = false -> memory = true -> is_Some r /\ priv w' = priv w) /\
     (full = true \/ memory = false ->
        r = None /\
        priv w' = set_stats (inc_rx_dropped (stats (priv w))) (priv w))).
Proof.
  cbv zeta. destruct (offload_one_run env w) as (f & ck & l & E & _ & G & F).
  cbv zeta in E, G, F. rewrite E. cbn [priv regs]. clear E. split.
  - intros Ha. rewrite Ha in *. cbn [andb] in *. repeat split; auto.
  - intros Ha. rewrite Ha in *. cbn [andb] in *.
    split; [rewrite F; destruct (decide (IFLAG1 = IFLAG1)); congruence|].
    split; [intros x Hx; rewrite F; destruct (decide (x = IFLAG1)); congruence|].
    split.
    + intros Hf Hm. rewrite Hf, Hm in *. cbn [negb andb] in *. split; auto.
    + intros [Hf|Hm].
      * rewrite Hf in *. cbn [negb andb] in *. split; auto.
      * rewrite Hm in *. rewrite andb_false_r in *. cbn [negb] in *. split; auto.
Qed.

Lemma offload_one_cases_witness :
  let env := const_env FLEXCAN_IFLAG_RX_FIFO_AVAILABLE false 0 in
  let w := world0 CAN_STATE_ERROR_ACTIVE in
  result (can_rx_offload_offload_one env) w = None /\
  rx_dropped (stats (priv (after (can_rx_offload_offload_one env) w))) = 1.
Proof.
  cbv zeta.
  destruct (proj2 (offload_one_cases
                     (const_env FLEXCAN_IFLAG_RX_FIFO_AVAILABLE false 0)
                     (world0 CAN_STATE_ERROR_ACTIVE)) eq_refl) as (_ & _ & _ & H).
  destruct (H (or_intror eq_refl)) as (H1 & H2).
  split; [exact H1|]. rewrite H2. reflexivity.
Defined.

Lemma ulong_idem x : ulong (ulong x) = ulong x.
Proof. unfold ulong. apply Z.mod_mod. discriminate. Qed.

Lemma ulong_add_l x y : ulong (ulong x + y) = ulong (x + y).
Proof. unfold ulong. apply Zplus_mod_idemp_l. Qed.

Lemma skb_dequeue_run w :
  let o := offload (priv w) in
  result skb_dequeue w = head (skb_queue o) /\
  after skb_dequeue w =
    mk_world (match skb_queue o with
              | [] => priv w
              | _ :: q => set_offload (mk_offload q (skb_queue_len_max o)) (priv w)
              end) (regs w) (clock w) (trace w).
Proof.
  cbv zeta. destruct w as [p f ck tr]. unfold skb_dequeue. cbn [priv regs clock trace].
  mrun. destruct (skb_queue (offload p)); mrun; split; reflexivity.
Qed.

(** The poll loop takes frames off the head of the queue, in order, up
    to its budget. *)
Lemma napi_poll_loop_run budget work_done w :
  let o := offload (priv w) in
  let n := Nat.min budget (length (skb_queue o)) in
  let w' := after (napi_poll_loop budget work_done) w in
  result (napi_poll_loop budget work_done) w = work_done + Z.of_nat n /\
  offload (priv w') = mk_offload (drop n (skb_queue o)) (skb_queue_len_max o) /\
  trace w' = trace w ++ map EvNetifReceiveSkb (take n (skb_queue o)) /\
  ulong (rx_packets (stats (priv w'))) =
    ulong (rx_packets (stats (priv w)) + Z.of_nat n) /\
  ulong (rx_bytes (stats (priv w'))) =
    ulong (rx_bytes (stats (priv w)) + total_dlc (take n (skb_queue o))) /\
  rx_dropped (stats (priv w')) = rx_dropped (stats (priv w)) /\
  state (priv w') = state (priv w) /\ regs w' = regs w.
Proof.
  cbv zeta. revert work_done w. induction budget as [|budget IH]; intros work_done w.
  - cbn [napi_poll_loop Nat.min]. rewrite result_ret, after_ret, app_nil_r.
    cbn [take drop total_dlc foldr]. rewrite !Z.add_0_r.
    destruct (offload (priv w)); repeat split.
  - cbn [napi_poll_loop]. rewrite result_bind, after_bind.
    destruct (skb_dequeue_run w) as (R & E). cbv zeta in R, E. rewrite R, E.
    clear R E. destruct (offload (priv w)) as [q lim] eqn:Ho.
    cbn [skb_queue skb_queue_len_max head].
    destruct q as [|cf q]; cbn [head].
    + rewrite result_ret, after_ret. cbn [priv regs trace length Nat.min take drop
        total_dlc foldr map]. rewrite app_nil_r, !Z.add_0_r, Ho. repeat split.
    + unfold modify_stats.
      rewrite !result_bind, !after_bind, !after_modify_priv, after_emit.
      cbn [priv regs clock trace].
      match goal with |- context [after (napi_poll_loop budget ?r) ?w0] =>
        destruct (IH r w0) as (R & O & T & P & B & D & S & G); revert R O T P B D S G;
        generalize (result (napi_poll_loop budget r) w0)
                   (after (napi_poll_loop budget r) w0)
      end.
      cbn [priv regs clock trace offload set_offload set_stats skb_queue
           skb_queue_len_max stats state rx_packets rx_bytes rx_dropped
           inc_rx_packets add_rx_bytes].
      intros r1 w1 R O T P B D S G.
      cbn [length Nat.min take drop map total_dlc foldr].
      fold (total_dlc (take (Nat.min budget (length q)) q)).
      rewrite R, O, T, P, B, D, S, G, <- app_assoc, !ulong_add_l.
      repeat split; try lia; f_equal; lia.
Qed.

(** X16.  The poll takes [min quota length] frames off the head of the
    queue and delivers them upstream in queue order, counting each in
    [rx_packets] and its length code in [rx_bytes] (modulo the width of
    the counters); the rest of the queue stays in place.  It completes
    the poll exactly when it did less work than its quota, and then the
    queue is empty, so that no frame is left behind without a
    scheduled poll. *)
Theorem napi_poll_delivers_in_order quota w :
  let o := offload (priv w) in
  let n := Nat.min (Z.to_nat quota) (length (skb_queue o)) in
  let w' := after (can_rx_offload_napi_poll quota) w in
  result (can_rx_offload_napi_poll quota) w = Z.of_nat n /\
  new_events w w' =
    map EvNetifReceiveSkb (take n (skb_queue o)) ++
    (if Z.of_nat n <? quota then [EvNapiComplete] else []) ++ [EvLedRx] /\
  offload (priv w') = mk_offload (drop n (skb_queue o)) (skb_queue_len_max o) /\
  (Z.of_nat n < quota -> skb_queue (offload (priv w')) = []) /\
  ulong (rx_packets (stats (priv w'))) =
    ulong (rx_packets (stats (priv w)) + Z.of_nat n) /\
  ulong (rx_bytes (stats (priv w'))) =
    ulong (rx_bytes (stats (priv w)) + total_dlc (take n (skb_queue o))) /\
  rx_dropped (stats (priv w')) = rx_dropped (stats (priv w)) /\
  state (priv w') = state (priv w) /\ regs w' = regs w.
Proof.
  cbv zeta. unfold can_rx_offload_napi_poll. rewrite result_bind, after_bind.
  destruct (napi_poll_loop_run (Z.to_nat quota) 0 w) as (R & O & T & P & B & D & S & G).
  cbv zeta in *. revert R O T P B D S G.
  generalize (result (napi_poll_loop (Z.to_nat quota) 0) w)
             (after (napi_poll_loop (Z.to_nat quota) 0) w).
  intros r1 w1 -> O T P B D S G. rewrite Z.add_0_l.
  set (n := Nat.min (Z.to_nat quota) (length (skb_queue (offload (priv w))))) in *.
  assert (Z.of_nat n < quota -> drop n (skb_queue (offload (priv w))) = []) as Hempty.
  { intros Hlt. apply drop_ge. lia. }
  rewrite !result_bind, !after_bind, result_ret, after_ret, after_emit.
  cbn [priv regs clock trace].
  destruct (Z.ltb_spec (Z.of_nat n) quota) as [Hlt|Hge].
  - rewrite after_bind, after_emit, after_bind.
    change (after get_priv ?x) with x. change (result get_priv ?x) with (priv x).
    cbn [priv regs clock trace]. rewrite O. unfold skb_queue_len.
    cbn [skb_queue]. rewrite (Hempty Hlt). cbn [length].
    change (negb (Z.of_nat 0 =? 0)) with false. cbv iota.
    rewrite after_ret. cbn [priv regs clock trace]. rewrite O, (Hempty Hlt).
    split; [reflexivity|].
    split; [apply new_events_trace_app; rewrite T, <- !app_assoc; reflexivity|].
    repeat split; assumption.
  - rewrite after_ret.
    split; [reflexivity|].
    split; [apply new_events_trace_app; rewrite T, <- !app_assoc; reflexivity|].
    split; [exact O|]. split; [intros; lia|]. repeat split; assumption.
Qed.

(** ** Interrupt dispatcher: accounting *)

Lemma napi_irq_after env fuel w :
  after (flexcan_napi_irq env fuel) w = after (flexcan_napi_irq_body env fuel) w.
Proof.
  unfold flexcan_napi_irq. rewrite after_bind.
  destruct (result (flexcan_napi_irq_body env fuel) w); reflexivity.
Qed.

(** The interrupt handler from its two reads on: the drain if the FIFO
    flag is set, then the acknowledges. *)
Lemma napi_irq_body_run env fuel w :
  let reg_iflag1 := u32 (hw_read env (clock w) IFLAG1 (regs w)) in
  let reg_esr := u32 (hw_read env (S (clock w)) ESR (regs w)) in
  let wa := mk_world (priv w) (regs w) (S (S (clock w)))
              (trace w ++ [EvRead IFLAG1 reg_iflag1; EvRead ESR reg_esr]) in
  let avail := tst reg_iflag1 FLEXCAN_IFLAG_RX_FIFO_AVAILABLE in
  let w1 := if avail then after (can_rx_offload_irq_offload_fifo env fuel) wa else wa in
  let ovf := tst reg_iflag1 FLEXCAN_IFLAG_RX_FIFO_OVERFLOW in
  let txdone := tst reg_iflag1 tx_buf_flag in
  let w' := after (flexcan_napi_irq_body env fuel) w in
  is_Some (result (flexcan_napi_irq_body env fuel) w) ->
  trace w' = trace w1 ++ irq_tail_events reg_iflag1 reg_esr /\
  stats (priv w') =
    (let s := stats (priv w1) in
     let s := if ovf then inc_rx_errors (inc_rx_over_errors s) else s in
     if txdone then inc_tx_packets (add_tx_bytes (echo_skb_len env) s) else s) /\
  state (priv w') = state (priv w1) /\ offload (priv w') = offload (priv w1) /\
  (forall x, x <> IFLAG1 -> x <> ESR -> regs w' x = regs w1 x) /\
  regs w' ESR = (if tst reg_esr FLEXCAN_ESR_ALL_INT
                 then Z.land reg_esr FLEXCAN_ESR_ALL_INT else regs w1 ESR).
Proof.
  cbv zeta. unfold flexcan_napi_irq_body.
  rewrite result_bind, after_bind, after_read, result_read.
  rewrite result_bind, after_bind, after_read, result_read.
  cbn [priv regs clock trace]. rewrite <- app_assoc. cbn [app].
  set (reg_iflag1 := u32 (hw_read env (clock w) IFLAG1 (regs w))).
  set (reg_esr := u32 (hw_read env (S (clock w)) ESR (regs w))).
  set (wa := mk_world _ _ _ _).
  rewrite result_bind, after_bind.
  fold tx_buf_flag.
  assert (forall r1 w1,
    is_Some (result
       match r1 with
       | Some handled =>
           handled0 <- (if tst reg_iflag1 FLEXCAN_IFLAG_RX_FIFO_OVERFLOW
               then flexcan_write FLEXCAN_IFLAG_RX_FIFO_OVERFLOW IFLAG1;;
                    modify_stats inc_rx_over_errors;;
                    modify_stats inc_rx_errors;; ret IRQ_HANDLED
               else ret handled);;
           handled1 <- (if tst reg_iflag1 tx_buf_flag
               then modify_stats (add_tx_bytes (echo_skb_len env));;
                    modify_stats inc_tx_packets;; emit EvLedTx;;
                    flexcan_write tx_buf_flag IFLAG1;;
                    emit EvNetifWakeQueue;; ret IRQ_HANDLED
               else ret handled0);;
           handled2 <- (if tst reg_esr FLEXCAN_ESR_ALL_INT
               then flexcan_write (Z.land reg_esr FLEXCAN_ESR_ALL_INT) ESR;;
                    ret IRQ_HANDLED
               else ret handled1);;
           (if tst reg_esr FLEXCAN_ESR_ERR_STATE
            then emit (EvLog (MsgErrState reg_esr)) else ret tt);;
           (if tst reg_esr FLEXCAN_ESR_ERR_BUS
            then emit (EvLog (MsgErrBus reg_esr)) else ret tt);;
           ret (Some handled2)
       | None => ret None
       end w1) -> is_Some r1) as Hsome.
  { intros [h|] w1 [x Hx]; [eexists; reflexivity|discriminate Hx]. }
  intros Hres. apply Hsome in Hres. clear Hsome.
  match goal with |- context [after ?m wa] =>
    assert (after m wa =
            if tst reg_iflag1 FLEXCAN_IFLAG_RX_FIFO_AVAILABLE
            then after (can_rx_offload_irq_offload_fifo env fuel) wa else wa) as Ew
      by (destruct (tst reg_iflag1 FLEXCAN_IFLAG_RX_FIFO_AVAILABLE);
          [rewrite after_bind, after_ret|rewrite after_ret]; reflexivity);
    rewrite Ew; clear Ew
  end.
  destruct Hres as [h ->].
  generalize (if tst reg_iflag1 FLEXCAN_IFLAG_RX_FIFO_AVAILABLE
              then after (can_rx_offload_irq_offload_fifo env fuel) wa else wa).
  intros [p1 f1 ck1 tr1]. unfold irq_tail_events. cbn [priv regs clock trace].
  destruct (tst reg_iflag1 FLEXCAN_IFLAG_RX_FIFO_OVERFLOW),
    (tst reg_iflag1 tx_buf_flag), (tst reg_esr FLEXCAN_ESR_ALL_INT),
    (tst reg_esr FLEXCAN_ESR_ERR_STATE), (tst reg_esr FLEXCAN_ESR_ERR_BUS);
    mrun; rewrite <- ?app_assoc, ?app_nil_r; cbn [app];
    (split; [reflexivity|]); (split; [reflexivity|]); (split; [reflexivity|]);
    (split; [reflexivity|]);
    (split; [intros x H1 H2; rewrite ?upd_other by congruence; reflexivity|]);
    rewrite ?upd_same; reflexivity.
Qed.

Lemma napi_irq_body_none env fuel w :
  let reg_iflag1 := u32 (hw_read env (clock w) IFLAG1 (regs w)) in
  let reg_esr := u32 (hw_read env (S (clock w)) ESR (regs w)) in
  let wa := mk_world (priv w) (regs w) (S (S (clock w)))
              (trace w ++ [EvRead IFLAG1 reg_iflag1; EvRead ESR reg_esr]) in
  result (flexcan_napi_irq_body env fuel) w = None ->
  after (flexcan_napi_irq_body env fuel) w =
  after (can_rx_offload_irq_offload_fifo env fuel) wa.
Proof.
  cbv zeta. unfold flexcan_napi_irq_body.
  rewrite result_bind, after_bind, after_read, result_read.
  rewrite result_bind, after_bind, after_read, result_read.
  cbn [priv regs clock trace]. rewrite <- app_assoc. cbn [app].
  rewrite result_bind, after_bind.
  destruct (tst _ FLEXCAN_IFLAG_RX_FIFO_AVAILABLE).
  - rewrite result_bind, after_bind, result_ret, after_ret.
    destruct (result (can_rx_offload_irq_offload_fifo env fuel) _); [|reflexivity].
    rewrite !result_bind, result_ret. discriminate.
  - rewrite result_ret, !result_bind, result_ret. discriminate.
Qed.

(** Calls that hand something to the network stack or take the link
    down. *)
Lemma irq_tail_upstream reg_iflag1 reg_esr :
  delivered_frames (irq_tail_events reg_iflag1 reg_esr) = [] /\
  link_down_signals (irq_tail_events reg_iflag1 reg_esr) = 0%nat /\
  wake_queue_calls (irq_tail_events reg_iflag1 reg_esr) =
    (if tst reg_iflag1 tx_buf_flag then 1%nat else 0%nat).
Proof.
  unfold irq_tail_events.
  destruct (tst reg_iflag1 FLEXCAN_IFLAG_RX_FIFO_OVERFLOW),
    (tst reg_iflag1 tx_buf_flag), (tst reg_esr FLEXCAN_ESR_ALL_INT),
    (tst reg_esr FLEXCAN_ESR_ERR_STATE), (tst reg_esr FLEXCAN_ESR_ERR_BUS);
    repeat split.
Qed.

Lemma link_down_signals_app l1 l2 :
  link_down_signals (l1 ++ l2) = (link_down_signals l1 + link_down_signals l2)%nat.
Proof. apply count_events_app. Qed.

Lemma wake_queue_calls_app l1 l2 :
  wake_queue_calls (l1 ++ l2) = (wake_queue_calls l1 + wake_queue_calls l2)%nat.
Proof. apply count_events_app. Qed.

(** The drain hands nothing upstream, takes no link down and wakes no
    queue; it leaves the recorded state and every register but the
    interrupt flags alone. *)
Lemma irq_offload_fifo_quiet env fuel w :
  let w' := after (can_rx_offload_irq_offload_fifo env fuel) w in
  exists tr,
    trace w' = trace w ++ tr /\
    delivered_frames tr = [] /\ link_down_signals tr = 0%nat /\
    wake_queue_calls tr = 0%nat /\
    state (priv w') = state (priv w) /\
    (exists dropped : bool,
       stats (priv w') = if dropped then inc_rx_dropped (stats (priv w))
                         else stats (priv w)) /\
    (forall x, x <> IFLAG1 -> regs w' x = regs w x).
Proof.
  cbv zeta.
  destruct (irq_offload_fifo_run env fuel w)
    as (l & tr & dropped & Ho & Hl & Hw & Hs & Hst & Ht & Ha & Hg).
  cbv zeta in *. eexists. split; [exact Ht|].
  rewrite delivered_frames_app, link_down_signals_app, wake_queue_calls_app.
  rewrite (reg_access_delivered tr Ha).
  unfold link_down_signals, wake_queue_calls.
  rewrite !(reg_access_count _ tr) by (auto; reflexivity).
  split; [|split; [|split; [|split; [exact Hst|split; [eauto|exact Hg]]]]];
    destruct (result (can_rx_offload_irq_offload_fifo env fuel) w) as [n|];
    try reflexivity; destruct (n =? 0); reflexivity.
Qed.

(** X17.  The interrupt handler never acts on the bus state: whatever
    the flags and the status word say (bus-off included), it leaves the
    recorded state as it was, signals no link-down, hands no frame
    upstream, and does not touch the interrupt mask, the control word or
    the module-control word. *)
Theorem flexcan_napi_irq_leaves_state env fuel w :
  let w' := after (flexcan_napi_irq env fuel) w in
  let tr := new_events w w' in
  state (priv w') = state (priv w) /\
  link_down_signals tr = 0%nat /\
  delivered_frames tr = [] /\
  regs w' IMASK1 = regs w IMASK1 /\ regs w' CTRL = regs w CTRL /\
  regs w' MCR = regs w MCR.
Proof.
  cbv zeta. rewrite napi_irq_after.
  set (reg_iflag1 := u32 (hw_read env (clock w) IFLAG1 (regs w))).
  set (reg_esr := u32 (hw_read env (S (clock w)) ESR (regs w))).
  set (wa := mk_world (priv w) (regs w) (S (S (clock w)))
               (trace w ++ [EvRead IFLAG1 reg_iflag1; EvRead ESR reg_esr])).
  destruct (irq_offload_fifo_quiet env fuel wa)
    as (tr & Ht & Hd & Hl & _ & Hs & _ & Hg).
  cbv zeta in Ht, Hs, Hg. cbn [priv regs trace wa] in Ht, Hs, Hg.
  destruct (result (flexcan_napi_irq_body env fuel) w) as [h|] eqn:Hr.
  - destruct (napi_irq_body_run env fuel w (ex_intro _ h Hr))
      as (T & _ & S & _ & G & _).
    cbv zeta in T, S, G. fold reg_iflag1 reg_esr wa in T, S, G.
    destruct (irq_tail_upstream reg_iflag1 reg_esr) as (U1 & U2 & _).
    rewrite S, !G by discriminate.
    destruct (tst reg_iflag1 FLEXCAN_IFLAG_RX_FIFO_AVAILABLE).
    + rewrite Hs, !Hg by discriminate.
      rewrite (new_events_trace_app w _ ([EvRead IFLAG1 reg_iflag1; EvRead ESR reg_esr]
                 ++ tr ++ irq_tail_events reg_iflag1 reg_esr))
        by (rewrite T, Ht, <- !app_assoc; reflexivity).
      rewrite !link_down_signals_app, !delivered_frames_app, Hd, Hl, U1, U2.
      repeat split.
    + rewrite (new_events_trace_app w _ ([EvRead IFLAG1 reg_iflag1; EvRead ESR reg_esr]
                 ++ irq_tail_events reg_iflag1 reg_esr))
        by (rewrite T; unfold wa; cbn [trace]; rewrite <- !app_assoc; reflexivity).
      rewrite !link_down_signals_app, !delivered_frames_app, U1, U2.
      repeat split.
  - rewrite (napi_irq_body_none env fuel w Hr). fold reg_iflag1 reg_esr wa.
    rewrite Hs, !Hg by discriminate.
    rewrite (new_events_trace_app w _ ([EvRead IFLAG1 reg_iflag1; EvRead ESR reg_esr]
               ++ tr))
      by (rewrite Ht, <- !app_assoc; reflexivity).
    rewrite !link_down_signals_app, !delivered_frames_app, Hd, Hl.
    repeat split.
Qed.

(** X18.  What the interrupt handler books when it returns.  A set
    overflow flag costs one [rx_over_errors] and one [rx_errors]; a set
    transmit flag books one packet and the length of the echoed frame
    and wakes the transmit queue once; the interrupt bits of the status
    word are written back as read, and nothing is written to the status
    register when none is set.  After its two reads and the drain, the
    calls it makes are those of [irq_tail_events], in that order. *)
Theorem flexcan_napi_irq_accounting env fuel w :
  is_Some (result (flexcan_napi_irq env fuel) w) ->
  let w' := after (flexcan_napi_irq env fuel) w in
  let reg_iflag1 := u32 (hw_read env (clock w) IFLAG1 (regs w)) in
  let reg_esr := u32 (hw_read env (S (clock w)) ESR (regs w)) in
  let ovf := tst reg_iflag1 FLEXCAN_IFLAG_RX_FIFO_OVERFLOW in
  let txdone := tst reg_iflag1 tx_buf_flag in
  let s := stats (priv w) in
  let s' := stats (priv w') in
  tx_packets s' = (if txdone then ulong (tx_packets s + 1) else tx_packets s) /\
  tx_bytes s' = (if txdone then ulong (tx_bytes s + echo_skb_len env)
                 else tx_bytes s) /\
  rx_over_errors s' = (if ovf then ulong (rx_over_errors s + 1)
                       else rx_over_errors s) /\
  rx_errors s' = (if ovf then ulong (rx_errors s + 1) else rx_errors s) /\
  wake_queue_calls (new_events w w') = (if txdone then 1%nat else 0%nat) /\
  regs w' ESR = (if tst reg_esr FLEXCAN_ESR_ALL_INT
                 then Z.land reg_esr FLEXCAN_ESR_ALL_INT else regs w ESR) /\
  exists tr,
    new_events w w' =
      [EvRead IFLAG1 reg_iflag1; EvRead ESR reg_esr] ++ tr ++
      irq_tail_events reg_iflag1 reg_esr /\
    (tst reg_iflag1 FLEXCAN_IFLAG_RX_FIFO_AVAILABLE = false -> tr = []).
Proof.
  intros Hres. cbv zeta. rewrite napi_irq_after.
  assert (is_Some (result (flexcan_napi_irq_body env fuel) w)) as Hb.
  { unfold flexcan_napi_irq in Hres. rewrite result_bind in Hres.
    destruct (result (flexcan_napi_irq_body env fuel) w); [eauto|].
    destruct Hres as [x Hx]. discriminate Hx. }
  clear Hres.
  set (reg_iflag1 := u32 (hw_read env (clock w) IFLAG1 (regs w))).
  set (reg_esr := u32 (hw_read env (S (clock w)) ESR (regs w))).
  set (wa := mk_world (priv w) (regs w) (S (S (clock w)))
               (trace w ++ [EvRead IFLAG1 reg_iflag1; EvRead ESR reg_esr])).
  destruct (irq_offload_fifo_quiet env fuel wa)
    as (tr & Ht & _ & _ & Hk & _ & (dropped & Hs) & Hg).
  cbv zeta in Ht, Hs, Hg. cbn [priv regs trace wa] in Ht, Hs, Hg.
  destruct (napi_irq_body_run env fuel w Hb) as (T & S & _ & _ & _ & E).
  cbv zeta in T, S, E. fold reg_iflag1 reg_esr wa in T, S, E.
  destruct (irq_tail_upstream reg_iflag1 reg_esr) as (_ & _ & U3).
  rewrite S, E. clear S E.
  destruct (tst reg_iflag1 FLEXCAN_IFLAG_RX_FIFO_AVAILABLE).
  - rewrite Hs, Hg by discriminate.
    rewrite (new_events_trace_app w _ ([EvRead IFLAG1 reg_iflag1; EvRead ESR reg_esr]
               ++ tr ++ irq_tail_events reg_iflag1 reg_esr))
      by (rewrite T, Ht, <- !app_assoc; reflexivity).
    rewrite !wake_queue_calls_app, Hk, U3.
    destruct dropped, (tst reg_iflag1 FLEXCAN_IFLAG_RX_FIFO_OVERFLOW),
      (tst reg_iflag1 tx_buf_flag);
      (repeat split; try reflexivity; exists tr; split; [reflexivity|discriminate]).
  - rewrite (new_events_trace_app w _ ([EvRead IFLAG1 reg_iflag1; EvRead ESR reg_esr]
               ++ irq_tail_events reg_iflag1 reg_esr))
      by (rewrite T; unfold wa; cbn [trace]; rewrite <- !app_assoc; reflexivity).
    rewrite !wake_queue_calls_app, U3. cbn [priv stats regs wa].
    destruct (tst reg_iflag1 FLEXCAN_IFLAG_RX_FIFO_OVERFLOW),
      (tst reg_iflag1 tx_buf_flag);
      (repeat split; try reflexivity; exists []; split; reflexivity).
Qed.

Lemma flexcan_napi_irq_accounting_witness :
  let env := const_env (Z.lor tx_buf_flag FLEXCAN_IFLAG_RX_FIFO_OVERFLOW) true 0 in
  let w := world0 CAN_STATE_ERROR_ACTIVE in
  let s' := stats (priv (after (flexcan_napi_irq env 1) w)) in
  tx_packets s' = 1 /\ rx_over_errors s' = 1 /\ rx_errors s' = 1.
Proof.
  cbv zeta.
  destruct (flexcan_napi_irq_accounting
              (const_env (Z.lor tx_buf_flag FLEXCAN_IFLAG_RX_FIFO_OVERFLOW) true 0)
              1 (world0 CAN_STATE_ERROR_ACTIVE)) as (H1 & _ & H3 & H4 & _).
  - eexists. reflexivity.
  - cbv zeta in H1, H3, H4. split; [exact H1|]. split; [exact H3|exact H4].
Defined.

(** ** The log of the life-cycle code *)

Lemma kcalls_app l1 l2 : kcalls (l1 ++ l2) = kcalls l1 ++ kcalls l2.
Proof. apply omap_app. Qed.

Lemma kcalls_Drv l : kcalls (map Drv l) = [].
Proof. induction l as [|e l IH]; [reflexivity | exact IH]. Qed.

Lemma drv_events_app l1 l2 : drv_events (l1 ++ l2) = drv_events l1 ++ drv_events l2.
Proof. apply omap_app. Qed.

Lemma drv_events_Drv l : drv_events (map Drv l) = l.
Proof. induction l as [|e l IH]; [reflexivity | cbn; f_equal; exact IH]. Qed.

Lemma knew_app d d' l : klog d' = klog d ++ l -> knew d d' = l.
Proof. intros H. unfold knew. rewrite H. apply drop_app_length. Qed.

(** ** Open and close *)

Ltac krun :=
  cbv beta iota zeta delta
    [kafter kresult kbind kret kcall_ lift kget fst snd
     drv priv_reg_esr bus_error tx_errors stm gpr klog].

(** One step of a run: decide the next test or name the outcome of the
    next call into the sections above. *)
Ltac kstep :=
  krun;
  match goal with
  | |- context [negb (?c =? 0)] => destruct (c =? 0) eqn:?
  | |- context [match ?m ?w with pair _ _ => _ end] =>
      lazymatch m with
      | (if _ then _ else _) => fail
      | _ => let a := fresh "a" in let w' := fresh "w" in
             destruct (m w) as [a w'] eqn:?
      end
  | |- context [if negb ?c then _ else _] => destruct c eqn:?
  end;
  cbn [negb].

(** The kernel calls of a log written as a sum of pieces. *)
Ltac klog_calls :=
  unfold taken, given_back, knew; cbn [klog];
  rewrite <- ?app_assoc, ?drop_app_length, ?kcalls_app, ?kcalls_Drv;
  cbn [app kcalls omap list_omap acquires releases rev last].

(** The kernel resources of a run of [flexcan_open]. *)
Lemma flexcan_open_resources env krn d :
  let e := kresult (flexcan_open env krn) d in
  let d' := kafter (flexcan_open env krn) d in
  if e =? 0
  then taken d d' = [RClk clk_ipg; RClk clk_per; RCandev; RIrq; RNapi napi_offload] /\
       given_back d d' = [] /\
       last (kcalls (knew d d')) = Some KNetifStartQueue /\
       state (priv (drv d')) = CAN_STATE_ERROR_ACTIVE /\
       skb_queue (offload (priv (drv d'))) = []
  else given_back d d' = rev (taken d d') /\
       ~ In KNetifStartQueue (kcalls (knew d d')) /\
       ~ In (KNapiEnable napi_offload) (kcalls (knew d d')).
Proof.
  cbv zeta. destruct d as [w pe be te st g lg].
  unfold flexcan_open, out_free_irq, out_close, out_disable_per, out_disable_ipg,
    clk_prepare_enable, clk_disable_unprepare, can_rx_offload_enable.
  repeat kstep.
  all: krun.
  all: klog_calls.
  all: repeat match goal with H : (_ =? 0) = _ |- _ => rewrite ?H; revert H end; intros.
  all: cbn [app rev last].
  all: try (split; [reflexivity | split; intros F; cbn in F; intuition discriminate]).
  rewrite Z.eqb_refl.
  pose proof (chip_start_success env w0) as S. unfold result, after in S.
  rewrite Heqp0 in S. cbn [fst snd] in S.
  specialize (S (proj1 (Z.eqb_eq _ _) Heqb4)). cbv zeta in S.
  destruct S as (ck & f & v & l & _ & P & _).
  unfold can_rx_offload_add_fifo, can_rx_offload_init_queue in Heqp.
  cbv beta iota zeta delta [bind modify_priv emit ret] in Heqp.
  injection Heqp as <- <-. rewrite P. repeat split.
Qed.

(** What [flexcan_open] returns and what it leaves in the driver's world:
    without the four kernel grants nothing, with them what
    [can_rx_offload_add_fifo] and [flexcan_chip_start] leave. *)
Lemma flexcan_open_run env krn d :
  let e := kresult (flexcan_open env krn) d in
  let d' := kafter (flexcan_open env krn) d in
  let e_ipg := clk_prepare_enable_ret krn clk_ipg in
  let e_per := clk_prepare_enable_ret krn clk_per in
  let e_dev := open_candev_ret krn in
  let e_irq := request_irq_ret krn in
  let w1 := after (can_rx_offload_add_fifo FLEXCAN_NAPI_WEIGHT) (drv d) in
  if (e_ipg =? 0) && (e_per =? 0) && (e_dev =? 0) && (e_irq =? 0)
  then e = result (flexcan_chip_start env) w1 /\
       drv d' = after (flexcan_chip_start env) w1 /\
       drv_events (knew d d') =
         EvNetifNapiAdd FLEXCAN_NAPI_WEIGHT :: new_events w1 (drv d') /\
       kcalls (knew d d') =
         [KClkPrepareEnable clk_ipg e_ipg; KClkPrepareEnable clk_per e_per;
          KOpenCandev e_dev; KRequestIrq handler_flexcan_napi_irq e_irq] ++
         (if e =? 0
          then [KLedOpen; KNapiEnable napi_offload; KNetifStartQueue]
          else [KFreeIrq; KCloseCandev;
                KClkDisableUnprepare clk_per; KClkDisableUnprepare clk_ipg])
  else e = (if negb (e_ipg =? 0) then e_ipg
            else if negb (e_per =? 0) then e_per
            else if negb (e_dev =? 0) then e_dev else e_irq) /\
       drv d' = drv d /\
       drv_events (knew d d') = [].
Proof.
  cbv zeta. destruct d as [w pe be te st g lg].
  unfold flexcan_open, out_free_irq, out_close, out_disable_per, out_disable_ipg,
    clk_prepare_enable, clk_disable_unprepare, can_rx_offload_enable.
  repeat kstep.
  all: krun.
  all: cbn [andb negb].
  all: try match goal with
       | H : can_rx_offload_add_fifo _ _ = _ |- _ =>
           unfold can_rx_offload_add_fifo, can_rx_offload_init_queue in H;
           cbv beta iota zeta delta [bind modify_priv emit ret] in H;
           injection H as <- <-
       end.
  all: try discriminate.
  all: unfold after, result, can_rx_offload_add_fifo, can_rx_offload_init_queue.
  all: cbv beta iota zeta delta [bind modify_priv emit ret fst snd].
  all: cbn [priv regs clock trace].
  all: try match goal with
       | H : flexcan_chip_start _ _ = _ |- _ => rewrite H; cbn [fst snd]
       end.
  all: unfold knew; cbn [klog].
  all: rewrite ?(new_events_trace_app w _ [EvNetifNapiAdd FLEXCAN_NAPI_WEIGHT])
         by reflexivity.
  all: rewrite <- ?app_assoc, ?drop_app_length, ?drv_events_app, ?drv_events_Drv,
         ?kcalls_app, ?kcalls_Drv.
  all: cbn [app drv_events kcalls omap list_omap map].
  all: try match goal with
       | H : (?a =? 0) = false |- context [if ?a =? 0 then _ else _] => rewrite H
       end.
  all: try (apply Z.eqb_eq in Heqb4; subst).
  all: rewrite ?app_nil_r.
  all: repeat split; reflexivity.
Qed.

(** X19.  [flexcan_open] returns the error of the first kernel request
    that is refused (the two clocks, the CAN device, the interrupt
    line) and, when all four are granted, what [flexcan_chip_start]
    returns.  When it returns 0 it has taken, in this order, the two
    clocks, the CAN device, the interrupt line and the NAPI context of
    the receive queue, has given nothing back, has started the transmit
    queue as its last call, and has left the state ERROR_ACTIVE and the
    receive queue empty.  When it returns an error it has given back,
    in the reverse order, the clocks, the CAN device and the interrupt
    line it had taken, and has neither enabled the NAPI context nor
    started the queue.  With the four requests granted, its kernel
    calls are these requests followed, on success, by the LED event,
    [napi_enable] and [netif_start_queue], and on failure by
    [free_irq], [close_candev] and the two clock disables; its driver
    calls are the [netif_napi_add] of [can_rx_offload_add_fifo]
    followed by those of [flexcan_chip_start]; and the driver's memory
    and registers are exactly as [flexcan_chip_start] left them, so
    that after a failed start neither the [netif_napi_add] nor what
    [flexcan_chip_start] left is undone.  When a kernel request is
    refused there is no driver call and the driver's memory and
    registers are untouched. *)
Theorem flexcan_open_outcomes env krn d :
  let e := kresult (flexcan_open env krn) d in
  let d' := kafter (flexcan_open env krn) d in
  let e_ipg := clk_prepare_enable_ret krn clk_ipg in
  let e_per := clk_prepare_enable_ret krn clk_per in
  let e_dev := open_candev_ret krn in
  let e_irq := request_irq_ret krn in
  let w1 := after (can_rx_offload_add_fifo FLEXCAN_NAPI_WEIGHT) (drv d) in
  (if e =? 0
   then taken d d' = [RClk clk_ipg; RClk clk_per; RCandev; RIrq; RNapi napi_offload] /\
        given_back d d' = [] /\
        last (kcalls (knew d d')) = Some KNetifStartQueue /\
        state (priv (drv d')) = CAN_STATE_ERROR_ACTIVE /\
        skb_queue (offload (priv (drv d'))) = []
   else given_back d d' = rev (taken d d') /\
        ~ In KNetifStartQueue (kcalls (knew d d')) /\
        ~ In (KNapiEnable napi_offload) (kcalls (knew d d'))) /\
  (if (e_ipg =? 0) && (e_per =? 0) && (e_dev =? 0) && (e_irq =? 0)
   then e = result (flexcan_chip_start env) w1 /\
        drv d' = after (flexcan_chip_start env) w1 /\
        drv_events (knew d d') =
          EvNetifNapiAdd FLEXCAN_NAPI_WEIGHT :: new_events w1 (drv d') /\
        kcalls (knew d d') =
          [KClkPrepareEnable clk_ipg e_ipg; KClkPrepareEnable clk_per e_per;
           KOpenCandev e_dev; KRequestIrq handler_flexcan_napi_irq e_irq] ++
          (if e =? 0
           then [KLedOpen; KNapiEnable napi_offload; KNetifStartQueue]
           else [KFreeIrq; KCloseCandev;
                 KClkDisableUnprepare clk_per; KClkDisableUnprepare clk_ipg])
   else e = (if negb (e_ipg =? 0) then e_ipg
             else if negb (e_per =? 0) then e_per
             else if negb (e_dev =? 0) then e_dev else e_irq) /\
        drv d' = drv d /\
        drv_events (knew d d') = []).
Proof.
  cbv zeta. split.
  - exact (flexcan_open_resources env krn d).
  - exact (flexcan_open_run env krn d).
Qed.

(** X20.  [flexcan_close] cannot fail: it returns 0, takes nothing,
    gives back the interrupt line, the two clocks (the peripheral clock
    first) and then the CAN device, and leaves the chip stopped: state
    STOPPED, the interrupt mask zero, the module-disable bit written.
    The NAPI context it disables, before all of these, is the driver's
    own ([&priv->napi]); the one of the receive queue, which
    [flexcan_open] enables, is not among the resources it gives back. *)
Theorem flexcan_close_releases env d :
  let d' := kafter (flexcan_close env) d in
  kresult (flexcan_close env) d = 0 /\
  given_back d d' = [RNapi napi_priv; RIrq; RClk clk_per; RClk clk_ipg; RCandev] /\
  taken d d' = [] /\
  priv (drv d') = set_state CAN_STATE_STOPPED (priv (drv d)) /\
  regs (drv d') IMASK1 = 0 /\
  Z.testbit (regs (drv d') MCR) 31 = true.
Proof.
  cbv zeta. destruct d as [w pe be te st g lg].
  unfold flexcan_close, clk_disable_unprepare.
  repeat kstep. krun. klog_calls.
  cbv beta iota zeta delta [emit] in Heqp. injection Heqp as <- <-.
  destruct (chip_stop_run env {| priv := priv w; regs := regs w; clock := clock w;
                                 trace := trace w ++ [EvNetifStopQueue] |})
    as (P & I & _ & D & _).
  unfold after in P, I, D. rewrite Heqp0 in P, I, D. cbn [snd priv] in P, I, D.
  repeat split; assumption.
Qed.

(** ** Registration *)

Lemma chip_disable_priv env w : priv (after (flexcan_chip_disable env) w) = priv w.
Proof. destruct (chip_disable_bounded env w) as (l & v & _ & _ & _ & _ & P & _). exact P. Qed.

Lemma chip_enable_priv env w : priv (after (flexcan_chip_enable env) w) = priv w.
Proof. destruct (chip_enable_bounded env w) as (l & v & _ & _ & _ & _ & P & _). exact P. Qed.

(** Turn the named outcomes of [kstep] into [after] and [result]. *)
Ltac name_runs :=
  repeat match goal with
    | H : ?m ?w = (?a, ?w') |- _ =>
        let Ha := fresh "Ha" in let Hr := fresh "Hr" in
        assert (after m w = w') as Ha by (unfold after; rewrite H; reflexivity);
        assert (result m w = a) as Hr by (unfold result; rewrite H; reflexivity);
        clear H
    end.

(** What the chip-control calls, the reads and the writes of a run leave
    of the driver's memory. *)
Ltac priv_chain :=
  repeat match goal with
    | Ha : after (flexcan_chip_disable ?env) ?w = ?w' |- _ =>
        let P := fresh "P" in let D := fresh "D" in
        pose proof (chip_disable_priv env w) as P;
        pose proof (chip_disable_sets_mdis env w) as D;
        rewrite Ha in P, D; clear Ha
    | Ha : after (flexcan_chip_enable ?env) ?w = ?w' |- _ =>
        let P := fresh "P" in
        pose proof (chip_enable_priv env w) as P; rewrite Ha in P; clear Ha
    | Ha : after (flexcan_read ?env ?r) ?w = ?w' |- _ =>
        let P := fresh "P" in
        assert (priv w' = priv w) as P by (rewrite <- Ha; reflexivity); clear Ha
    | Ha : after (flexcan_write ?v ?r) ?w = ?w' |- _ =>
        let P := fresh "P" in
        assert (priv w' = priv w) as P by (rewrite <- Ha; reflexivity); clear Ha
    end.

Ltac in_calls :=
  cbn [In]; unfold not; repeat (split || intro);
  repeat match goal with
    | H : _ \/ _ |- _ => destruct H
    | H : False |- _ => destruct H
    | H : _ /\ _ |- _ => destruct H
    | H : (_ =? 0) = false |- _ => apply Z.eqb_neq in H
    | H : (_ =? 0) = true |- _ => apply Z.eqb_eq in H
    end;
  try discriminate; try congruence; try lia.

(** The clocks, the driver's memory and the verdict of a run of
    [register_flexcandev]. *)
Lemma register_flexcandev_clocks env krn d :
  let e := kresult (register_flexcandev env krn) d in
  let d' := kafter (register_flexcandev env krn) d in
  let l := kcalls (knew d d') in
  given_back d d' = rev (taken d d') /\
  priv (drv d') = priv (drv d) /\
  (if (clk_prepare_enable_ret krn clk_ipg =? 0)
      && (clk_prepare_enable_ret krn clk_per =? 0)
   then Z.testbit (regs (drv d') MCR) 31 = true
   else drv d' = drv d /\ e <> 0) /\
  (e = 0 <-> In (KRegisterCandev 0) l) /\
  (In KNetdevErrUnsupportedCore l ->
   e = - ENODEV /\ forall r, ~ In (KRegisterCandev r) l).
Proof.
  cbv zeta. destruct d as [w pe be te st g lg].
  unfold register_flexcandev, reg_out_chip_disable, out_disable_per,
    out_disable_ipg, clk_prepare_enable, clk_disable_unprepare.
  repeat kstep.
  all: krun.
  all: klog_calls.
  all: repeat match goal with H : (_ =? 0) = _ |- _ => rewrite ?H; revert H end; intros.
  all: cbn [app rev last andb].
  all: name_runs; priv_chain.
  all: split; [reflexivity|]; split; [congruence|].
  all: split; [first [assumption | split; [reflexivity | in_calls]]|].
  all: try solve [in_calls].
  split; [split; [intros E; rewrite E; cbn [In]; auto 10 | in_calls] | in_calls].
Qed.

(** The run of [register_flexcandev] cut at its tests: the two clocks,
    the two chip-control calls and the read-back of the FIFO enable. *)
Lemma register_flexcandev_run env krn d :
  let e := kresult (register_flexcandev env krn) d in
  let d' := kafter (register_flexcandev env krn) d in
  let e_ipg := clk_prepare_enable_ret krn clk_ipg in
  let e_per := clk_prepare_enable_ret krn clk_per in
  let e1 := result (flexcan_chip_disable env) (drv d) in
  let w1 := after (register_select_clock env)
              (after (flexcan_chip_disable env) (drv d)) in
  let e2 := result (flexcan_chip_enable env) w1 in
  let w2 := after (flexcan_chip_enable env) w1 in
  let reg := result (register_probe_fifo env) w2 in
  let w3 := after (register_probe_fifo env) w2 in
  if (e_ipg =? 0) && (e_per =? 0)
  then e = (if negb (e1 =? 0) then e1
            else if negb (e2 =? 0) then e2
            else if negb (tst reg FLEXCAN_MCR_FEN) then - ENODEV
            else register_candev_ret krn) /\
       drv d' = (if negb (e1 =? 0) then after (flexcan_chip_disable env) (drv d)
                 else if negb (e2 =? 0) then after (flexcan_chip_disable env) w2
                 else after (flexcan_chip_disable env) w3) /\
       kcalls (knew d d') =
         [KClkPrepareEnable clk_ipg e_ipg; KClkPrepareEnable clk_per e_per] ++
         (if negb (e1 =? 0) then []
          else if negb (e2 =? 0) then []
          else if negb (tst reg FLEXCAN_MCR_FEN) then [KNetdevErrUnsupportedCore]
          else [KRegisterCandev (register_candev_ret krn)]) ++
         [KClkDisableUnprepare clk_per; KClkDisableUnprepare clk_ipg]
  else e = (if negb (e_ipg =? 0) then e_ipg else e_per) /\
       drv d' = drv d /\
       kcalls (knew d d') =
         KClkPrepareEnable clk_ipg e_ipg ::
         (if negb (e_ipg =? 0) then []
          else [KClkPrepareEnable clk_per e_per; KClkDisableUnprepare clk_ipg]).
Proof.
  cbv zeta. destruct d as [w pe be te st g lg].
  unfold register_flexcandev, reg_out_chip_disable, out_disable_per,
    out_disable_ipg, clk_prepare_enable, clk_disable_unprepare.
  repeat kstep.
  all: krun.
  all: cbn [andb negb].
  all: name_runs; subst.
  all: unfold register_select_clock, register_probe_fifo in *.
  all: rewrite ?after_bind, ?result_bind in *.
  all: try congruence.
  all: klog_calls.
  all: repeat split; try reflexivity.
Qed.

(** X21.  [register_flexcandev] leaves the clocks as it found them:
    whatever fails, the clocks it switched on are switched off again, in
    the reverse order.  With both clocks on, the word last written to
    the module-control register has the module-disable bit set; if a
    clock fails, the chip is not touched and the result is the error
    of that clock, not 0.  It returns 0 exactly when
    [register_candev] was called and answered 0.  With both clocks on
    it returns the error of [flexcan_chip_disable] or of
    [flexcan_chip_enable] if one fails; else it reads the
    module-control register back after setting the FIFO-enable bit: if
    the bit reads clear it reports the core as unsupported, returns
    [-ENODEV] and does not register the device; if the bit reads set it
    calls [register_candev] and returns its answer.  Its kernel calls
    are the two clock enables, then that log line or that call of
    [register_candev] (neither when a chip-control call failed), then
    the two clock disables.  The chip is left as the last
    [flexcan_chip_disable] of the run leaves it: the first one when it
    fails, the closing one otherwise.  The driver's memory is never
    changed. *)
Theorem register_flexcandev_cleans_up env krn d :
  let e := kresult (register_flexcandev env krn) d in
  let d' := kafter (register_flexcandev env krn) d in
  let l := kcalls (knew d d') in
  let e_ipg := clk_prepare_enable_ret krn clk_ipg in
  let e_per := clk_prepare_enable_ret krn clk_per in
  let e1 := result (flexcan_chip_disable env) (drv d) in
  let w1 := after (register_select_clock env)
              (after (flexcan_chip_disable env) (drv d)) in
  let e2 := result (flexcan_chip_enable env) w1 in
  let w2 := after (flexcan_chip_enable env) w1 in
  let reg := result (register_probe_fifo env) w2 in
  let w3 := after (register_probe_fifo env) w2 in
  given_back d d' = rev (taken d d') /\
  priv (drv d') = priv (drv d) /\
  (if (e_ipg =? 0) && (e_per =? 0)
   then Z.testbit (regs (drv d') MCR) 31 = true
   else drv d' = drv d /\ e <> 0) /\
  (e = 0 <-> In (KRegisterCandev 0) l) /\
  (In KNetdevErrUnsupportedCore l ->
   e = - ENODEV /\ forall r, ~ In (KRegisterCandev r) l) /\
  (if (e_ipg =? 0) && (e_per =? 0)
   then e = (if negb (e1 =? 0) then e1
             else if negb (e2 =? 0) then e2
             else if negb (tst reg FLEXCAN_MCR_FEN) then - ENODEV
             else register_candev_ret krn) /\
        drv d' = (if negb (e1 =? 0) then after (flexcan_chip_disable env) (drv d)
                  else if negb (e2 =? 0) then after (flexcan_chip_disable env) w2
                  else after (flexcan_chip_disable env) w3) /\
        l = [KClkPrepareEnable clk_ipg e_ipg; KClkPrepareEnable clk_per e_per] ++
            (if negb (e1 =? 0) then []
             else if negb (e2 =? 0) then []
             else if negb (tst reg FLEXCAN_MCR_FEN) then [KNetdevErrUnsupportedCore]
             else [KRegisterCandev (register_candev_ret krn)]) ++
            [KClkDisableUnprepare clk_per; KClkDisableUnprepare clk_ipg]
   else e = (if negb (e_ipg =? 0) then e_ipg else e_per) /\
        drv d' = drv d /\
        l = KClkPrepareEnable clk_ipg e_ipg ::
            (if negb (e_ipg =? 0) then []
             else [KClkPrepareEnable clk_per e_per; KClkDisableUnprepare clk_ipg])).
Proof.
  cbv zeta.
  destruct (register_flexcandev_clocks env krn d) as (H1 & H2 & H3 & H4 & H5).
  repeat (split; [assumption|]).
  exact (register_flexcandev_run env krn d).
Qed.

Lemma register_flexcandev_cleans_up_witness :
  kresult (register_flexcandev no_fifo_env (kernel_ok false false))
          (device0 (world0 CAN_STATE_STOPPED)) = - ENODEV.
Proof.
  destruct (register_flexcandev_cleans_up no_fifo_env (kernel_ok false false)
              (device0 (world0 CAN_STATE_STOPPED))) as (_ & _ & _ & _ & H & _).
  apply H. vm_compute. auto 10.
Defined.

(** ** Suspend and resume *)

Ltac krun_mem :=
  cbv beta iota zeta delta
    [kafter kresult kbind kret kcall_ lift kget fst snd
     drv priv_reg_esr bus_error tx_errors stm gpr klog
     set_can_state modify_priv emit regmap_update_bits
     priv regs clock trace set_state state features].

Lemma stop_mask_bit b i :
  0 <= b < 32 -> 0 <= i -> Z.testbit (u32 (Z.shiftl 1 b)) i = (i =? b).
Proof.
  intros Hb Hi. unfold u32. rewrite Z.shiftl_1_l, Z.mod_small.
  - rewrite Z.pow2_bits_eqb by lia. apply Z.eqb_sym.
  - split; [apply Z.pow_nonneg; lia | apply Z.pow_lt_mono_r; lia].
Qed.

Lemma update_bits_spec g m v i :
  0 <= i ->
  Z.testbit (Z.lor (Z.land g (Z.lnot m)) (Z.land v m)) i =
  if Z.testbit m i then Z.testbit v i else Z.testbit g i.
Proof.
  intros Hi. rewrite Z.lor_spec, !Z.land_spec, Z.lnot_spec by exact Hi.
  destruct (Z.testbit m i), (Z.testbit v i), (Z.testbit g i); reflexivity.
Qed.

Lemma chip_enable_clears_mdis env w :
  Z.testbit (regs (after (flexcan_chip_enable env) w) MCR) 31 = false.
Proof.
  destruct (chip_enable_run env w) as (ck & l & -> & _). cbn [regs].
  rewrite upd_same. apply (testbit_clr_BIT _ 31). lia.
Qed.

(** Name the outcome of the next call into the sections above. *)
Ltac kcall_step run :=
  match goal with
  | |- context [match ?m ?w with pair _ _ => _ end] =>
      lazymatch m with
      | (if _ then _ else _) => fail
      | _ => let a := fresh "a" in let w' := fresh "w" in
             destruct (m w) as [a w'] eqn:?
      end
  end; run.

(** X22.  With the stop-request bit inside a 32-bit word:
    [flexcan_suspend] always records SLEEPING and [flexcan_resume]
    always records ERROR_ACTIVE, also when the chip does not
    acknowledge.  On a running interface that may wake the system both
    return 0 and write no chip register; on a core with the V10
    features the pair sets and then clears the stop-request bit, every
    other bit of the general-purpose registers staying as it was.  On a
    running interface that may not wake the system, suspend writes the
    module-disable bit and resume clears it.  On an interface that is
    down nothing but the state changes. *)
Theorem flexcan_suspend_resume env krn d :
  0 <= req_bit (stm d) < 32 ->
  let d1 := kafter (flexcan_suspend env krn) d in
  let d2 := kafter (flexcan_resume env krn) d1 in
  let reg := req_gpr (stm d) in
  let bit := req_bit (stm d) in
  state (priv (drv d1)) = CAN_STATE_SLEEPING /\
  state (priv (drv d2)) = CAN_STATE_ERROR_ACTIVE /\
  stm d2 = stm d /\
  if netif_running krn
  then if device_may_wakeup krn
       then regs (drv d2) = regs (drv d) /\
            kresult (flexcan_suspend env krn) d = 0 /\
            kresult (flexcan_resume env krn) d1 = 0 /\
            if tst (features (priv (drv d))) FLEXCAN_HAS_V10_FEATURES
            then Z.testbit (gpr d1 reg) bit = true /\
                 Z.testbit (gpr d2 reg) bit = false /\
                 forall r i, 0 <= i -> r <> reg \/ i <> bit ->
                   Z.testbit (gpr d1 r) i = Z.testbit (gpr d r) i /\
                   Z.testbit (gpr d2 r) i = Z.testbit (gpr d r) i
            else forall r, gpr d2 r = gpr d r
       else Z.testbit (regs (drv d1) MCR) 31 = true /\
            Z.testbit (regs (drv d2) MCR) 31 = false /\
            forall r, gpr d2 r = gpr d r
  else regs (drv d2) = regs (drv d) /\ klog d2 = klog d /\
       forall r, gpr d2 r = gpr d r.
Proof.
  intros Hb. cbv zeta.
  destruct d as [[[s cm bt sts off rcd feat ts rx] f ck tr] pe be te st g lg].
  cbn [stm] in *.
  unfold flexcan_suspend, flexcan_resume, flexcan_enter_stop_mode,
    flexcan_exit_stop_mode.
  destruct (netif_running krn); [destruct (device_may_wakeup krn)|].
  all: krun_mem.
  - destruct (tst feat FLEXCAN_HAS_V10_FEATURES) eqn:F; krun_mem; rewrite ?F; krun_mem.
    + rewrite !Z.eqb_refl.
      do 6 (split; [reflexivity|]).
      assert (0 <= req_bit st) as H0 by lia.
      split; [|split].
      * rewrite update_bits_spec, stop_mask_bit, Z.eqb_refl by lia.
        reflexivity.
      * rewrite update_bits_spec, stop_mask_bit, Z.eqb_refl by lia.
        apply Z.bits_0.
      * intros r i Hi Hne.
        destruct (r =? req_gpr st) eqn:R; [|split; reflexivity].
        apply Z.eqb_eq in R. subst r.
        assert ((i =? req_bit st) = false) as E by (apply Z.eqb_neq; intuition congruence).
        rewrite !update_bits_spec, !stop_mask_bit, E by lia.
        split; reflexivity.
    + repeat split.
  - repeat kcall_step krun_mem. name_runs.
    repeat match goal with
      | Ha : after (flexcan_chip_disable ?e) ?x = ?y |- _ =>
          pose proof (chip_disable_sets_mdis e x) as D; rewrite Ha in D; clear Ha
      | Ha : after (flexcan_chip_enable ?e) ?x = ?y |- _ =>
          pose proof (chip_enable_clears_mdis e x) as E;
          pose proof (chip_enable_priv e x) as P; rewrite Ha in E, P; clear Ha
      end.
    destruct w as [p1 f1 ck1 tr1], w0 as [p2 f2 ck2 tr2].
    cbn [regs priv] in D, E, P. clear Hr Hr0. repeat split; try assumption.
    rewrite P. reflexivity.
  - repeat split.
    unfold new_events. cbn [trace]. rewrite drop_all. cbn [map].
    rewrite !app_nil_r. reflexivity.
Qed.

Lemma flexcan_suspend_resume_witness :
  let krn := kernel_ok true true in
  let d := device0 world_v10 in
  let d1 := kafter (flexcan_suspend responsive_env krn) d in
  let d2 := kafter (flexcan_resume responsive_env krn) d1 in
  gpr d1 16 = 8 /\ gpr d2 16 = 0 /\
  state (priv (drv d2)) = CAN_STATE_ERROR_ACTIVE.
Proof.
  cbv zeta.
  destruct (flexcan_suspend_resume responsive_env (kernel_ok true true)
              (device0 world_v10)) as (_ & H & _).
  - cbn. lia.
  - split; [reflexivity | split; [reflexivity | exact H]].
Defined.

(** ** Bus-error reporting *)

Ltac krun_stats :=
  cbv beta iota zeta delta
    [kafter kresult kbind kret kcall_ lift kget fst snd
     drv priv_reg_esr bus_error tx_errors stm gpr klog
     alloc_can_err_skb alloc_can_skb bind ret tick get_priv
     modify_stats modify_priv emit inc_bus_error inc_tx_errors
     set_priv_reg_esr priv regs clock trace negb Z.eqb].

Lemma poll_bus_err_run env reg_esr d :
  let w := drv d in
  let d' := kafter (flexcan_poll_bus_err env reg_esr) d in
  let bit1 := tst reg_esr FLEXCAN_ESR_BIT1_ERR in
  let bit0 := tst reg_esr FLEXCAN_ESR_BIT0_ERR in
  let ack := tst reg_esr FLEXCAN_ESR_ACK_ERR in
  let crc := tst reg_esr FLEXCAN_ESR_CRC_ERR in
  let frm := tst reg_esr FLEXCAN_ESR_FRM_ERR in
  let stf := tst reg_esr FLEXCAN_ESR_STF_ERR in
  let flag (b : bool) (v : Z) := if b then v else 0 in
  regs (drv d') = regs w /\ priv_reg_esr d' = priv_reg_esr d /\
  if skb_alloc env (clock w)
  then kresult (flexcan_poll_bus_err env reg_esr) d = 1 /\
       bus_error d' = u32 (bus_error d + 1) /\
       tx_errors d' = (if bit1 || bit0 || ack then ulong (tx_errors d + 1)
                       else tx_errors d) /\
       priv (drv d') =
         set_stats
           (add_rx_bytes CAN_ERR_DLC
              (inc_rx_packets
                 ((if crc || frm || stf then inc_rx_errors else id)
                    (stats (priv w)))))
           (priv w) /\
       exists cf l,
         klog d' = klog d ++ l /\
         kcalls l = map KPrintk (berr_msgs reg_esr) /\
         delivered_frames (drv_events l) = [cf] /\
         can_id cf =
           Z.lor (Z.lor CAN_ERR_FLAG (Z.lor CAN_ERR_PROT CAN_ERR_BUSERROR))
                 (flag ack CAN_ERR_ACK) /\
         can_dlc cf = CAN_ERR_DLC /\
         data cf =
           [0; 0;
            Z.lor (Z.lor (Z.lor (Z.lor (flag bit1 CAN_ERR_PROT_BIT1)
                                       (flag bit0 CAN_ERR_PROT_BIT0))
                                (flag crc CAN_ERR_PROT_BIT))
                         (flag frm CAN_ERR_PROT_FORM))
                  (flag stf CAN_ERR_PROT_STUFF);
            Z.lor (flag ack CAN_ERR_PROT_LOC_ACK) (flag crc CAN_ERR_PROT_LOC_CRC_SEQ);
            0; 0; 0; 0]
  else kresult (flexcan_poll_bus_err env reg_esr) d = 0 /\
       bus_error d' = bus_error d /\ tx_errors d' = tx_errors d /\
       priv (drv d') = priv w /\ klog d' = klog d.
Proof.
  cbv zeta. destruct d as [[[s cm bt sts off rcd feat ts rx] f ck tr] pe be te st g lg].
  cbn [drv clock bus_error tx_errors priv priv_reg_esr klog regs].
  unfold flexcan_poll_bus_err, do_bus_err, berr_msgs.
  destruct (skb_alloc env ck) eqn:A.
  - destruct (tst reg_esr FLEXCAN_ESR_BIT1_ERR), (tst reg_esr FLEXCAN_ESR_BIT0_ERR),
      (tst reg_esr FLEXCAN_ESR_ACK_ERR), (tst reg_esr FLEXCAN_ESR_CRC_ERR),
      (tst reg_esr FLEXCAN_ESR_FRM_ERR), (tst reg_esr FLEXCAN_ESR_STF_ERR).
    all: krun_stats; rewrite A; krun_stats.
    all: unfold new_events; cbn [trace].
    all: rewrite <- ?app_assoc, ?drop_all; cbn [map app].
    all: rewrite ?drop_app_length.
    all: do 6 (split; [reflexivity|]).
    all: eexists; eexists; split; [reflexivity|].
    all: repeat split.
  - krun_stats. rewrite A. krun_stats.
    unfold new_events; cbn [trace].
    rewrite drop_all. cbn [map]. rewrite app_nil_r.
    repeat split.
Qed.

(** X23.  One bus-error report.  With a buffer,
    [flexcan_poll_bus_err] returns 1, counts one bus error, one
    transmit error if a bit-1, bit-0 or acknowledge error is flagged,
    one receive error if a CRC, form or stuff error is flagged, one
    packet and eight bytes, prints one line per flagged error, and
    hands up one frame: error flag, protocol-violation and bus-error
    classes (and the acknowledge class on an acknowledge error), the
    kind of violation in byte 2 and its location in byte 3.  Without a
    buffer it returns 0 and counts, prints and delivers nothing. *)
Theorem flexcan_poll_bus_err_accounting env reg_esr d :
  let w := drv d in
  let d' := kafter (flexcan_poll_bus_err env reg_esr) d in
  let bit1 := tst reg_esr FLEXCAN_ESR_BIT1_ERR in
  let bit0 := tst reg_esr FLEXCAN_ESR_BIT0_ERR in
  let ack := tst reg_esr FLEXCAN_ESR_ACK_ERR in
  let crc := tst reg_esr FLEXCAN_ESR_CRC_ERR in
  let frm := tst reg_esr FLEXCAN_ESR_FRM_ERR in
  let stf := tst reg_esr FLEXCAN_ESR_STF_ERR in
  let flag (b : bool) (v : Z) := if b then v else 0 in
  if skb_alloc env (clock w)
  then kresult (flexcan_poll_bus_err env reg_esr) d = 1 /\
       bus_error d' = u32 (bus_error d + 1) /\
       tx_errors d' = (if bit1 || bit0 || ack then ulong (tx_errors d + 1)
                       else tx_errors d) /\
       stats (priv (drv d')) =
         add_rx_bytes CAN_ERR_DLC
           (inc_rx_packets
              ((if crc || frm || stf then inc_rx_errors else id) (stats (priv w)))) /\
       state (priv (drv d')) = state (priv w) /\
       printk_calls (knew d d') = berr_msgs reg_esr /\
       exists cf,
         delivered_frames (drv_events (knew d d')) = [cf] /\
         can_id cf =
           Z.lor (Z.lor CAN_ERR_FLAG (Z.lor CAN_ERR_PROT CAN_ERR_BUSERROR))
                 (flag ack CAN_ERR_ACK) /\
         can_dlc cf = CAN_ERR_DLC /\
         data cf =
           [0; 0;
            Z.lor (Z.lor (Z.lor (Z.lor (flag bit1 CAN_ERR_PROT_BIT1)
                                       (flag bit0 CAN_ERR_PROT_BIT0))
                                (flag crc CAN_ERR_PROT_BIT))
                         (flag frm CAN_ERR_PROT_FORM))
                  (flag stf CAN_ERR_PROT_STUFF);
            Z.lor (flag ack CAN_ERR_PROT_LOC_ACK) (flag crc CAN_ERR_PROT_LOC_CRC_SEQ);
            0; 0; 0; 0]
  else kresult (flexcan_poll_bus_err env reg_esr) d = 0 /\
       bus_error d' = bus_error d /\ tx_errors d' = tx_errors d /\
       priv (drv d') = priv w /\ knew d d' = [].
Proof.
  pose proof (poll_bus_err_run env reg_esr d) as H. cbv zeta in *.
  destruct H as (_ & _ & H).
  destruct (skb_alloc env (clock (drv d))).
  - destruct H as (R & B & T & P & cf & l & L & C & F & I & N & D).
    rewrite (knew_app _ _ _ L), P.
    split; [exact R|]. split; [exact B|]. split; [exact T|].
    split; [reflexivity|]. split; [reflexivity|].
    split.
    + unfold printk_calls. rewrite C. clear. induction (berr_msgs reg_esr) as [|m l IH].
      * reflexivity.
      * cbn. f_equal. exact IH.
    + exists cf. repeat split; assumption.
  - destruct H as (R & B & T & P & L).
    repeat split; try assumption.
    unfold knew. rewrite L. apply drop_all.
Qed.

(** ** Interrupt handler of the build without IRQ_CAN_RX *)

Lemma kcalls_Krn c l : kcalls (Krn c :: l) = c :: kcalls l.
Proof. reflexivity. Qed.

Lemma kcalls_Drv_cons e l : kcalls (Drv e :: l) = kcalls l.
Proof. reflexivity. Qed.

(** The kernel calls of a log given as a sum of pieces. *)
Ltac kcalls_norm :=
  unfold knew; cbn [klog];
  rewrite <- ?app_assoc, drop_app_length;
  repeat (rewrite kcalls_app || rewrite kcalls_Drv || rewrite kcalls_Krn
          || rewrite kcalls_Drv_cons);
  cbn [app]; change (kcalls []) with (@nil kcall); rewrite ?app_nil_r.

Ltac regs_norm :=
  cbn [regs drv priv];
  repeat (rewrite upd_same || rewrite upd_other by discriminate).

Ltac krun_regs :=
  cbv beta iota zeta delta
    [kafter kresult kbind kret kcall_ lift kget fst snd
     drv priv_reg_esr bus_error tx_errors stm gpr klog
     bind ret tick get_priv flexcan_read flexcan_write
     modify_stats modify_priv emit regmap_update_bits
     set_priv_reg_esr priv regs clock trace].

(** When the interrupt handler schedules the poll and what it masks. *)
Lemma flexcan_irq_schedule env d :
  let w := drv d in
  let d' := kafter (flexcan_irq env) d in
  let reg_iflag1 := u32 (hw_read env (clock w) IFLAG1 (regs w)) in
  let reg_esr := u32 (hw_read env (S (clock w)) ESR (regs w)) in
  let wake := tst reg_esr FLEXCAN_ESR_WAK_INT
              && tst (features (priv w)) FLEXCAN_HAS_V10_FEATURES in
  let mask := u32 (Z.shiftl 1 (req_bit (stm d))) in
  kresult (flexcan_irq env) d = IRQ_HANDLED /\
  state (priv (drv d')) = state (priv w) /\
  kcalls (knew d d') =
    (if wake then [KRegmapUpdateBits (req_gpr (stm d)) mask 0] else []) ++
    (if tst reg_iflag1 FLEXCAN_IFLAG_RX_FIFO_AVAILABLE
        || tst reg_esr FLEXCAN_ESR_ERR_STATE
        || flexcan_has_and_handle_berr (priv w) reg_esr
     then [KNapiSchedule napi_priv] else []) /\
  if tst reg_iflag1 FLEXCAN_IFLAG_RX_FIFO_AVAILABLE
     || tst reg_esr FLEXCAN_ESR_ERR_STATE
     || flexcan_has_and_handle_berr (priv w) reg_esr
  then priv_reg_esr d' = Z.land reg_esr FLEXCAN_ESR_ERR_BUS /\
       regs (drv d') IMASK1 =
         clr FLEXCAN_IFLAG_DEFAULT FLEXCAN_IFLAG_RX_FIFO_AVAILABLE /\
       regs (drv d') CTRL =
         clr (reg_ctrl_default (priv w)) FLEXCAN_CTRL_ERR_ALL
  else priv_reg_esr d' = priv_reg_esr d /\
       regs (drv d') IMASK1 = regs w IMASK1 /\
       regs (drv d') CTRL = regs w CTRL.
Proof.
  cbv zeta. destruct d as [[p f ck tr] pe be te st g lg].
  cbn [drv clock regs priv priv_reg_esr stm].
  unfold flexcan_irq, flexcan_exit_stop_mode.
  set (reg_iflag1 := u32 (hw_read env ck IFLAG1 f)).
  set (reg_esr := u32 (hw_read env (S ck) ESR f)).
  krun_regs. fold reg_iflag1. fold reg_esr.
  destruct (tst reg_esr FLEXCAN_ESR_ALL_INT); krun_regs.
  all: destruct (tst reg_esr FLEXCAN_ESR_WAK_INT); krun_regs.
  all: try (destruct (tst (features p) FLEXCAN_HAS_V10_FEATURES); krun_regs).
  all: destruct (tst reg_iflag1 FLEXCAN_IFLAG_RX_FIFO_AVAILABLE
                 || tst reg_esr FLEXCAN_ESR_ERR_STATE
                 || flexcan_has_and_handle_berr p reg_esr); krun_regs.
  all: destruct (tst reg_iflag1 FLEXCAN_IFLAG_RX_FIFO_OVERFLOW); krun_regs.
  all: destruct (tst reg_iflag1 (Z.shiftl 1 (Z.of_nat FLEXCAN_TX_BUF_ID))); krun_regs.
  all: cbn [andb app].
  all: split; [reflexivity|]; split; [reflexivity|].
  all: split; [kcalls_norm; reflexivity|].
  all: regs_norm; repeat split.
Qed.

(** Every call of the interrupt handler, in order, and its counters. *)
Lemma flexcan_irq_log env d :
  let w := drv d in
  let d' := kafter (flexcan_irq env) d in
  let reg_iflag1 := u32 (hw_read env (clock w) IFLAG1 (regs w)) in
  let reg_esr := u32 (hw_read env (S (clock w)) ESR (regs w)) in
  let wake := tst reg_esr FLEXCAN_ESR_WAK_INT
              && tst (features (priv w)) FLEXCAN_HAS_V10_FEATURES in
  let mask := u32 (Z.shiftl 1 (req_bit (stm d))) in
  let sched := tst reg_iflag1 FLEXCAN_IFLAG_RX_FIFO_AVAILABLE
               || tst reg_esr FLEXCAN_ESR_ERR_STATE
               || flexcan_has_and_handle_berr (priv w) reg_esr in
  let overflow := tst reg_iflag1 FLEXCAN_IFLAG_RX_FIFO_OVERFLOW in
  let tx_done := tst reg_iflag1 (Z.shiftl 1 (Z.of_nat FLEXCAN_TX_BUF_ID)) in
  knew d d' =
    [Drv (EvRead IFLAG1 reg_iflag1); Drv (EvRead ESR reg_esr)] ++
    (if tst reg_esr FLEXCAN_ESR_ALL_INT
     then [Drv (EvWrite ESR (Z.land reg_esr FLEXCAN_ESR_ALL_INT))] else []) ++
    (if wake then [Krn (KRegmapUpdateBits (req_gpr (stm d)) mask 0)] else []) ++
    (if sched
     then [Drv (EvWrite IMASK1
                  (clr FLEXCAN_IFLAG_DEFAULT FLEXCAN_IFLAG_RX_FIFO_AVAILABLE));
           Drv (EvWrite CTRL (clr (reg_ctrl_default (priv w)) FLEXCAN_CTRL_ERR_ALL));
           Krn (KNapiSchedule napi_priv)]
     else []) ++
    (if overflow then [Drv (EvWrite IFLAG1 FLEXCAN_IFLAG_RX_FIFO_OVERFLOW)] else []) ++
    (if tx_done
     then [Drv EvLedTx;
           Drv (EvWrite IFLAG1 (Z.shiftl 1 (Z.of_nat FLEXCAN_TX_BUF_ID)));
           Drv EvNetifWakeQueue]
     else []) /\
  stats (priv (drv d')) =
    (if tx_done
     then fun s => inc_tx_packets (add_tx_bytes (echo_skb_len env) s)
     else fun s => s)
      ((if overflow then fun s => inc_rx_errors (inc_rx_over_errors s)
        else fun s => s) (stats (priv w))).
Proof.
  cbv zeta. destruct d as [[p f ck tr] pe be te st g lg].
  cbn [drv clock regs priv priv_reg_esr stm].
  unfold flexcan_irq, flexcan_exit_stop_mode.
  set (reg_iflag1 := u32 (hw_read env ck IFLAG1 f)).
  set (reg_esr := u32 (hw_read env (S ck) ESR f)).
  krun_regs. fold reg_iflag1. fold reg_esr.
  destruct (tst reg_esr FLEXCAN_ESR_ALL_INT); krun_regs.
  all: destruct (tst reg_esr FLEXCAN_ESR_WAK_INT); krun_regs.
  all: try (destruct (tst (features p) FLEXCAN_HAS_V10_FEATURES); krun_regs).
  all: destruct (tst reg_iflag1 FLEXCAN_IFLAG_RX_FIFO_AVAILABLE
                 || tst reg_esr FLEXCAN_ESR_ERR_STATE
                 || flexcan_has_and_handle_berr p reg_esr); krun_regs.
  all: destruct (tst reg_iflag1 FLEXCAN_IFLAG_RX_FIFO_OVERFLOW); krun_regs.
  all: destruct (tst reg_iflag1 (Z.shiftl 1 (Z.of_nat FLEXCAN_TX_BUF_ID))); krun_regs.
  all: cbn [andb app].
  all: unfold new_events; cbn [trace]; rewrite ?drop_app_length, ?drop_all.
  all: unfold knew; cbn [klog map app]; rewrite <- ?app_assoc, drop_app_length.
  all: cbn [app set_stats stats].
  all: split; reflexivity.
Qed.

(** X24.  The interrupt handler of the build without [IRQ_CAN_RX]
    returns [IRQ_HANDLED] and never changes the recorded state.  It
    schedules the poll exactly when a frame is ready, a state-change
    interrupt is pending, or a bus error is flagged while bus-error
    reporting is on; it then saves the bus-error bits of the status
    word, masks the FIFO interrupt and clears the error-interrupt
    enables of the control word.  Otherwise the saved bits, the
    interrupt mask and the control word stay as they were.  The log of
    the run holds, in this order and nothing else: the reads of the
    interrupt flags and of the status word; the write that acknowledges
    the pending status interrupts, if any; the removal of the stop
    request, on a wake-up interrupt of a core with the V10 features;
    the two masking writes and [napi_schedule], when the poll is
    scheduled; the acknowledge of a FIFO overflow; and, on
    transmit-complete, [can_led_event], the acknowledge of the transmit
    buffer and [netif_wake_queue].  An overflow adds one to
    [rx_over_errors] and to [rx_errors]; a transmit-complete adds the
    result of [can_get_echo_skb] (the [echo_skb_len] of the
    environment, which has no entry in the log) to [tx_bytes] and one
    to [tx_packets]; the other counters stay. *)
Theorem flexcan_irq_masks_and_schedules env d :
  let w := drv d in
  let d' := kafter (flexcan_irq env) d in
  let reg_iflag1 := u32 (hw_read env (clock w) IFLAG1 (regs w)) in
  let reg_esr := u32 (hw_read env (S (clock w)) ESR (regs w)) in
  let wake := tst reg_esr FLEXCAN_ESR_WAK_INT
              && tst (features (priv w)) FLEXCAN_HAS_V10_FEATURES in
  let mask := u32 (Z.shiftl 1 (req_bit (stm d))) in
  let sched := tst reg_iflag1 FLEXCAN_IFLAG_RX_FIFO_AVAILABLE
               || tst reg_esr FLEXCAN_ESR_ERR_STATE
               || flexcan_has_and_handle_berr (priv w) reg_esr in
  let overflow := tst reg_iflag1 FLEXCAN_IFLAG_RX_FIFO_OVERFLOW in
  let tx_done := tst reg_iflag1 (Z.shiftl 1 (Z.of_nat FLEXCAN_TX_BUF_ID)) in
  kresult (flexcan_irq env) d = IRQ_HANDLED /\
  state (priv (drv d')) = state (priv w) /\
  kcalls (knew d d') =
    (if wake then [KRegmapUpdateBits (req_gpr (stm d)) mask 0] else []) ++
    (if sched then [KNapiSchedule napi_priv] else []) /\
  (if sched
   then priv_reg_esr d' = Z.land reg_esr FLEXCAN_ESR_ERR_BUS /\
        regs (drv d') IMASK1 =
          clr FLEXCAN_IFLAG_DEFAULT FLEXCAN_IFLAG_RX_FIFO_AVAILABLE /\
        regs (drv d') CTRL =
          clr (reg_ctrl_default (priv w)) FLEXCAN_CTRL_ERR_ALL
   else priv_reg_esr d' = priv_reg_esr d /\
        regs (drv d') IMASK1 = regs w IMASK1 /\
        regs (drv d') CTRL = regs w CTRL) /\
  knew d d' =
    [Drv (EvRead IFLAG1 reg_iflag1); Drv (EvRead ESR reg_esr)] ++
    (if tst reg_esr FLEXCAN_ESR_ALL_INT
     then [Drv (EvWrite ESR (Z.land reg_esr FLEXCAN_ESR_ALL_INT))] else []) ++
    (if wake then [Krn (KRegmapUpdateBits (req_gpr (stm d)) mask 0)] else []) ++
    (if sched
     then [Drv (EvWrite IMASK1
                  (clr FLEXCAN_IFLAG_DEFAULT FLEXCAN_IFLAG_RX_FIFO_AVAILABLE));
           Drv (EvWrite CTRL (clr (reg_ctrl_default (priv w)) FLEXCAN_CTRL_ERR_ALL));
           Krn (KNapiSchedule napi_priv)]
     else []) ++
    (if overflow then [Drv (EvWrite IFLAG1 FLEXCAN_IFLAG_RX_FIFO_OVERFLOW)] else []) ++
    (if tx_done
     then [Drv EvLedTx;
           Drv (EvWrite IFLAG1 (Z.shiftl 1 (Z.of_nat FLEXCAN_TX_BUF_ID)));
           Drv EvNetifWakeQueue]
     else []) /\
  stats (priv (drv d')) =
    (if tx_done
     then fun s => inc_tx_packets (add_tx_bytes (echo_skb_len env) s)
     else fun s => s)
      ((if overflow then fun s => inc_rx_errors (inc_rx_over_errors s)
        else fun s => s) (stats (priv w))).
Proof.
  cbv zeta.
  destruct (flexcan_irq_schedule env d) as (H1 & H2 & H3 & H4).
  destruct (flexcan_irq_log env d) as (H5 & H6).
  repeat (split; [assumption|]). exact H6.
Qed.

(** ** What the poll leaves alone *)

Lemma poll_frame_refl w : poll_frame w w.
Proof. repeat split. Qed.

Lemma keeps_poll_frame_bind {A B} (m : M A) (k : A -> M B) :
  keeps_poll_frame m -> (forall a, keeps_poll_frame (k a)) ->
  keeps_poll_frame (bind m k).
Proof. intros Hm Hk w0 w H. rewrite after_bind. apply Hk, Hm, H. Qed.

Lemma keeps_poll_frame_ret {A} (a : A) : keeps_poll_frame (ret a).
Proof. intros w0 w H. exact H. Qed.

Lemma keeps_poll_frame_get_priv : keeps_poll_frame get_priv.
Proof. intros w0 w H. exact H. Qed.

Lemma keeps_poll_frame_tick : keeps_poll_frame tick.
Proof. intros w0 w H. exact H. Qed.

Lemma keeps_poll_frame_read env r : keeps_poll_frame (flexcan_read env r).
Proof. intros w0 w H. exact H. Qed.

Lemma keeps_poll_frame_emit e : keeps_poll_frame (emit e).
Proof. intros w0 w H. exact H. Qed.

Lemma keeps_poll_frame_write_iflag v : keeps_poll_frame (flexcan_write v IFLAG1).
Proof.
  intros w0 w (R & P). rewrite after_write. split; [|exact P].
  intros r Hr. cbn [regs]. rewrite upd_other by congruence. apply R, Hr.
Qed.

Lemma keeps_poll_frame_modify_priv f :
  (forall p, reg_ctrl_default (f p) = reg_ctrl_default p /\
             ctrlmode (f p) = ctrlmode p) ->
  keeps_poll_frame (modify_priv f).
Proof.
  intros Hf w0 w (R & C & M). rewrite after_modify_priv.
  destruct (Hf (priv w)) as (C' & M').
  repeat split; cbn [regs priv]; [exact R | congruence | congruence].
Qed.

Lemma keeps_poll_frame_modify_stats f : keeps_poll_frame (modify_stats f).
Proof. apply keeps_poll_frame_modify_priv. intros p. split; reflexivity. Qed.

Ltac solve_keeps_poll_frame :=
  repeat lazymatch goal with
    | |- keeps_poll_frame (ret _) => apply keeps_poll_frame_ret
    | |- keeps_poll_frame (flexcan_read _ _) => apply keeps_poll_frame_read
    | |- keeps_poll_frame get_priv => apply keeps_poll_frame_get_priv
    | |- keeps_poll_frame tick => apply keeps_poll_frame_tick
    | |- keeps_poll_frame (modify_stats _) => apply keeps_poll_frame_modify_stats
    | |- keeps_poll_frame (modify_priv _) =>
        apply keeps_poll_frame_modify_priv; intros ?; split; reflexivity
    | |- keeps_poll_frame (flexcan_write _ IFLAG1) =>
        apply keeps_poll_frame_write_iflag
    | |- keeps_poll_frame (emit _) => apply keeps_poll_frame_emit
    | |- keeps_poll_frame (bind _ _) => apply keeps_poll_frame_bind; [|intros ?]
    | |- keeps_poll_frame (if ?c then _ else _) => destruct c
    | |- keeps_poll_frame (match ?x with _ => _ end) => destruct x
    end.

Lemma keeps_poll_frame_poll_state env reg_esr :
  keeps_poll_frame (flexcan_poll_state env reg_esr).
Proof.
  unfold flexcan_poll_state, do_state, alloc_can_err_skb, flexcan_get_berr_counter.
  cbv zeta. solve_keeps_poll_frame.
Qed.

Lemma keeps_poll_frame_read_frame env : keeps_poll_frame (flexcan_read_frame env).
Proof.
  unfold flexcan_read_frame, flexcan_read_fifo, alloc_can_skb.
  cbv zeta. solve_keeps_poll_frame.
Qed.

Lemma returns01_bind {A} (m : M A) (k : A -> M Z) :
  (forall a, returns01 (k a)) -> returns01 (bind m k).
Proof. intros Hk w. rewrite result_bind. apply Hk. Qed.

Ltac solve_returns01 :=
  repeat lazymatch goal with
    | |- returns01 (ret 0) => intros ?; left; reflexivity
    | |- returns01 (ret 1) => intros ?; right; reflexivity
    | |- returns01 (bind _ _) => apply returns01_bind; intros ?
    | |- returns01 (if ?c then _ else _) => destruct c
    | |- returns01 (match ?x with _ => _ end) => destruct x
    end.

Lemma returns01_poll_state env reg_esr : returns01 (flexcan_poll_state env reg_esr).
Proof. unfold flexcan_poll_state. cbv zeta. solve_returns01. Qed.

Lemma returns01_read_frame env : returns01 (flexcan_read_frame env).
Proof. unfold flexcan_read_frame. solve_returns01. Qed.

Lemma poll_fifo_loop_run env fuel quota :
  forall reg_iflag1 work_done w n,
    result (poll_fifo_loop env fuel quota reg_iflag1 work_done) w = Some n ->
    work_done <= n <= Z.max work_done quota /\
    forall w0, poll_frame w0 w ->
               poll_frame w0 (after (poll_fifo_loop env fuel quota reg_iflag1 work_done) w).
Proof.
  induction fuel as [|fuel IH]; intros reg_iflag1 work_done w n; cbn [poll_fifo_loop].
  - destruct (tst reg_iflag1 FLEXCAN_IFLAG_RX_FIFO_AVAILABLE && (work_done <? quota)).
    + discriminate.
    + intros [= <-]. split; [lia|]. intros w0 H. exact H.
  - destruct (tst reg_iflag1 FLEXCAN_IFLAG_RX_FIFO_AVAILABLE && (work_done <? quota))
      eqn:C.
    + rewrite !result_bind, !after_bind. intros H.
      apply andb_true_iff in C. destruct C as (_ & C). apply Z.ltb_lt in C.
      destruct (IH _ _ _ _ H) as (B & F).
      destruct (returns01_read_frame env w) as [E|E]; rewrite E in B.
      * split; [lia|]. intros w0 H0. apply F. apply keeps_poll_frame_read.
        apply keeps_poll_frame_read_frame. exact H0.
      * split; [lia|]. intros w0 H0. apply F. apply keeps_poll_frame_read.
        apply keeps_poll_frame_read_frame. exact H0.
    + intros [= <-]. split; [lia|]. intros w0 H. exact H.
Qed.

(** ** Poll of the build without IRQ_CAN_RX *)

Ltac krun_priv :=
  cbv beta iota zeta delta
    [kafter kresult kbind kret kcall_ lift kget fst snd get_priv
     drv priv_reg_esr bus_error tx_errors stm gpr klog].

Ltac krun_wr :=
  cbv beta iota zeta delta
    [kafter kresult kbind kret kcall_ lift kget fst snd get_priv flexcan_write
     drv priv_reg_esr bus_error tx_errors stm gpr klog];
  cbn [priv regs].

(** The register part of the statement about [flexcan_poll]. *)
Ltac poll_regs R3 :=
  cbn [regs priv];
  split; [intros ? ? ? ?; rewrite ?upd_other by congruence; apply R3; assumption|];
  split; [congruence|];
  first
    [ split; [rewrite upd_other by discriminate; apply upd_same
             | rewrite upd_same; congruence]
    | split; apply R3; discriminate ].

Lemma poll_bus_err_frame env reg_esr d :
  let d' := kafter (flexcan_poll_bus_err env reg_esr) d in
  (kresult (flexcan_poll_bus_err env reg_esr) d = 0 \/
   kresult (flexcan_poll_bus_err env reg_esr) d = 1) /\
  regs (drv d') = regs (drv d) /\
  reg_ctrl_default (priv (drv d')) = reg_ctrl_default (priv (drv d)) /\
  exists l msgs, klog d' = klog d ++ l /\ kcalls l = map KPrintk msgs.
Proof.
  pose proof (poll_bus_err_run env reg_esr d) as H. cbv zeta in *.
  destruct H as (R & _ & H). split; [|split; [exact R|]].
  - destruct (skb_alloc env (clock (drv d))); destruct H as (-> & _); auto.
  - destruct (skb_alloc env (clock (drv d))).
    + destruct H as (_ & _ & _ & P & cf & l & L & C & _).
      split; [rewrite P; reflexivity|]. exists l. eexists. split; eassumption.
    + destruct H as (_ & _ & _ & P & L).
      split; [rewrite P; reflexivity|]. exists [], [].
      rewrite app_nil_r. split; [exact L | reflexivity].
Qed.

(** The budget and the registers of a poll that returns. *)
Lemma flexcan_poll_frame env fuel quota d n :
  kresult (flexcan_poll env fuel quota) d = Some n ->
  let d' := kafter (flexcan_poll env fuel quota) d in
  let w := drv d in
  let w' := drv d' in
  0 <= n <= Z.max quota 1 /\
  (exists msgs,
     kcalls (knew d d') =
       map KPrintk msgs ++
       (if n <? quota then [KNapiComplete napi_priv] else [])) /\
  (forall r, r <> IFLAG1 -> r <> IMASK1 -> r <> CTRL -> regs w' r = regs w r) /\
  reg_ctrl_default (priv w') = reg_ctrl_default (priv w) /\
  if n <? quota
  then regs w' IMASK1 = FLEXCAN_IFLAG_DEFAULT /\
       regs w' CTRL = reg_ctrl_default (priv w)
  else regs w' IMASK1 = regs w IMASK1 /\ regs w' CTRL = regs w CTRL.
Proof.
  intros H. cbv zeta. revert H.
  destruct d as [w pe be te st g lg].
  unfold flexcan_poll. krun_priv.
  do 4 kcall_step krun_priv.
  destruct a2 as [wd|]; krun_priv; [|discriminate].
  name_runs.
  assert (a0 = 0 \/ a0 = 1) as A0
    by (rewrite <- Hr1; apply returns01_poll_state).
  destruct (poll_fifo_loop_run env fuel quota a1 (0 + a0) w2 wd Hr) as (L & F).
  assert (poll_frame w w3) as (R3 & C3 & _).
  { rewrite <- Ha in *. apply F. rewrite <- Ha0. apply keeps_poll_frame_read.
    rewrite <- Ha1. apply keeps_poll_frame_poll_state.
    rewrite <- Ha2. apply keeps_poll_frame_read. apply poll_frame_refl. }
  clear Ha Ha0 Ha1 Ha2 Hr Hr0 Hr1 Hr2 F.
  destruct w3 as [p3 f3 ck3 tr3]. cbn [priv regs] in *.
  destruct (flexcan_has_and_handle_berr p3 (Z.lor a pe) && (wd <? quota)) eqn:B;
    krun_priv.
  - match goal with |- context [flexcan_poll_bus_err ?e ?r ?d] =>
      pose proof (poll_bus_err_frame e r d) as E;
      cbv zeta in E; unfold kresult, kafter in E;
      destruct (flexcan_poll_bus_err e r d)
        as [a2 [[p4 f4 ck4 tr4] pe4 be4 te4 st4 g4 lg4]] eqn:X
    end.
    cbn [fst snd drv regs priv klog] in E.
    destruct E as (A2 & -> & C4 & l & msgs & -> & K).
    apply andb_true_iff in B. destruct B as (_ & B). apply Z.ltb_lt in B.
    destruct (wd + a2 <? quota) eqn:Q; krun_wr; intros [= <-]; rewrite Q.
    + split; [lia|].
      split; [exists msgs; kcalls_norm; rewrite K; reflexivity|].
      poll_regs R3.
    + split; [lia|].
      split; [exists msgs; kcalls_norm; rewrite K, ?app_nil_r; reflexivity|].
      poll_regs R3.
  - destruct (wd <? quota) eqn:Q; krun_wr; intros [= <-]; rewrite Q.
    + split; [lia|].
      split; [exists []; kcalls_norm; reflexivity|].
      poll_regs R3.
    + split; [lia|].
      split; [exists []; kcalls_norm; reflexivity|].
      poll_regs R3.
Qed.

(** The calls of the steps of the poll. *)
Lemma emits_bind P {A B} (m : M A) (k : A -> M B) :
  emits P m -> (forall a, emits P (k a)) -> emits P (bind m k).
Proof.
  intros Hm Hk w. rewrite after_bind.
  destruct (Hm w) as (l1 & T1 & F1).
  destruct (Hk (result m w) (after m w)) as (l2 & T2 & F2).
  exists (l1 ++ l2). split.
  - rewrite T2, T1, app_assoc. reflexivity.
  - rewrite forallb_app, F1, F2. reflexivity.
Qed.

Lemma emits_silent P {A} (m : M A) :
  (forall w, trace (after m w) = trace w) -> emits P m.
Proof. intros H w. exists []. rewrite app_nil_r. split; [apply H|reflexivity]. Qed.

Lemma emits_one P {A} (m : M A) e :
  (forall w, trace (after m w) = trace w ++ [e w]) ->
  (forall w, P (e w) = true) -> emits P m.
Proof.
  intros H He w. exists [e w]. split; [apply H|]. cbn. rewrite He. reflexivity.
Qed.

Lemma emits_read P env r :
  (forall v, P (EvRead r v) = true) -> emits P (flexcan_read env r).
Proof.
  intros H. apply (emits_one P _
    (fun w => EvRead r (u32 (hw_read env (clock w) r (regs w))))).
  - intros w. reflexivity.
  - intros w. apply H.
Qed.

Lemma emits_write P v r : P (EvWrite r v) = true -> emits P (flexcan_write v r).
Proof.
  intros H. apply (emits_one P _ (fun _ => EvWrite r v)); [reflexivity|].
  intros _. exact H.
Qed.

Lemma emits_emit P e : P e = true -> emits P (emit e).
Proof.
  intros H. apply (emits_one P _ (fun _ => e)); [reflexivity|]. intros _. exact H.
Qed.

Ltac solve_emits :=
  repeat lazymatch goal with
    | |- emits _ (ret _) => apply emits_silent; reflexivity
    | |- emits _ get_priv => apply emits_silent; reflexivity
    | |- emits _ tick => apply emits_silent; reflexivity
    | |- emits _ (modify_stats _) => apply emits_silent; reflexivity
    | |- emits _ (modify_priv _) => apply emits_silent; reflexivity
    | |- emits _ (flexcan_read _ _) => apply emits_read; reflexivity
    | |- emits _ (flexcan_write _ _) => apply emits_write; reflexivity
    | |- emits _ (emit _) => apply emits_emit; reflexivity
    | |- emits _ (bind _ _) => apply emits_bind; [|intros ?]
    | |- emits _ (if ?c then _ else _) => destruct c
    | |- emits _ (match ?x with _ => _ end) => destruct x
    end.

Lemma poll_side_calls l :
  forallb is_poll_side_call l = true ->
  forallb is_poll_call l = true /\ delivered_frames l = [].
Proof.
  induction l as [|e l IH]; [split; reflexivity|].
  cbn [forallb]. intros H. apply andb_true_iff in H as [He Hl].
  destruct (IH Hl) as (F & D).
  destruct e; try discriminate He; cbn [forallb is_poll_call andb];
    (split; [exact F|exact D]).
Qed.

Lemma emits_do_state env cf new_state :
  emits is_poll_side_call (do_state env cf new_state).
Proof.
  unfold do_state, flexcan_get_berr_counter. cbv zeta. solve_emits.
Qed.

Lemma emits_read_fifo env cf : emits is_poll_side_call (flexcan_read_fifo env cf).
Proof. unfold flexcan_read_fifo. cbv zeta. solve_emits. Qed.

Lemma poll_work_poll_state env reg_esr : poll_work (flexcan_poll_state env reg_esr).
Proof.
  intros w. unfold flexcan_poll_state. cbv zeta.
  rewrite after_bind, result_bind.
  change (after get_priv w) with w. change (result get_priv w) with (priv w).
  cbv beta.
  destruct (decide (flexcan_new_state reg_esr = state (priv w))).
  { exists []. rewrite app_nil_r. repeat split; reflexivity. }
  rewrite after_bind, result_bind.
  unfold alloc_can_err_skb.
  rewrite !after_bind, !result_bind, after_tick, after_ret, result_ret.
  change (result tick w) with (clock w).
  destruct (skb_alloc env (clock w)).
  2:{ exists []. rewrite app_nil_r. repeat split; reflexivity. }
  cbv beta iota.
  rewrite after_bind, result_bind.
  match goal with |- context [after (do_state env ?cf ?s) ?w0] =>
    destruct (emits_do_state env cf s w0) as (l & T & F);
    cbn [trace] in T;
    generalize dependent (after (do_state env cf s) w0);
    generalize (result (do_state env cf s) w0)
  end.
  intros cf w1 T.
  cbv beta iota zeta delta
    [after result bind modify_stats modify_priv emit ret fst snd].
  cbn [priv regs clock trace].
  destruct (poll_side_calls l F) as (F' & D).
  exists (l ++ [EvNetifReceiveSkb cf]). split; [|split].
  - rewrite T, app_assoc. reflexivity.
  - rewrite forallb_app, F'. reflexivity.
  - rewrite delivered_frames_app, D. reflexivity.
Qed.

Lemma poll_work_read_frame env : poll_work (flexcan_read_frame env).
Proof.
  intros w. unfold flexcan_read_frame.
  rewrite after_bind, result_bind.
  unfold alloc_can_skb.
  rewrite !after_bind, !result_bind, after_tick, after_ret, result_ret.
  change (result tick w) with (clock w).
  destruct (skb_alloc env (clock w)).
  2:{ exists []. rewrite app_nil_r. repeat split; reflexivity. }
  cbv beta iota.
  rewrite after_bind, result_bind.
  match goal with |- context [after (flexcan_read_fifo env ?cf) ?w0] =>
    destruct (emits_read_fifo env cf w0) as (l & T & F);
    cbn [trace] in T;
    generalize dependent (after (flexcan_read_fifo env cf) w0);
    generalize (result (flexcan_read_fifo env cf) w0)
  end.
  intros cf w1 T.
  cbv beta iota zeta delta
    [after result bind modify_stats modify_priv emit ret fst snd].
  cbn [priv regs clock trace].
  destruct (poll_side_calls l F) as (F' & D).
  exists (l ++ [EvNetifReceiveSkb cf; EvLedRx]). split; [|split].
  - rewrite T, <- !app_assoc. reflexivity.
  - rewrite forallb_app, F'. reflexivity.
  - rewrite delivered_frames_app, D. reflexivity.
Qed.

Lemma poll_fifo_loop_calls env fuel quota :
  forall reg_iflag1 work_done w n,
    result (poll_fifo_loop env fuel quota reg_iflag1 work_done) w = Some n ->
    exists l,
      trace (after (poll_fifo_loop env fuel quota reg_iflag1 work_done) w) =
        trace w ++ l /\
      forallb is_poll_call l = true /\
      work_done + Z.of_nat (length (delivered_frames l)) = n.
Proof.
  induction fuel as [|fuel IH]; intros reg_iflag1 work_done w n; cbn [poll_fifo_loop].
  - destruct (tst reg_iflag1 FLEXCAN_IFLAG_RX_FIFO_AVAILABLE && (work_done <? quota)).
    + discriminate.
    + intros [= <-]. exists []. rewrite app_nil_r, after_ret. cbn. repeat split. lia.
  - destruct (tst reg_iflag1 FLEXCAN_IFLAG_RX_FIFO_AVAILABLE && (work_done <? quota)).
    + rewrite !result_bind, !after_bind. intros H.
      destruct (IH _ _ _ _ H) as (l2 & T2 & F2 & N2).
      destruct (poll_work_read_frame env w) as (l1 & T1 & F1 & N1).
      eexists (l1 ++ [_] ++ l2). split; [|split].
      * rewrite T2, after_read. cbn [trace]. rewrite T1, <- !app_assoc. reflexivity.
      * rewrite !forallb_app, F1, F2. reflexivity.
      * rewrite !delivered_frames_app, !length_app. cbn [delivered_frames omap list_omap length].
        lia.
    + intros [= <-]. exists []. rewrite app_nil_r, after_ret. cbn. repeat split. lia.
Qed.

Lemma poll_bus_err_calls env reg_esr d :
  let d' := kafter (flexcan_poll_bus_err env reg_esr) d in
  exists l,
    klog d' = klog d ++ l /\
    forallb is_poll_call (drv_events l) = true /\
    Z.of_nat (length (delivered_frames (drv_events l))) =
      kresult (flexcan_poll_bus_err env reg_esr) d.
Proof.
  cbv zeta. destruct d as [[[s cm bt sts off rcd feat ts rx] f ck tr] pe be te st g lg].
  cbn [klog].
  unfold flexcan_poll_bus_err, do_bus_err.
  destruct (skb_alloc env ck) eqn:A.
  - destruct (tst reg_esr FLEXCAN_ESR_BIT1_ERR), (tst reg_esr FLEXCAN_ESR_BIT0_ERR),
      (tst reg_esr FLEXCAN_ESR_ACK_ERR), (tst reg_esr FLEXCAN_ESR_CRC_ERR),
      (tst reg_esr FLEXCAN_ESR_FRM_ERR), (tst reg_esr FLEXCAN_ESR_STF_ERR).
    all: krun_stats; rewrite A; krun_stats.
    all: unfold new_events; cbn [trace].
    all: rewrite <- ?app_assoc, ?drop_all; cbn [map app].
    all: rewrite ?drop_app_length.
    all: eexists; split; [reflexivity|].
    all: split; reflexivity.
  - krun_stats. rewrite A. krun_stats.
    unfold new_events; cbn [trace].
    rewrite drop_all. cbn [map]. rewrite app_nil_r.
    exists []. rewrite app_nil_r. repeat split.
Qed.

(** The log of a poll that returns: what comes before the completion
    and the completion itself. *)
Lemma flexcan_poll_calls env fuel quota d n :
  kresult (flexcan_poll env fuel quota) d = Some n ->
  let d' := kafter (flexcan_poll env fuel quota) d in
  exists l0 msgs,
    knew d d' =
      l0 ++ (if n <? quota
             then [Krn (KNapiComplete napi_priv);
                   Drv (EvWrite IMASK1 FLEXCAN_IFLAG_DEFAULT);
                   Drv (EvWrite CTRL (reg_ctrl_default (priv (drv d))))]
             else []) /\
    kcalls l0 = map KPrintk msgs /\
    forallb is_poll_call (drv_events l0) = true /\
    Z.of_nat (length (delivered_frames (drv_events l0))) = n.
Proof.
  intros H. cbv zeta. revert H.
  destruct d as [w pe be te st g lg].
  unfold flexcan_poll. krun_priv.
  do 4 kcall_step krun_priv.
  destruct a2 as [wd|]; krun_priv; [|discriminate].
  name_runs.
  assert (poll_frame w w3) as (_ & C3 & _).
  { destruct (poll_fifo_loop_run env fuel quota a1 (0 + a0) w2 wd Hr) as (_ & F).
    rewrite <- Ha in *. apply F. rewrite <- Ha0. apply keeps_poll_frame_read.
    rewrite <- Ha1. apply keeps_poll_frame_poll_state.
    rewrite <- Ha2. apply keeps_poll_frame_read. apply poll_frame_refl. }
  destruct (poll_fifo_loop_calls env fuel quota a1 (0 + a0) w2 wd Hr) as (l3 & T3 & F3 & N3).
  rewrite Ha in T3.
  assert (trace w2 = trace w1 ++ [EvRead IFLAG1 a1]) as T2
    by (rewrite <- Ha0, <- Hr0; reflexivity).
  destruct (poll_work_poll_state env (Z.lor a pe) w0) as (l1 & T1 & F1 & N1).
  rewrite Ha1 in T1. rewrite Hr1 in N1.
  assert (trace w0 = trace w ++ [EvRead ESR a]) as T0
    by (rewrite <- Ha2, <- Hr2; reflexivity).
  rewrite (new_events_trace_app _ _ _ T0), (new_events_trace_app _ _ _ T1),
    (new_events_trace_app _ _ _ T2), (new_events_trace_app _ _ _ T3).
  clear Ha Ha0 Ha1 Ha2 Hr Hr0 Hr1 Hr2 T0 T1 T2 T3.
  destruct w3 as [p3 f3 ck3 tr3]. cbn [priv regs] in *.
  destruct (flexcan_has_and_handle_berr p3 (Z.lor a pe) && (wd <? quota)) eqn:B;
    krun_priv.
  - match goal with |- context [flexcan_poll_bus_err ?e ?r ?d] =>
      pose proof (poll_bus_err_frame e r d) as E;
      pose proof (poll_bus_err_calls e r d) as E';
      cbv zeta in E, E'; unfold kresult, kafter in E, E';
      destruct (flexcan_poll_bus_err e r d)
        as [a2 [[p4 f4 ck4 tr4] pe4 be4 te4 st4 g4 lg4]] eqn:X
    end.
    cbn [fst snd drv regs priv klog] in E, E'.
    destruct E as (_ & _ & C4 & l & msgs & L & K).
    destruct E' as (l' & L' & F & N).
    rewrite L in L'. apply app_inv_head in L'. subst l' lg4.
    destruct (wd + a2 <? quota) eqn:Q; krun_wr; intros [= <-]; rewrite Q.
    all: exists (map Drv [EvRead ESR a] ++ map Drv l1 ++ map Drv [EvRead IFLAG1 a1] ++
                 map Drv l3 ++ l), msgs.
    all: unfold new_events; cbn [trace]; rewrite ?drop_all, ?drop_app_length.
    all: unfold knew; cbn [klog map]; rewrite <- ?app_assoc, drop_app_length.
    all: rewrite ?app_nil_r, ?C4, ?C3.
    all: split; [cbn [app]; reflexivity|].
    all: rewrite !kcalls_app, !drv_events_app, K, !kcalls_Drv, !drv_events_Drv.
    all: split; [reflexivity|].
    all: rewrite !forallb_app, !delivered_frames_app, !length_app, F1, F3, F.
    all: change (delivered_frames (drv_events [Drv (EvRead ESR a)]))
           with (@nil can_frame).
    all: change (delivered_frames (drv_events [Drv (EvRead IFLAG1 a1)]))
           with (@nil can_frame).
    all: split; [reflexivity|cbn [length]; lia].
  - destruct (wd <? quota) eqn:Q; krun_wr; intros [= <-]; rewrite Q.
    all: exists (map Drv [EvRead ESR a] ++ map Drv l1 ++ map Drv [EvRead IFLAG1 a1] ++
                 map Drv l3), [].
    all: unfold new_events; cbn [trace]; rewrite ?drop_all, ?drop_app_length.
    all: unfold knew; cbn [klog map]; rewrite <- ?app_assoc, drop_app_length.
    all: rewrite ?app_nil_r, ?C3.
    all: split; [cbn [app]; reflexivity|].
    all: rewrite !kcalls_app, !drv_events_app, !kcalls_Drv, !drv_events_Drv.
    all: split; [reflexivity|].
    all: rewrite !forallb_app, !delivered_frames_app, !length_app, F1, F3.
    all: change (delivered_frames (drv_events [Drv (EvRead ESR a)]))
           with (@nil can_frame).
    all: change (delivered_frames (drv_events [Drv (EvRead IFLAG1 a1)]))
           with (@nil can_frame).
    all: split; [reflexivity|cbn [length]; lia].
Qed.

(** X25.  What [flexcan_poll] has done when it returns [n]: [n] is at
    most the quota (at most 1 under a quota below 1, a state change
    being reported regardless); the poll is completed exactly when [n]
    is below the quota, and then the interrupt mask is back at its
    default and the control word at the saved one; at the quota, mask
    and control word are untouched, so that what the handler masked
    stays masked until a later poll completes.  Apart from these two
    and the interrupt flags no register is written, and the saved
    control word is not changed.  The log of the run is in two parts.
    The first holds, on the driver side, nothing but register reads
    and writes, frames handed to [netif_receive_skb], [can_bus_off],
    log lines and the receive LED, and on the kernel side nothing but
    [printk] lines; the frames handed to [netif_receive_skb] in it are
    exactly [n].  The second part is empty at the quota and otherwise
    is [napi_complete] followed by the writes of the interrupt mask and
    of the control word. *)
Theorem flexcan_poll_budget env fuel quota d n :
  kresult (flexcan_poll env fuel quota) d = Some n ->
  let d' := kafter (flexcan_poll env fuel quota) d in
  let w := drv d in
  let w' := drv d' in
  0 <= n <= Z.max quota 1 /\
  (exists msgs,
     kcalls (knew d d') =
       map KPrintk msgs ++
       (if n <? quota then [KNapiComplete napi_priv] else [])) /\
  (forall r, r <> IFLAG1 -> r <> IMASK1 -> r <> CTRL -> regs w' r = regs w r) /\
  reg_ctrl_default (priv w') = reg_ctrl_default (priv w) /\
  (if n <? quota
   then regs w' IMASK1 = FLEXCAN_IFLAG_DEFAULT /\
        regs w' CTRL = reg_ctrl_default (priv w)
   else regs w' IMASK1 = regs w IMASK1 /\ regs w' CTRL = regs w CTRL) /\
  exists l0 msgs,
    knew d d' =
      l0 ++ (if n <? quota
             then [Krn (KNapiComplete napi_priv);
                   Drv (EvWrite IMASK1 FLEXCAN_IFLAG_DEFAULT);
                   Drv (EvWrite CTRL (reg_ctrl_default (priv w)))]
             else []) /\
    kcalls l0 = map KPrintk msgs /\
    forallb is_poll_call (drv_events l0) = true /\
    Z.of_nat (length (delivered_frames (drv_events l0))) = n.
Proof.
  intros H. cbv zeta.
  destruct (flexcan_poll_frame env fuel quota d n H) as (H1 & H2 & H3 & H4 & H5).
  repeat (split; [assumption|]).
  exact (flexcan_poll_calls env fuel quota d n H).
Qed.

Lemma flexcan_poll_budget_witness :
  let d := device0 (world0 CAN_STATE_ERROR_ACTIVE) in
  let d' := kafter (flexcan_poll (const_env 0 true 0) 0 4) d in
  regs (drv d') IMASK1 = FLEXCAN_IFLAG_DEFAULT /\ regs (drv d') CTRL = 0.
Proof.
  cbv zeta.
  destruct (flexcan_poll_budget (const_env 0 true 0) 0 4
              (device0 (world0 CAN_STATE_ERROR_ACTIVE)) 0 eq_refl)
    as (_ & _ & _ & _ & H & _).
  exact H.
Defined.

(** ** The poll without memory *)

Lemma drop_frames_S n p :
  drop_frames (S n) p = drop_frames n (set_stats (inc_rx_dropped (stats p)) p).
Proof. unfold drop_frames. rewrite Nat.iter_succ_r. reflexivity. Qed.

Lemma drop_frames_rx_dropped n p :
  ulong (rx_dropped (stats (drop_frames n p))) =
  ulong (rx_dropped (stats p) + Z.of_nat n).
Proof.
  revert p. induction n as [|n IH]; intros p.
  - cbn [drop_frames Nat.iter]. f_equal. cbn. lia.
  - rewrite drop_frames_S, IH. cbn [set_stats stats inc_rx_dropped rx_dropped].
    rewrite ulong_add_l. f_equal. lia.
Qed.

Lemma drop_frames_keeps n p :
  state (drop_frames n p) = state p /\
  rx_packets (stats (drop_frames n p)) = rx_packets (stats p).
Proof.
  revert p. induction n as [|n IH]; intros p; [split; reflexivity|].
  rewrite drop_frames_S. destruct (IH (set_stats (inc_rx_dropped (stats p)) p))
    as (-> & ->). split; reflexivity.
Qed.

Lemma poll_fifo_loop_no_memory env fuel quota :
  (forall n, skb_alloc env n = false) ->
  (forall n f, tst (u32 (hw_read env n IFLAG1 f))
                   FLEXCAN_IFLAG_RX_FIFO_AVAILABLE = true) ->
  forall reg_iflag1 work_done w,
    tst reg_iflag1 FLEXCAN_IFLAG_RX_FIFO_AVAILABLE = true ->
    work_done < quota ->
    result (poll_fifo_loop env fuel quota reg_iflag1 work_done) w = None /\
    exists ck l,
      after (poll_fifo_loop env fuel quota reg_iflag1 work_done) w =
        mk_world (drop_frames fuel (priv w)) (regs w) ck (trace w ++ l) /\
      forallb is_reg_access l = true.
Proof.
  intros Hm Hf. induction fuel as [|fuel IH]; intros reg_iflag1 work_done w Ha Hq;
    cbn [poll_fifo_loop]; rewrite Ha; apply Z.ltb_lt in Hq as Hq'; rewrite Hq';
    cbn [andb].
  - split; [reflexivity|]. exists (clock w), []. rewrite app_nil_r.
    split; [apply world_eta | reflexivity].
  - destruct w as [p f ck tr]. unfold flexcan_read_frame, alloc_can_skb.
    mrun. rewrite Hm. mrun. cbv beta iota zeta delta [modify_stats modify_priv].
    mrun.
    match goal with |- context [poll_fifo_loop env fuel quota ?i ?wd ?w0] =>
      destruct (IH i wd w0 (Hf _ _) ltac:(lia)) as (R & ck' & l & A & Fl);
      unfold result, after in R, A;
      destruct (poll_fifo_loop env fuel quota i wd w0) as [r w'] eqn:X
    end.
    cbn [fst snd priv regs clock trace] in R, A. subst r w'.
    split; [reflexivity|].
    exists ck', ([EvRead IFLAG1 (u32 (hw_read env (S ck) IFLAG1 f))] ++ l).
    rewrite drop_frames_S, app_assoc. split; [reflexivity|].
    cbn [app forallb is_reg_access andb]. exact Fl.
Qed.

Lemma poll_state_no_memory env reg_esr w :
  (forall n, skb_alloc env n = false) ->
  result (flexcan_poll_state env reg_esr) w = 0 /\
  exists ck,
    after (flexcan_poll_state env reg_esr) w =
      mk_world (priv w) (regs w) ck (trace w).
Proof.
  intros Hm. destruct w as [p f ck tr]. unfold flexcan_poll_state, alloc_can_err_skb.
  mrun. destruct (decide (flexcan_new_state reg_esr = state p)).
  - split; [reflexivity|]. exists ck. reflexivity.
  - mrun. rewrite Hm. split; [reflexivity|]. exists (S ck). reflexivity.
Qed.

(** X26.  While no buffer can be allocated and the FIFO reports a
    frame, [flexcan_poll] with a positive quota does not leave its
    receive loop: after any number of rounds the loop is still running,
    each round has counted one dropped frame, no register has been
    written (the FIFO is not acknowledged), and nothing was delivered
    or completed. *)
Theorem flexcan_poll_spins_without_memory env fuel quota d :
  (forall n, skb_alloc env n = false) ->
  (forall n f, tst (u32 (hw_read env n IFLAG1 f))
                   FLEXCAN_IFLAG_RX_FIFO_AVAILABLE = true) ->
  0 < quota ->
  let d' := kafter (flexcan_poll env fuel quota) d in
  kresult (flexcan_poll env fuel quota) d = None /\
  regs (drv d') = regs (drv d) /\
  delivered_frames (drv_events (knew d d')) = [] /\
  kcalls (knew d d') = [] /\
  state (priv (drv d')) = state (priv (drv d)) /\
  rx_packets (stats (priv (drv d'))) = rx_packets (stats (priv (drv d))) /\
  ulong (rx_dropped (stats (priv (drv d')))) =
    ulong (rx_dropped (stats (priv (drv d))) + Z.of_nat fuel).
Proof.
  intros Hm Hf Hq. cbv zeta.
  destruct d as [[p f ck tr] pe be te st g lg].
  unfold flexcan_poll. krun_priv.
  cbv beta iota zeta delta [flexcan_read bind tick emit ret fst snd].
  cbn [priv regs clock trace].
  match goal with |- context [flexcan_poll_state env ?r ?w0] =>
    destruct (poll_state_no_memory env r w0 Hm) as (R & ck1 & A);
    unfold result, after in R, A;
    destruct (flexcan_poll_state env r w0) as [r1 w1] eqn:X1
  end.
  cbn [fst snd priv regs clock trace] in R, A. subst r1 w1.
  krun_priv. cbv beta iota zeta delta [flexcan_read bind tick emit ret fst snd].
  cbn [priv regs clock trace].
  match goal with |- context [poll_fifo_loop env fuel quota ?i ?wd ?w0] =>
    destruct (poll_fifo_loop_no_memory env fuel quota Hm Hf i wd w0 (Hf _ _)
                ltac:(lia)) as (R & ck2 & l & A & Fl);
    unfold result, after in R, A;
    destruct (poll_fifo_loop env fuel quota i wd w0) as [r2 w2] eqn:X2
  end.
  cbn [fst snd priv regs clock trace] in R, A. subst r2 w2.
  krun_priv. cbn [regs priv].
  unfold new_events; cbn [trace]. rewrite ?drop_app_length, ?drop_all.
  unfold knew; cbn [klog]. rewrite <- !app_assoc, drop_app_length.
  split; [reflexivity|]. split; [reflexivity|].
  split.
  { rewrite !drv_events_app, !drv_events_Drv, !delivered_frames_app.
    rewrite (reg_access_delivered l Fl). reflexivity. }
  split.
  { rewrite !kcalls_app, !kcalls_Drv. reflexivity. }
  destruct (drop_frames_keeps fuel p) as (S1 & S2).
  split; [exact S1|]. split; [exact S2|]. apply drop_frames_rx_dropped.
Qed.

Lemma flexcan_poll_spins_without_memory_witness :
  let env := const_env FLEXCAN_IFLAG_RX_FIFO_AVAILABLE false 0 in
  let d := device0 (world0 CAN_STATE_ERROR_ACTIVE) in
  kresult (flexcan_poll env 100 4) d = None /\
  rx_dropped (stats (priv (drv (kafter (flexcan_poll env 100 4) d)))) = 100.
Proof.
  cbv zeta.
  destruct (flexcan_poll_spins_without_memory
              (const_env FLEXCAN_IFLAG_RX_FIFO_AVAILABLE false 0) 100 4
              (device0 (world0 CAN_STATE_ERROR_ACTIVE)))
    as (H & _); [reflexivity | reflexivity | lia |].
  split; [exact H | vm_compute; reflexivity].
Defined.

(** ** Reading one frame from the FIFO *)

(** X27.  [flexcan_read_frame] by cases.  With a buffer it returns 1,
    hands up one well-formed frame, counts it and its length,
    acknowledges the FIFO (writes the available flag, no other
    register) and ends with the receive LED event.  Without a buffer it
    returns 0, counts one dropped frame and leaves the chip alone: the
    frame stays in the FIFO. *)
Theorem flexcan_read_frame_cases env w :
  let w' := after (flexcan_read_frame env) w in
  let tr := new_events w w' in
  if skb_alloc env (clock w)
  then result (flexcan_read_frame env) w = 1 /\
       regs w' IFLAG1 = FLEXCAN_IFLAG_RX_FIFO_AVAILABLE /\
       (forall r, r <> IFLAG1 -> regs w' r = regs w r) /\
       exists cf,
         delivered_frames tr = [cf] /\ well_formed_rx cf /\
         last tr = Some EvLedRx /\
         priv w' =
           set_stats (add_rx_bytes (can_dlc cf) (inc_rx_packets (stats (priv w))))
                     (priv w)
  else result (flexcan_read_frame env) w = 0 /\
       (forall r, regs w' r = regs w r) /\
       tr = [] /\
       priv w' = set_stats (inc_rx_dropped (stats (priv w))) (priv w).
Proof.
  cbv zeta. destruct w as [[s cm bt sts off rcd feat ts rx] f ck tr].
  unfold flexcan_read_frame, flexcan_read_fifo, alloc_can_skb.
  cbn [clock]. mrun. destruct (skb_alloc env ck).
  - mrun. cbv beta iota zeta delta [modify_stats modify_priv]. mrun.
    unfold new_events. cbn [trace]. rewrite <- !app_assoc, drop_app_length.
    split; [reflexivity|]. split; [apply upd_same|].
    split; [intros r Hr; apply upd_other; congruence|].
    eexists. split; [reflexivity|].
    split; [apply decoded_frame_well_formed|].
    split; reflexivity.
  - mrun. cbv beta iota zeta delta [modify_stats modify_priv]. mrun.
    unfold new_events. cbn [trace]. rewrite drop_all.
    repeat split.
Qed.

(** ** Mode changes *)

(** X28.  [flexcan_set_mode] supports the start request only: for the
    two other modes it returns [-EOPNOTSUPP] and touches nothing.  For a
    start it returns what [flexcan_chip_start] returns; on 0 the state
    is ERROR_ACTIVE, the interrupts are unmasked and waking the transmit
    queue is its last call; on an error nothing is done after the start
    attempt. *)
Theorem flexcan_set_mode_cases env mode d :
  let e := kresult (flexcan_set_mode env mode) d in
  let d' := kafter (flexcan_set_mode env mode) d in
  match mode with
  | CAN_MODE_START =>
      e = result (flexcan_chip_start env) (drv d) /\
      if e =? 0
      then state (priv (drv d')) = CAN_STATE_ERROR_ACTIVE /\
           regs (drv d') IMASK1 = FLEXCAN_IFLAG_DEFAULT /\
           last (knew d d') = Some (Drv EvNetifWakeQueue)
      else drv d' = after (flexcan_chip_start env) (drv d) /\
           knew d d' = map Drv (new_events (drv d) (drv d'))
  | _ => e = - EOPNOTSUPP /\ d' = d
  end.
Proof.
  cbv zeta. destruct d as [w pe be te st g lg].
  destruct mode; [split; reflexivity| |split; reflexivity].
  unfold flexcan_set_mode. krun.
  destruct (flexcan_chip_start env w) as [a w1] eqn:X.
  name_runs. destruct (a =? 0) eqn:E; cbn [negb]; krun_mem; rewrite ?E.
  - apply Z.eqb_eq in E. rewrite E in *. clear E.
    destruct (chip_start_success env w Hr) as (ck & f & v & l & _ & P & I & _).
    cbv zeta in P, I. rewrite Ha in P, I.
    change (0 =? 0) with true. cbv iota.
    split; [symmetry; exact Hr|].
    destruct w1 as [p1 f1 ck1 tr1]. cbn [priv regs] in *. rewrite I.
    split; [rewrite P; reflexivity|]. split; [reflexivity|].
    unfold knew. cbn [klog]. rewrite <- !app_assoc, drop_app_length.
    unfold new_events at 2. cbn [trace]. rewrite drop_app_length.
    cbn [map]. apply last_snoc.
  - split; [symmetry; exact Hr|]. rewrite Ha. split; [reflexivity|].
    unfold knew. cbn [klog]. apply drop_app_length.
Qed.
